(** * RTDS provider of pybennu: the GTNET-SKT write path, the tag store and
      the PMU polling loop

    A shallow embedding of [pybennu/providers/power/solvers/rtds.py].

    - Python values are a small tagged type [pyval]; a Python [float] is an
      IEEE-754 binary64 number written as a [spec_float].
    - A Python [dict] keeps its insertion order, and the provider relies on
      it ([gtnet_skt_state.values()] is packed positionally), so a dict is an
      association list with Python's update-in-place / append-at-end rule.
    - A method that mutates [self] and can raise returns the new object, the
      events it produced (log records, socket traffic) and either its return
      value or the exception; the object is returned also when it raises,
      because Python does not roll a mutation back. *)

From Stdlib Require Import ZArith List String Ascii Bool Lia Permutation.
From Stdlib Require Import SpecFloat DecimalString.
From Stdlib.Strings Require Import Byte.
Import ListNotations.

Local Open Scope string_scope.
Local Open Scope list_scope.
Local Open Scope Z_scope.

(** ** Exceptions and results *)

Inductive exn : Set :=
| ValueError
| TypeError
| OverflowError
| KeyError
| IndexError
| StructError.

Inductive result (A : Type) : Type :=
| Ok (a : A)
| Raise (e : exn).

Arguments Ok {A} a.
Arguments Raise {A} e.

Definition bind {A B : Type} (r : result A) (k : A -> result B) : result B :=
  match r with
  | Ok a => k a
  | Raise e => Raise e
  end.

Notation "'do' x <- r ; k" := (bind r (fun x => k))
  (at level 10, x name, r at level 100, k at level 200).

Definition is_ok {A : Type} (r : result A) : bool :=
  match r with
  | Ok _ => true
  | Raise _ => false
  end.

(** ** Python strings

    A [str] is a Rocq [string]; [lower] and [strip] act on the ASCII range. *)

Module PyStr.

Definition in_range (lo hi : nat) (c : ascii) : bool :=
  let n := nat_of_ascii c in (Nat.leb lo n && Nat.leb n hi)%bool.

(** [str.isspace] on ASCII: TAB..CR, FS..US and the blank. *)
Definition is_space (c : ascii) : bool :=
  (in_range 9 13 c || in_range 28 32 c)%bool.

Definition lower_ascii (c : ascii) : ascii :=
  if in_range 65 90 c then ascii_of_nat (nat_of_ascii c + 32) else c.

Fixpoint lower (s : string) : string :=
  match s with
  | EmptyString => EmptyString
  | String c s' => String (lower_ascii c) (lower s')
  end.

Fixpoint lstrip (cs : list ascii) : list ascii :=
  match cs with
  | c :: cs' => if is_space c then lstrip cs' else cs
  | [] => []
  end.

Definition strip (cs : list ascii) : list ascii :=
  rev (lstrip (rev (lstrip cs))).

(** [sep.join(parts)] *)
Fixpoint join (sep : string) (parts : list string) : string :=
  match parts with
  | [] => EmptyString
  | [p] => p
  | p :: ps => p ++ sep ++ join sep ps
  end.

(** [s.count(".")] for a one-character needle *)
Fixpoint count (c : ascii) (s : string) : nat :=
  match s with
  | EmptyString => O
  | String c' s' => (if Ascii.eqb c c' then 1 else 0) + count c s'
  end.

(** [str(n)] of an integer *)
Definition of_Z (z : Z) : string := NilZero.string_of_int (Z.to_int z).

Definition of_nat (n : nat) : string := of_Z (Z.of_nat n).

Definition digit_val (c : ascii) : option Z :=
  if in_range 48 57 c then Some (Z.of_nat (nat_of_ascii c) - 48) else None.

Definition is_digit (c : ascii) : bool :=
  match digit_val c with
  | Some _ => true
  | None => false
  end.

(** The rest of a [digitpart ::= digit (["_"] digit)*] once its first digit
    has been seen: the digits read and the unread suffix. *)
Fixpoint scan_digits_tl (cs : list ascii) : list Z * list ascii :=
  match cs with
  | [] => ([], [])
  | c :: cs' =>
      match digit_val c with
      | Some d => let (ds, r) := scan_digits_tl cs' in (d :: ds, r)
      | None =>
          if Ascii.eqb c "_" then
            match cs' with
            | c2 :: cs'' =>
                match digit_val c2 with
                | Some d => let (ds, r) := scan_digits_tl cs'' in (d :: ds, r)
                | None => ([], cs)
                end
            | [] => ([], cs)
            end
          else ([], cs)
      end
  end.

Definition scan_digits (cs : list ascii) : list Z * list ascii :=
  match cs with
  | c :: _ => if is_digit c then scan_digits_tl cs else ([], cs)
  | [] => ([], [])
  end.

Definition digits_value (ds : list Z) : Z :=
  fold_left (fun acc d => 10 * acc + d) ds 0.

(** An optional sign: [true] for a leading minus. *)
Definition scan_sign (cs : list ascii) : bool * list ascii :=
  match cs with
  | c :: r =>
      if Ascii.eqb c "-" then (true, r)
      else if Ascii.eqb c "+" then (false, r)
      else (false, cs)
  | [] => (false, [])
  end.

End PyStr.

(** ** Python values *)

Inductive pyval : Type :=
| PyNone
| PyBool (b : bool)
| PyInt (z : Z)
| PyFloat (f : spec_float)
| PyStr (s : string).

(** [type(val).__name__] *)
Definition type_name (v : pyval) : string :=
  match v with
  | PyNone => "NoneType"
  | PyBool _ => "bool"
  | PyInt _ => "int"
  | PyFloat _ => "float"
  | PyStr _ => "str"
  end.

(** [isinstance(val, str)] *)
Definition isinstance_str (v : pyval) : bool :=
  match v with
  | PyStr _ => true
  | _ => false
  end.

(** [isinstance(val, bool)] *)
Definition isinstance_bool (v : pyval) : bool :=
  match v with
  | PyBool _ => true
  | _ => false
  end.

(** Python truth value, [bool(val)] *)
Definition truthy (v : pyval) : bool :=
  match v with
  | PyNone => false
  | PyBool b => b
  | PyInt z => negb (z =? 0)
  | PyFloat (S754_zero _) => false
  | PyFloat _ => true
  | PyStr EmptyString => false
  | PyStr _ => true
  end.

(** ** The builtins [int()] and [float()] *)

Module Builtins.

Import PyStr.

(** [int(s)] for a [str], base 10: surrounding white space, an optional
    sign, digits with single underscores between them. *)
Definition int_of_string (s : string) : result Z :=
  let (neg, body) := scan_sign (strip (list_ascii_of_string s)) in
  match scan_digits body with
  | (d :: ds, []) =>
      let n := digits_value (d :: ds) in Ok (if neg then - n else n)
  | _ => Raise ValueError
  end.

(** [int(x)] for a [float]: truncation towards zero. *)
Definition int_of_float (f : spec_float) : result Z :=
  match f with
  | S754_nan => Raise ValueError
  | S754_infinity _ => Raise OverflowError
  | S754_zero _ => Ok 0
  | S754_finite s m e =>
      let a := if 0 <=? e then Z.shiftl (Zpos m) e else Z.shiftr (Zpos m) (- e) in
      Ok (if s then - a else a)
  end.

Definition int (v : pyval) : result Z :=
  match v with
  | PyNone => Raise TypeError
  | PyBool b => Ok (if b then 1 else 0)
  | PyInt z => Ok z
  | PyFloat f => int_of_float f
  | PyStr s => int_of_string s
  end.

(** binary64 *)
Definition prec64 : Z := 53.
Definition emax64 : Z := 1024.

(** The binary64 number nearest to [(-1)^neg * D * 10^e10] (ties to even). *)
Definition float_of_decimal (neg : bool) (D e10 : Z) : spec_float :=
  match D with
  | Zpos p =>
      if 0 <=? e10
      then binary_normalize prec64 emax64 (cond_Zopp neg (D * 10 ^ e10)) 0 neg
      else SFdiv prec64 emax64 (S754_finite neg p 0)
                 (S754_finite false (Z.to_pos (10 ^ (- e10))) 0)
  | _ => S754_zero neg
  end.

Definition lower_chars (cs : list ascii) : list ascii := map lower_ascii cs.

Definition chars_eqb (cs : list ascii) (s : string) : bool :=
  String.eqb (string_of_list_ascii cs) s.

(** The exponent part [("e"|"E") ["+"|"-"] digitpart] of a float literal, if
    the whole rest of the text is one; [Some 0] for an empty rest. *)
Definition scan_exponent (cs : list ascii) : option Z :=
  match cs with
  | [] => Some 0
  | c :: r =>
      if Ascii.eqb (lower_ascii c) "e" then
        let (neg, body) := scan_sign r in
        match scan_digits body with
        | (d :: ds, []) =>
            let n := digits_value (d :: ds) in Some (if neg then - n else n)
        | _ => None
        end
      else None
  end.

(** [float(s)] for a [str]: surrounding white space, an optional sign, then
    [inf], [infinity], [nan] in any case, or a decimal literal. *)
Definition float_of_string (s : string) : result spec_float :=
  let (neg, body) := scan_sign (strip (list_ascii_of_string s)) in
  let low := lower_chars body in
  if (chars_eqb low "inf" || chars_eqb low "infinity")%bool then Ok (S754_infinity neg)
  else if chars_eqb low "nan" then Ok S754_nan
  else
    let (ip, r1) := scan_digits body in
    let (fp, r2) :=
      match r1 with
      | c :: r => if Ascii.eqb c "." then scan_digits r else ([], r1)
      | [] => ([], [])
      end in
    match ip ++ fp with
    | [] => Raise ValueError
    | ds =>
        match scan_exponent r2 with
        | Some ex =>
            Ok (float_of_decimal neg (digits_value ds) (ex - Z.of_nat (List.length fp)))
        | None => Raise ValueError
        end
    end.

(** [float(n)] for an [int]: nearest binary64, [OverflowError] beyond it. *)
Definition float_of_int (z : Z) : result spec_float :=
  match binary_normalize prec64 emax64 z 0 false with
  | S754_infinity _ => Raise OverflowError
  | f => Ok f
  end.

Definition float (v : pyval) : result spec_float :=
  match v with
  | PyNone => Raise TypeError
  | PyBool b => float_of_int (if b then 1 else 0)
  | PyInt z => float_of_int z
  | PyFloat f => Ok f
  | PyStr s => float_of_string s
  end.

End Builtins.

Arguments Builtins.int_of_string : simpl never.
Arguments Builtins.int_of_float : simpl never.
Arguments Builtins.float_of_string : simpl never.
Arguments Builtins.float_of_int : simpl never.

(** ** [struct.pack] for the formats the provider builds

    The format string is ["!"] (network byte order, standard sizes) followed
    by one code per control point: ["i"] a signed 32-bit integer, ["f"] an
    IEEE-754 binary32 number. *)

Module Struct.

Definition byte_of_Z (z : Z) : byte :=
  match Byte.of_N (Z.to_N (Z.land z 255)) with
  | Some b => b
  | None => x00
  end.

Definition Z_of_byte (b : byte) : Z := Z.of_N (Byte.to_N b).

(** The four bytes of [u mod 2^32], most significant first. *)
Definition be32 (u : Z) : list byte :=
  [ byte_of_Z (Z.shiftr u 24); byte_of_Z (Z.shiftr u 16);
    byte_of_Z (Z.shiftr u 8); byte_of_Z u ].

Definition int_min : Z := - 2 ^ 31.
Definition int_max : Z := 2 ^ 31 - 1.

Definition pack_int32 (z : Z) : result (list byte) :=
  if (int_min <=? z) && (z <=? int_max) then Ok (be32 (z mod 2 ^ 32))
  else Raise StructError.

(** Code ["i"]: the argument must be an integer ([bool] is one) in range. *)
Definition pack_i (v : pyval) : result (list byte) :=
  match v with
  | PyInt z => pack_int32 z
  | PyBool b => pack_int32 (if b then 1 else 0)
  | _ => Raise StructError
  end.

(** binary32 *)
Definition prec32 : Z := 24.
Definition emax32 : Z := 128.

(** Rounding of a binary64 number to binary32, ties to even. *)
Definition to_binary32 (f : spec_float) : spec_float :=
  match f with
  | S754_finite s m e => binary_normalize prec32 emax32 (cond_Zopp s (Zpos m)) e s
  | _ => f
  end.

(** The bit pattern of a binary32 number; a NaN is the quiet NaN. *)
Definition bits_of_binary32 (f : spec_float) : Z :=
  let sign (s : bool) := if s then 2 ^ 31 else 0 in
  match f with
  | S754_zero s => sign s
  | S754_infinity s => sign s + 255 * 2 ^ 23
  | S754_nan => 255 * 2 ^ 23 + 2 ^ 22
  | S754_finite s m e =>
      sign s + (if Zpos m <? 2 ^ 23 then Zpos m
                else (e + 150) * 2 ^ 23 + (Zpos m - 2 ^ 23))
  end.

(** A finite number that rounds to an infinity is refused. *)
Definition pack_float32 (f : spec_float) : result (list byte) :=
  match f, to_binary32 f with
  | S754_finite _ _ _, S754_infinity _ => Raise OverflowError
  | _, y => Ok (be32 (bits_of_binary32 y))
  end.

(** Code ["f"]: the argument must convert to a float. *)
Definition pack_f (v : pyval) : result (list byte) :=
  match v with
  | PyFloat f => pack_float32 f
  | PyInt z =>
      match Builtins.float_of_int z with
      | Ok f => pack_float32 f
      | Raise _ => Raise StructError
      end
  | PyBool b => pack_float32 (if b then S754_finite false 4503599627370496 (-52)
                              else S754_zero false)
  | _ => Raise StructError
  end.

Definition is_code (c : ascii) : bool := (Ascii.eqb c "i" || Ascii.eqb c "f")%bool.

Definition pack_field (c : ascii) (v : pyval) : result (list byte) :=
  if Ascii.eqb c "i" then pack_i v
  else if Ascii.eqb c "f" then pack_f v
  else Raise StructError.

Fixpoint pack_fields (codes : list ascii) (values : list pyval) : result (list byte) :=
  match codes, values with
  | [], [] => Ok []
  | c :: codes', v :: values' =>
      do b <- pack_field c v;
      do bs <- pack_fields codes' values';
      Ok (b ++ bs)
  | _, _ => Raise StructError
  end.

(** [struct.pack(fmt, *values)]: the format is checked, then the number of
    arguments, then the fields are packed from left to right. *)
Definition pack (fmt : string) (values : list pyval) : result (list byte) :=
  match fmt with
  | String "!" codes =>
      let cs := list_ascii_of_string codes in
      if forallb is_code cs && Nat.eqb (List.length cs) (List.length values)
      then pack_fields cs values
      else Raise StructError
  | _ => Raise StructError
  end.

(** Reading a field back, as the GTNET card does. *)
Definition unpack_be32 (bs : list byte) : option Z :=
  match bs with
  | [b0; b1; b2; b3] =>
      Some (Z_of_byte b0 * 2 ^ 24 + Z_of_byte b1 * 2 ^ 16 + Z_of_byte b2 * 2 ^ 8 + Z_of_byte b3)
  | _ => None
  end.

Definition unpack_i (bs : list byte) : option Z :=
  match unpack_be32 bs with
  | Some u => Some (if u <? 2 ^ 31 then u else u - 2 ^ 32)
  | None => None
  end.

End Struct.

Arguments Struct.byte_of_Z : simpl never.
Arguments Struct.be32 : simpl never.
Arguments Struct.bits_of_binary32 : simpl never.
Arguments Struct.to_binary32 : simpl never.
Arguments Struct.pack_int32 : simpl never.
Arguments Struct.pack_float32 : simpl never.

(** ** Python dicts: insertion-ordered finite maps *)

Definition dict (V : Type) : Type := list (string * V).

Section Dict.

Context {V : Type}.

Fixpoint dict_get (k : string) (d : dict V) : option V :=
  match d with
  | [] => None
  | (k', v) :: d' => if String.eqb k k' then Some v else dict_get k d'
  end.

(** [k in d] *)
Definition dict_mem (k : string) (d : dict V) : bool :=
  match dict_get k d with
  | Some _ => true
  | None => false
  end.

(** [d[k] = v]: an existing key keeps its position, a new one goes last. *)
Fixpoint dict_set (k : string) (v : V) (d : dict V) : dict V :=
  match d with
  | [] => [(k, v)]
  | (k', v') :: d' =>
      if String.eqb k k' then (k', v) :: d' else (k', v') :: dict_set k v d'
  end.

(** [d.update(other)] *)
Definition dict_update (d other : dict V) : dict V :=
  fold_left (fun acc kv => dict_set (fst kv) (snd kv) acc) other d.

Definition dict_keys (d : dict V) : list string := map fst d.

Definition dict_values (d : dict V) : list V := map snd d.

(** [not d] *)
Definition dict_is_empty (d : dict V) : bool :=
  match d with
  | [] => true
  | _ :: _ => false
  end.

End Dict.

(** ** The provider object

    [Config] is the GTNET-SKT part of the provider's configuration as
    [RTDS._conf] returns it: the list options already split on commas and
    stripped, types and initial values already lower-cased. [RTDS] holds the
    attributes of [self] that the request handlers touch; [gtnet_socket] says
    whether [self.__gtnet_socket] is an open socket. *)

Record Config : Type := {
  conf_retry_delay : spec_float;
  conf_gtnet_skt_ip : string;
  conf_gtnet_skt_protocol : string;
  conf_gtnet_skt_tag_names : list string;
  conf_gtnet_skt_tag_types : list string;
  conf_gtnet_skt_initial_values : list string
}.

Record RTDS : Type := {
  retry_delay : spec_float;
  gtnet_skt_protocol : string;
  gtnet_skt_tag_names : list string;
  gtnet_skt_tag_types : list string;
  gtnet_skt_initial_values : list string;
  current_values : dict pyval;
  gtnet_socket : bool;
  gtnet_skt_tags : dict string;
  struct_format_string : string;
  gtnet_skt_state : dict pyval
}.

Definition set_gtnet_skt_state (self : RTDS) (st : dict pyval) : RTDS :=
  {| retry_delay := retry_delay self;
     gtnet_skt_protocol := gtnet_skt_protocol self;
     gtnet_skt_tag_names := gtnet_skt_tag_names self;
     gtnet_skt_tag_types := gtnet_skt_tag_types self;
     gtnet_skt_initial_values := gtnet_skt_initial_values self;
     current_values := current_values self;
     gtnet_socket := gtnet_socket self;
     gtnet_skt_tags := gtnet_skt_tags self;
     struct_format_string := struct_format_string self;
     gtnet_skt_state := st |}.

Definition set_current_values (self : RTDS) (cv : dict pyval) : RTDS :=
  {| retry_delay := retry_delay self;
     gtnet_skt_protocol := gtnet_skt_protocol self;
     gtnet_skt_tag_names := gtnet_skt_tag_names self;
     gtnet_skt_tag_types := gtnet_skt_tag_types self;
     gtnet_skt_initial_values := gtnet_skt_initial_values self;
     current_values := cv;
     gtnet_socket := gtnet_socket self;
     gtnet_skt_tags := gtnet_skt_tags self;
     struct_format_string := struct_format_string self;
     gtnet_skt_state := gtnet_skt_state self |}.

Definition set_gtnet_socket (self : RTDS) (open : bool) : RTDS :=
  {| retry_delay := retry_delay self;
     gtnet_skt_protocol := gtnet_skt_protocol self;
     gtnet_skt_tag_names := gtnet_skt_tag_names self;
     gtnet_skt_tag_types := gtnet_skt_tag_types self;
     gtnet_skt_initial_values := gtnet_skt_initial_values self;
     current_values := current_values self;
     gtnet_socket := open;
     gtnet_skt_tags := gtnet_skt_tags self;
     struct_format_string := struct_format_string self;
     gtnet_skt_state := gtnet_skt_state self |}.

(** Python's [zip] of three lists stops with the shortest. *)
Definition zip3 {A B C : Type} (la : list A) (lb : list B) (lc : list C)
  : list (A * B * C) :=
  combine (combine la lb) lc.

(** *** [RTDS.__init__], the GTNET-SKT part *)

Definition is_type_name (t : string) : bool := (String.eqb t "int" || String.eqb t "float")%bool.

(** The checks made "only if there are values configured"; [true] when none
    of them raises. *)
Definition validate_gtnet_skt (c : Config) : bool :=
  match conf_gtnet_skt_tag_types c with
  | [] => true
  | _ :: _ =>
      Nat.eqb (PyStr.count "." (conf_gtnet_skt_ip c)) 3
      && (String.eqb (conf_gtnet_skt_protocol c) "tcp"
          || String.eqb (conf_gtnet_skt_protocol c) "udp")
      && Nat.eqb (List.length (conf_gtnet_skt_tag_names c))
                 (List.length (conf_gtnet_skt_tag_types c))
      && Nat.eqb (List.length (conf_gtnet_skt_initial_values c))
                 (List.length (conf_gtnet_skt_tag_types c))
      && forallb is_type_name (conf_gtnet_skt_tag_types c)
      && Nat.leb (List.length (conf_gtnet_skt_tag_names c)) 30
  end.

(** [{name: typ for name, typ in zip(names, types)}] *)
Definition make_gtnet_skt_tags (names types : list string) : dict string :=
  fold_left (fun d nt => dict_set (fst nt) (snd nt) d) (combine names types) [].

(** The loop that seeds [gtnet_skt_state] and grows [struct_format_string]. *)
Fixpoint init_state (items : list (string * string * string))
    (fmt : string) (state : dict pyval) : result (string * dict pyval) :=
  match items with
  | [] => Ok (fmt, state)
  | (name, typ, val) :: rest =>
      if String.eqb typ "int" then
        do z <- Builtins.int (PyStr val);
        init_state rest (fmt ++ "i") (dict_set name (PyInt z) state)
      else if String.eqb typ "float" then
        do f <- Builtins.float (PyStr val);
        init_state rest (fmt ++ "f") (dict_set name (PyFloat f) state)
      else Raise ValueError
  end.

Definition __init__ (c : Config) : result RTDS :=
  if negb (validate_gtnet_skt c) then Raise ValueError
  else
    let names := conf_gtnet_skt_tag_names c in
    let types := conf_gtnet_skt_tag_types c in
    let values := conf_gtnet_skt_initial_values c in
    do fs <- init_state (zip3 names types values) "!" [];
    Ok {| retry_delay := conf_retry_delay c;
          gtnet_skt_protocol := conf_gtnet_skt_protocol c;
          gtnet_skt_tag_names := names;
          gtnet_skt_tag_types := types;
          gtnet_skt_initial_values := values;
          current_values := dict_update [] (snd fs);
          gtnet_socket := false;
          gtnet_skt_tags := make_gtnet_skt_tags names types;
          struct_format_string := fst fs;
          gtnet_skt_state := snd fs |}.

(** *** Events a request handler produces

    Log records are kept by level and content rather than by their text;
    DEBUG records are left out. [SocketInit] is a completed
    [_init_gtnet_socket] (for TCP it returns only once connected),
    [SendFailed] a [send]/[sendto] that raised, [Sent] one that went out. *)

Inductive event : Type :=
| LogError (msg : string)
| LogWarning (tag actual declared : string)
| LogInfo (tag : string) (new previous : pyval)
| SocketInit
| SendFailed (payload : list byte)
| Sent (payload : list byte).

Definition is_sent (e : event) : bool :=
  match e with
  | Sent _ => true
  | _ => false
  end.

Definition is_warning (e : event) : bool :=
  match e with
  | LogWarning _ _ _ => true
  | _ => false
  end.

(** *** [RTDS.write] *)

(** The validation loop: the first tag that is not in [gtnet_skt_tags]. *)
Fixpoint first_invalid_tag (declared : dict string) (tags : dict pyval) : option string :=
  match tags with
  | [] => None
  | (tag, _) :: rest =>
      if dict_mem tag declared then first_invalid_tag declared rest else Some tag
  end.

(** [val is False or (isinstance(val, str) and val.lower() == "false")] *)
Definition means_false (val : pyval) : bool :=
  match val with
  | PyBool b => negb b
  | PyStr s => String.eqb (PyStr.lower s) "false"
  | _ => false
  end.

(** [val is True or (isinstance(val, str) and val.lower() == "true")] *)
Definition means_true (val : pyval) : bool :=
  match val with
  | PyBool b => b
  | PyStr s => String.eqb (PyStr.lower s) "true"
  | _ => false
  end.

Definition normalize_bool (val : pyval) : pyval :=
  if means_false val then PyStr "0"
  else if means_true val then PyStr "1"
  else val.

(** The cast to the configured type: [int(val)] for ["int"], else [float(val)]. *)
Definition typecast (typ : string) (val : pyval) : result pyval :=
  if String.eqb typ "int"
  then do z <- Builtins.int val; Ok (PyInt z)
  else do f <- Builtins.float val; Ok (PyFloat f).

(** The record written when [type(val).__name__] is not the configured type
    name; a [str] never produces it. *)
Definition typecast_warning (tag typ : string) (val : pyval) : list event :=
  if negb (isinstance_str val) && negb (String.eqb (type_name val) typ)
  then [LogWarning tag (type_name val) typ]
  else [].

(** The loop that merges the request into [gtnet_skt_state], one tag after
    the other; an exception leaves the earlier assignments in place. *)
Fixpoint update_state (self : RTDS) (tags : dict pyval)
  : RTDS * list event * result unit :=
  match tags with
  | [] => (self, [], Ok tt)
  | (tag, val) :: rest =>
      match dict_get tag (gtnet_skt_tags self) with
      | None => (self, [], Raise KeyError)
      | Some typ =>
          let warn := typecast_warning tag typ val in
          match typecast typ (normalize_bool val) with
          | Raise e => (self, warn, Raise e)
          | Ok typecasted_value =>
              match dict_get tag (gtnet_skt_state self) with
              | None => (self, warn, Raise KeyError)
              | Some previous =>
                  let self1 :=
                    set_gtnet_skt_state self
                      (dict_set tag typecasted_value (gtnet_skt_state self)) in
                  let '(self2, evs, r) := update_state self1 rest in
                  (self2, warn ++ LogInfo tag typecasted_value previous :: evs, r)
              end
          end
      end
  end.

(** The send loop: [failures] sends raise, each followed by a new
    [_init_gtnet_socket], before one goes out. The loop has no other exit,
    so a run of [write] that returns has some finite [failures]. *)
Fixpoint send_loop (failures : nat) (payload : list byte) : list event :=
  match failures with
  | O => [Sent payload]
  | S k => SendFailed payload :: SocketInit :: send_loop k payload
  end.

Definition write (failures : nat) (self : RTDS) (tags : dict pyval)
  : RTDS * list event * result string :=
  if dict_is_empty tags then
    let msg := "ERR=No tags provided for write to RTDS" in
    (self, [LogError msg], Ok msg)
  else
    match first_invalid_tag (gtnet_skt_tags self) tags with
    | Some tag =>
        let msg := ("ERR=Invalid tag name '" ++ tag ++ "' for write to RTDS")%string in
        (self, [LogError msg], Ok msg)
    | None =>
        let '(self1, evs, r) := update_state self tags in
        match r with
        | Raise e => (self1, evs, Raise e)
        | Ok _ =>
            let values := dict_values (gtnet_skt_state self1) in
            match Struct.pack (struct_format_string self1) values with
            | Raise e => (self1, evs, Raise e)
            | Ok payload =>
                let init := if gtnet_socket self1 then [] else [SocketInit] in
                let self2 := set_gtnet_socket self1 true in
                let self3 :=
                  set_current_values self2
                    (dict_update (current_values self2) (gtnet_skt_state self2)) in
                (self3, evs ++ init ++ send_loop failures payload,
                 Ok ("ACK=Wrote " ++ PyStr.of_nat (List.length tags)
                       ++ " tags to RTDS via GTNET-SKT")%string)
            end
        end
    end.

(** The payloads that went out during a call. *)
Definition sent_payloads (evs : list event) : list (list byte) :=
  flat_map (fun e => match e with Sent p => [p] | _ => [] end) evs.

(** *** Rendering, [query], [read] and the publisher's message

    [str()] of a float (the shortest text that reads back as the same
    number) is taken as given. *)

Section Rendering.

Variable float_repr : spec_float -> string.

(** [str(value)] *)
Definition str (v : pyval) : string :=
  match v with
  | PyNone => "None"
  | PyBool b => if b then "True" else "False"
  | PyInt z => PyStr.of_Z z
  | PyFloat f => float_repr f
  | PyStr s => s
  end.

Definition _serialize_value (self : RTDS) (tag : string) (value : pyval)
  : result string :=
  match value with
  | PyBool b => Ok (if b then "true" else "false")
  | _ =>
      match dict_get tag (gtnet_skt_tags self) with
      | Some typ =>
          if String.eqb typ "int" then
            do z <- Builtins.int value;
            Ok (if 1 <=? z then "true" else "false")
          else Ok (str value)
      | None => Ok (str value)
      end
  end.

Definition query (self : RTDS) : string :=
  if dict_is_empty (current_values self)
  then "ERR=No data points have been read yet from the RTDS"
  else ("ACK=" ++ PyStr.join "," (dict_keys (current_values self)))%string.

Definition read (self : RTDS) (tag : string) : result string :=
  if dict_is_empty (current_values self)
  then Ok "ERR=Data points have not been initialized yet from the RTDS"
  else
    match dict_get tag (current_values self) with
    | None => Ok "ERR=Tag not found in current values from RTDS"
    | Some value =>
        do text <- _serialize_value self tag value;
        Ok ("ACK=" ++ text)%string
    end.

(** The [tag:value] items of one publisher iteration. *)
Fixpoint publish_items (self : RTDS) (cv : dict pyval) : result (list string) :=
  match cv with
  | [] => Ok []
  | (tag, value) :: rest =>
      do text <- _serialize_value self tag value;
      do items <- publish_items self rest;
      Ok ((tag ++ ":" ++ text)%string :: items)
  end.

(** The message one iteration of [periodic_publish] hands to [publish]. *)
Definition periodic_publish_message (self : RTDS) : result string :=
  do items <- publish_items self (current_values self);
  Ok ("Write={" ++ PyStr.join "," items ++ "}")%string.

End Rendering.

(** ** The per-PMU polling loop, [RTDS._poll_pmu]

    The CSV and Elasticsearch sinks of the loop body are left out: they do
    not touch [retry_count] or [current_values]. *)

Record PMU : Type := {
  pmu_name : string;
  pmu_label : string;
  channel_names : list string;
  sequence : Z
}.

(** One entry of [data_frame["measurements"]]: the phasors as (real, angle)
    pairs and the analog values. *)
Record measurement : Type := {
  mm_phasors : list (pyval * pyval);
  mm_analog : list pyval
}.

(** What one call of [pmu.get_data_frame()] does. *)
Inductive polled : Type :=
| GetRaised
| GetNothing
| GetFrame (measurements : list measurement).

Inductive poll_event : Type :=
| RebuildConnection
| Sleep (seconds : spec_float)
| FrameStored.

(** [_rebuild_pmu_connection]: it returns only once the connection is up
    again; [names] are the channel names the new configuration exchange
    reports. *)
Definition _rebuild_pmu_connection (names : list string) (pmu : PMU) : PMU :=
  {| pmu_name := pmu_name pmu;
     pmu_label := pmu_label pmu;
     channel_names := names;
     sequence := 0 |}.

Definition next_sequence (pmu : PMU) : PMU :=
  {| pmu_name := pmu_name pmu;
     pmu_label := pmu_label pmu;
     channel_names := channel_names pmu;
     sequence := sequence pmu + 1 |}.

(** [current_values[f"{label}_{channel_names[ph_id]}.{ph_type}"] = val] for
    the two parts of every phasor. *)
Fixpoint store_phasors (pmu : PMU) (ph_id : nat) (phasors : list (pyval * pyval))
    (cv : dict pyval) : dict pyval * result unit :=
  match phasors with
  | [] => (cv, Ok tt)
  | (re, an) :: rest =>
      match nth_error (channel_names pmu) ph_id with
      | None => (cv, Raise IndexError)
      | Some ch =>
          let base := (pmu_label pmu ++ "_" ++ ch)%string in
          let cv1 := dict_set (base ++ ".real") re cv in
          let cv2 := dict_set (base ++ ".angle") an cv1 in
          store_phasors pmu (S ph_id) rest cv2
      end
  end.

Fixpoint store_analog (pmu : PMU) (i : nat) (values : list pyval)
    (cv : dict pyval) : dict pyval :=
  match values with
  | [] => cv
  | analog_value :: rest =>
      let base := (pmu_name pmu ++ "_ANALOG_" ++ PyStr.of_nat (i + 1))%string in
      let cv1 := dict_set (base ++ ".real") analog_value cv in
      let cv2 := dict_set (base ++ ".angle") analog_value cv1 in
      store_analog pmu (S i) rest cv2
  end.

(** The body of [for mm in data_frame["measurements"]]. *)
Fixpoint store_measurements (self : RTDS) (pmu : PMU) (mms : list measurement)
  : RTDS * PMU * result unit :=
  match mms with
  | [] => (self, pmu, Ok tt)
  | mm :: rest =>
      match store_phasors pmu 0 (mm_phasors mm) (current_values self) with
      | (cv, Raise e) => (set_current_values self cv, pmu, Raise e)
      | (cv, Ok _) =>
          let cv' := store_analog pmu 0 (mm_analog mm) cv in
          store_measurements (set_current_values self cv') (next_sequence pmu) rest
      end
  end.

Record poll_state : Type := {
  ps_self : RTDS;
  ps_pmu : PMU;
  retry_count : nat
}.

(** One turn of [while True]. [names] is what a reconnection made in this
    turn would report. *)
Definition poll_iteration (names : list string) (got : polled) (st : poll_state)
  : poll_state * list poll_event * result unit :=
  match got with
  | GetRaised =>
      ({| ps_self := ps_self st;
          ps_pmu := _rebuild_pmu_connection names (ps_pmu st);
          retry_count := retry_count st |},
       [RebuildConnection], Ok tt)
  | GetNothing =>
      if Nat.leb 3 (retry_count st) then
        ({| ps_self := ps_self st;
            ps_pmu := _rebuild_pmu_connection names (ps_pmu st);
            retry_count := 0 |},
         [RebuildConnection], Ok tt)
      else
        ({| ps_self := ps_self st;
            ps_pmu := ps_pmu st;
            retry_count := retry_count st + 1 |},
         [Sleep (retry_delay (ps_self st))], Ok tt)
  | GetFrame mms =>
      let '(self', pmu', r) := store_measurements (ps_self st) (ps_pmu st) mms in
      ({| ps_self := self'; ps_pmu := pmu'; retry_count := retry_count st |},
       match r with Ok _ => [FrameStored] | Raise _ => [] end, r)
  end.

(** [_poll_pmu] run against the first polls of the source; [retry_count]
    starts at 0 in [poll_start]. An exception raised by the body ends the
    loop (and the thread). *)
Fixpoint poll_loop (script : list (polled * list string)) (st : poll_state)
  : poll_state * list poll_event * result unit :=
  match script with
  | [] => (st, [], Ok tt)
  | (got, names) :: rest =>
      match poll_iteration names got st with
      | (st1, evs, Raise e) => (st1, evs, Raise e)
      | (st1, evs, Ok _) =>
          let '(st2, evs', r) := poll_loop rest st1 in (st2, evs ++ evs', r)
      end
  end.

Definition poll_start (self : RTDS) (pmu : PMU) : poll_state :=
  {| ps_self := self; ps_pmu := pmu; retry_count := 0 |}.

Definition _poll_pmu (self : RTDS) (pmu : PMU) (script : list (polled * list string))
  : poll_state * list poll_event * result unit :=
  poll_loop script (poll_start self pmu).

(** ** Runs of the provider

    The states the provider goes through once [__init__] has returned: any
    interleaving of write requests with the item assignments
    [self.current_values[tag] = val] the polling threads make. *)

Inductive reachable (c : Config) : RTDS -> Prop :=
| reach_init : forall self,
    __init__ c = Ok self -> reachable c self
| reach_write : forall self failures tags,
    reachable c self -> reachable c (fst (fst (write failures self tags)))
| reach_store : forall self tag val,
    reachable c self ->
    reachable c (set_current_values self (dict_set tag val (current_values self))).

(** The declared control points: name, type and initial value. *)
Definition control_points (c : Config) : list (string * string * string) :=
  zip3 (conf_gtnet_skt_tag_names c) (conf_gtnet_skt_tag_types c)
       (conf_gtnet_skt_initial_values c).

(** ** Vocabulary of the statements *)

(** What [write] stores for a supplied value: the boolean spellings are
    replaced first, then the configured cast is applied. *)
Definition coerce (typ : string) (val : pyval) : result pyval :=
  typecast typ (normalize_bool val).

(** The casts of a whole request, in request order. *)
Fixpoint coerce_all (declared : dict string) (tags : dict pyval)
  : result (dict pyval) :=
  match tags with
  | [] => Ok []
  | (tag, val) :: rest =>
      match dict_get tag declared with
      | None => Raise KeyError
      | Some typ =>
          do x <- coerce typ val;
          do xs <- coerce_all declared rest;
          Ok ((tag, x) :: xs)
      end
  end.

(** The name, type and initial value of a declared control point. *)
Definition cp_name (p : string * string * string) : string := fst (fst p).
Definition cp_type (p : string * string * string) : string := snd (fst p).
Definition cp_initial (p : string * string * string) : string := snd p.

(** The keys of a dict after the keys [ks] were assigned in turn. *)
Definition keys_after (start ks : list string) : list string :=
  fold_left (fun acc k => if existsb (String.eqb k) acc then acc else acc ++ [k])
            ks start.

(** The format code [__init__] appends for a type name. *)
Definition code_of (typ : string) : ascii :=
  if String.eqb typ "int" then "i"%char else "f"%char.

(** The [i]-th 4-byte field of a payload. *)
Definition field_at (i : nat) (payload : list byte) : list byte :=
  firstn 4 (skipn (4 * i) payload).

(** A field holds the value [v] of a point of type [typ]: the value has the
    configured Python type, and the bytes are its big-endian two's-complement
    32-bit image, respectively the big-endian bit pattern of its rounding to
    binary32. *)
Definition encodes (typ : string) (v : pyval) (bs : list byte) : Prop :=
  if String.eqb typ "int" then
    exists z, v = PyInt z /\ Struct.int_min <= z <= Struct.int_max
              /\ bs = Struct.be32 (z mod 2 ^ 32) /\ Struct.unpack_i bs = Some z
  else
    exists f, v = PyFloat f
              /\ bs = Struct.be32 (Struct.bits_of_binary32 (Struct.to_binary32 f)).

(** Every tag of a request is a declared control point. *)
Definition all_declared (self : RTDS) (tags : dict pyval) : Prop :=
  forall tag, In tag (dict_keys tags) -> dict_mem tag (gtnet_skt_tags self) = true.

(** The value of a state slot has the Python type its tag was declared with. *)
Definition well_typed (typ : string) (v : pyval) : bool :=
  if String.eqb typ "int" then
    match v with PyInt _ => true | _ => false end
  else
    match v with PyFloat _ => true | _ => false end.

(** The current vector can be packed: no slot is out of range for its code. *)
Definition packable (self : RTDS) : bool :=
  is_ok (Struct.pack (struct_format_string self) (dict_values (gtnet_skt_state self))).

(** A supplied value can be stored and sent for a point of type [typ]. *)
Definition fits (typ : string) (val : pyval) : bool :=
  match coerce typ val with
  | Ok x => is_ok (Struct.pack_field (code_of typ) x)
  | Raise _ => false
  end.

Definition request_fits (self : RTDS) (tags : dict pyval) : Prop :=
  forall tag val, In (tag, val) tags ->
    exists typ, dict_get tag (gtnet_skt_tags self) = Some typ /\ fits typ val = true.

(** The reply texts. *)
Definition ERR_not_initialized : string :=
  "ERR=Data points have not been initialized yet from the RTDS".
Definition ERR_tag_not_found : string :=
  "ERR=Tag not found in current values from RTDS".
Definition ERR_no_data : string :=
  "ERR=No data points have been read yet from the RTDS".
Definition ACK_wrote (n : nat) : string :=
  ("ACK=Wrote " ++ PyStr.of_nat n ++ " tags to RTDS via GTNET-SKT")%string.

(** *** Sample objects

    The configuration of the scenario in the provider's documentation: an
    integer point [A] starting at 0 and a float point [B] starting at 1.5. *)

Definition sample_config : Config :=
  {| conf_retry_delay := S754_finite false 4503599627370496 (-52);
     conf_gtnet_skt_ip := "172.24.9.52";
     conf_gtnet_skt_protocol := "udp";
     conf_gtnet_skt_tag_names := ["A"; "B"];
     conf_gtnet_skt_tag_types := ["int"; "float"];
     conf_gtnet_skt_initial_values := ["0"; "1.5"] |}.


(** [sample_config] once [__init__] has run. *)
Definition sample_rtds : RTDS :=
  {| retry_delay := S754_finite false 4503599627370496 (-52);
     gtnet_skt_protocol := "udp";
     gtnet_skt_tag_names := ["A"; "B"];
     gtnet_skt_tag_types := ["int"; "float"];
     gtnet_skt_initial_values := ["0"; "1.5"];
     current_values :=
       [("A", PyInt 0); ("B", PyFloat (S754_finite false 6755399441055744 (-52)))];
     gtnet_socket := false;
     gtnet_skt_tags := [("A", "int"); ("B", "float")];
     struct_format_string := "!if";
     gtnet_skt_state :=
       [("A", PyInt 0); ("B", PyFloat (S754_finite false 6755399441055744 (-52)))] |}.

Definition empty_rtds : RTDS :=
  {| retry_delay := S754_finite false 4503599627370496 (-52);
     gtnet_skt_protocol := "udp";
     gtnet_skt_tag_names := [];
     gtnet_skt_tag_types := [];
     gtnet_skt_initial_values := [];
     current_values := [];
     gtnet_socket := false;
     gtnet_skt_tags := [];
     struct_format_string := "!";
     gtnet_skt_state := [] |}.

Definition sample_pmu : PMU :=
  {| pmu_name := "PMU1"; pmu_label := "BUS6";
     channel_names := ["VA"; "VB"]; sequence := 0 |}.

(** 2.75 and 1.5 as binary64 numbers. *)
Definition f_2_75 : spec_float := S754_finite false 6192449487634432 (-51).
Definition f_1_5 : spec_float := S754_finite false 6755399441055744 (-52).

(** *** Invariants of a run *)

(** What holds of every state of a run: the state dict has the keys of the
    declared points, in the same order, and every one of them is a key of
    the tag store. *)
Record consistent (self : RTDS) : Prop := {
  cons_keys : dict_keys (gtnet_skt_state self) = dict_keys (gtnet_skt_tags self);
  cons_nodup : NoDup (dict_keys (gtnet_skt_tags self));
  cons_store : forall k, In k (dict_keys (gtnet_skt_state self)) ->
                         In k (dict_keys (current_values self))
}.

(** What holds in addition when the configured names are distinct: the
    declared points are the configured ones in configuration order, the
    format has the code of each, and every slot holds a value of its type. *)
Record aligned (c : Config) (self : RTDS) : Prop := {
  al_tags : gtnet_skt_tags self
            = map (fun p => (cp_name p, cp_type p)) (control_points c);
  al_fmt : struct_format_string self
           = String "!" (string_of_list_ascii
                           (map (fun p => code_of (cp_type p)) (control_points c)));
  al_types : Forall (fun p => is_type_name (cp_type p) = true) (control_points c);
  al_typed : forall k v, In (k, v) (gtnet_skt_state self) ->
               exists typ, dict_get k (gtnet_skt_tags self) = Some typ
                           /\ well_typed typ v = true
}.

(** *** The five ways through [write] *)

Inductive write_path (failures : nat) (self : RTDS) (tags : dict pyval)
  : RTDS * list event * result string -> Prop :=
| path_empty :
    tags = [] ->
    write_path failures self tags
      (self, [LogError "ERR=No tags provided for write to RTDS"],
       Ok "ERR=No tags provided for write to RTDS")
| path_invalid : forall bad,
    first_invalid_tag (gtnet_skt_tags self) tags = Some bad ->
    write_path failures self tags
      (self,
       [LogError ("ERR=Invalid tag name '" ++ bad ++ "' for write to RTDS")%string],
       Ok ("ERR=Invalid tag name '" ++ bad ++ "' for write to RTDS")%string)
| path_cast_raises : forall self1 evs1 e,
    tags <> [] ->
    first_invalid_tag (gtnet_skt_tags self) tags = None ->
    update_state self tags = (self1, evs1, Raise e) ->
    write_path failures self tags (self1, evs1, Raise e)
| path_pack_raises : forall self1 evs1 e,
    tags <> [] ->
    first_invalid_tag (gtnet_skt_tags self) tags = None ->
    update_state self tags = (self1, evs1, Ok tt) ->
    Struct.pack (struct_format_string self1) (dict_values (gtnet_skt_state self1))
    = Raise e ->
    write_path failures self tags (self1, evs1, Raise e)
| path_sent : forall self1 evs1 payload,
    tags <> [] ->
    first_invalid_tag (gtnet_skt_tags self) tags = None ->
    update_state self tags = (self1, evs1, Ok tt) ->
    Struct.pack (struct_format_string self1) (dict_values (gtnet_skt_state self1))
    = Ok payload ->
    write_path failures self tags
      (set_current_values (set_gtnet_socket self1 true)
         (dict_update (current_values self1) (gtnet_skt_state self1)),
       evs1 ++ (if gtnet_socket self1 then [] else [SocketInit])
            ++ send_loop failures payload,
       Ok (ACK_wrote (List.length tags))).

(** [str()] of the floats of the sample objects. *)
Definition sample_float_repr (f : spec_float) : string :=
  if SFeqb f f_2_75 then "2.75"
  else if SFeqb f f_1_5 then "1.5"
  else "0.0".

(** The codes of a format agree, position by position, with the declared
    types of the keys of a dict. *)
Definition codes_match (declared : dict string) (codes : list ascii)
    (keys : list string) : Prop :=
  Forall2 (fun c k => exists typ, dict_get k declared = Some typ /\ c = code_of typ)
          codes keys.

(** The three parts of what a call of [write] yields. *)
Definition after (w : RTDS * list event * result string) : RTDS := fst (fst w).
Definition events (w : RTDS * list event * result string) : list event := snd (fst w).
Definition reply (w : RTDS * list event * result string) : result string := snd w.

(** 1.0 as a binary64 number. *)
Definition f_1_0 : spec_float := S754_finite false 4503599627370496 (-52).

(** The value a boolean spelling is stored as, by declared type. *)
Definition stored_bool (typ : string) (b : bool) : pyval :=
  if String.eqb typ "int"
  then PyInt (if b then 1 else 0)
  else PyFloat (if b then f_1_0 else S754_zero false).

(** A frame with one measurement of two phasors, and a poll script in which
    soft failures alternate with that frame; a reconnection would report the
    same two channels. *)
Definition sample_frame : list measurement :=
  [ {| mm_phasors := [(PyFloat f_2_75, PyFloat f_1_5); (PyFloat f_1_5, PyFloat f_1_0)];
       mm_analog := [] |} ].

Definition alternating_script : list (polled * list string) :=
  [ (GetNothing, ["VA"; "VB"]); (GetFrame sample_frame, ["VA"; "VB"]);
    (GetNothing, ["VA"; "VB"]); (GetFrame sample_frame, ["VA"; "VB"]);
    (GetNothing, ["VA"; "VB"]); (GetFrame sample_frame, ["VA"; "VB"]);
    (GetNothing, ["VA"; "VB"]) ].

(** The longest run of consecutive soft failures in a script. *)
Fixpoint longest_soft_run (script : list (polled * list string)) (run best : nat) : nat :=
  match script with
  | [] => Nat.max run best
  | (GetNothing, _) :: rest => longest_soft_run rest (S run) best
  | _ :: rest => longest_soft_run rest 0 (Nat.max run best)
  end.

(** ** Counting the socket events of a call *)

Definition is_send_failed (e : event) : bool :=
  match e with
  | SendFailed _ => true
  | _ => false
  end.

Definition is_socket_init (e : event) : bool :=
  match e with
  | SocketInit => true
  | _ => false
  end.

(** The sample object after the out-of-range integer 2^31 was written to
    its [int] point [A]: the call raised, the slot kept the value. *)
Definition poisoned_rtds : RTDS :=
  after (write 0 sample_rtds [("A", PyStr "2147483648")]).

(** ** Counting in a poll script and in its trace *)

(** The polls of a script that found no frame, and those that raised. *)
Fixpoint soft_failures (script : list (polled * list string)) : nat :=
  match script with
  | [] => 0
  | (GetNothing, _) :: rest => S (soft_failures rest)
  | _ :: rest => soft_failures rest
  end.

Fixpoint raised_polls (script : list (polled * list string)) : nat :=
  match script with
  | [] => 0
  | (GetRaised, _) :: rest => S (raised_polls rest)
  | _ :: rest => raised_polls rest
  end.

Definition is_rebuild (e : poll_event) : bool :=
  match e with
  | RebuildConnection => true
  | _ => false
  end.

Definition is_sleep (e : poll_event) : bool :=
  match e with
  | Sleep _ => true
  | _ => false
  end.



(** ** Checking a configuration *)


(** A configuration that names the point [A] twice. *)
Definition duplicate_config : Config :=
  {| conf_retry_delay := f_1_0;
     conf_gtnet_skt_ip := "172.24.9.52";
     conf_gtnet_skt_protocol := "tcp";
     conf_gtnet_skt_tag_names := ["A"; "A"];
     conf_gtnet_skt_tag_types := ["int"; "int"];
     conf_gtnet_skt_initial_values := ["0"; "1"] |}.

Definition duplicate_rtds : RTDS :=
  {| retry_delay := f_1_0;
     gtnet_skt_protocol := "tcp";
     gtnet_skt_tag_names := ["A"; "A"];
     gtnet_skt_tag_types := ["int"; "int"];
     gtnet_skt_initial_values := ["0"; "1"];
     current_values := [("A", PyInt 1)];
     gtnet_socket := false;
     gtnet_skt_tags := [("A", "int")];
     struct_format_string := "!ii";
     gtnet_skt_state := [("A", PyInt 1)] |}.

(** ** Reading the configuration file

    [ConfigParser.get] returns the option's text, so the value [_conf]
    works on is a [str]. *)

(** [s.split(",")]: the pieces between the commas, empty ones included. *)
Fixpoint split_comma (cs : list ascii) : list (list ascii) :=
  match cs with
  | [] => [[]]
  | c :: cs' =>
      if Ascii.eqb c "," then [] :: split_comma cs'
      else match split_comma cs' with
           | piece :: pieces => (c :: piece) :: pieces
           | [] => [[c]]
           end
  end.

Definition str_strip (s : string) : string :=
  string_of_list_ascii (PyStr.strip (list_ascii_of_string s)).

Definition str_split_comma (s : string) : list string :=
  map string_of_list_ascii (split_comma (list_ascii_of_string s)).

Definition is_empty_str (s : string) : bool :=
  match s with
  | EmptyString => true
  | String _ _ => false
  end.

(** [_conf(key)] *)
Definition _conf (raw : string) : string := str_strip raw.

(** [[x.strip() for x in val.split(",") if x.strip()]] *)
Definition conf_items (raw : string) : list string :=
  map str_strip
      (filter (fun x => negb (is_empty_str (str_strip x)))
              (str_split_comma (_conf raw))).

Fixpoint map_result {A B : Type} (f : A -> result B) (l : list A) : result (list B) :=
  match l with
  | [] => Ok []
  | x :: l' => do y <- f x; do ys <- map_result f l'; Ok (y :: ys)
  end.

(** [_conf(key, is_list=True, convert=convert)] *)
Definition _conf_list {A : Type} (convert : string -> result A) (raw : string)
    : result (list A) :=
  map_result convert (conf_items raw).

(** An item as [_conf] returns them: not empty, without a comma, without
    blanks around it. *)
Definition clean_item (s : string) : Prop :=
  s <> EmptyString /\ PyStr.count "," s = 0%nat /\ str_strip s = s.

(** *** Vocabulary for the facts about [strip] and [split] *)

Definition starts_clean (cs : list ascii) : bool :=
  match cs with
  | [] => true
  | c :: _ => negb (PyStr.is_space c)
  end.

Definition no_comma (cs : list ascii) : Prop :=
  Forall (fun c => Ascii.eqb c "," = false) cs.

(** The pieces of a text with blanks appended: the last piece gets them. *)
Fixpoint app_last (ps : list (list ascii)) (ws : list ascii) : list (list ascii) :=
  match ps with
  | [] => [ws]
  | [p] => [p ++ ws]
  | p :: ps' => p :: app_last ps' ws
  end.

Definition is_nil (cs : list ascii) : bool :=
  match cs with
  | [] => true
  | _ :: _ => false
  end.

(** The items of a text, on its characters and without the outer [strip]. *)
Definition items_of (cs : list ascii) : list (list ascii) :=
  filter (fun x => negb (is_nil x)) (map PyStr.strip (split_comma cs)).

(** ** Channel names ([PMU.run])

    [re.sub(r"PHASOR CH \d\:", "", s, re.IGNORECASE | re.ASCII)]: the fourth
    positional parameter of [re.sub] is [count], so the two flags are not
    flags here but the number [2 | 256 = 258]. The pattern is matched as
    written, capitals included, and at most 258 occurrences are removed.
    On the characters a [string] holds, [\d] is one of [0] to [9]. *)

Fixpoint starts_with (pre cs : list ascii) : option (list ascii) :=
  match pre, cs with
  | [], _ => Some cs
  | p :: pre', c :: cs' => if Ascii.eqb p c then starts_with pre' cs' else None
  | _ :: _, [] => None
  end.

(** Whether the pattern matches at the head of the text. *)
Definition matches_phasor (cs : list ascii) : bool :=
  match starts_with (list_ascii_of_string "PHASOR CH ") cs with
  | Some (d :: colon :: _) => PyStr.is_digit d && Ascii.eqb colon ":"
  | _ => false
  end.

(** The scan of [re.sub], left to right over matches that do not overlap:
    [skip] characters of the current match are still to be dropped, [count]
    replacements are left. A match is 12 characters long. *)
Fixpoint sub_phasor (skip count : nat) (cs : list ascii) : list ascii :=
  match cs with
  | [] => []
  | c :: cs' =>
      match skip with
      | S k => sub_phasor k count cs'
      | O =>
          match count with
          | S n =>
              if matches_phasor cs then sub_phasor 11 n cs'
              else c :: sub_phasor 0 count cs'
          | O => c :: sub_phasor 0 count cs'
          end
      end
  end.

Definition _process_name (cn : string) : string :=
  string_of_list_ascii
    (PyStr.strip (sub_phasor 0 258 (PyStr.strip (list_ascii_of_string cn)))).

(** * Properties *)

(** ** Results *)

Lemma bind_ok {A B : Type} (r : result A) (k : A -> result B) (b : B) :
  bind r k = Ok b -> exists a, r = Ok a /\ k a = Ok b.
Proof.
  destruct r as [a | e]; simpl; intros H; [eauto | discriminate].
Qed.

(** ** Dicts *)

Section DictFacts.

Context {V : Type}.
Implicit Types (d : dict V) (k : string) (v : V).

Lemma dict_get_set_same k v d :
  dict_get k (dict_set k v d) = Some v.
Proof.
  induction d as [| [k' v'] d IH]; simpl.
  - now rewrite String.eqb_refl.
  - destruct (String.eqb k k') eqn:E; simpl; rewrite E; auto.
Qed.

Lemma dict_get_set_other k k' v d :
  k <> k' -> dict_get k (dict_set k' v d) = dict_get k d.
Proof.
  intros Hne. induction d as [| [k0 v0] d IH]; simpl.
  - destruct (String.eqb_spec k k'); [contradiction | reflexivity].
  - destruct (String.eqb_spec k' k0) as [-> | Hk0]; simpl.
    + destruct (String.eqb_spec k k0); [contradiction | reflexivity].
    + destruct (String.eqb_spec k k0); auto.
Qed.

Lemma dict_mem_in k d :
  dict_mem k d = true <-> In k (dict_keys d).
Proof.
  unfold dict_mem. induction d as [| [k' v'] d IH]; simpl.
  - split; [discriminate | tauto].
  - destruct (String.eqb_spec k k') as [-> | Hne].
    + split; auto.
    + rewrite IH. split; [auto | intros [H | H]; congruence].
Qed.

Lemma dict_get_some_in k v d :
  dict_get k d = Some v -> In (k, v) d.
Proof.
  induction d as [| [k' v'] d IH]; simpl; [discriminate |].
  destruct (String.eqb_spec k k') as [-> | Hne]; intros H.
  - injection H as ->. now left.
  - right. auto.
Qed.

Lemma dict_get_in_nodup k v d :
  NoDup (dict_keys d) -> In (k, v) d -> dict_get k d = Some v.
Proof.
  induction d as [| [k' v'] d IH]; simpl; [tauto |].
  intros Hnd [Heq | Hin]; inversion Hnd as [| ? ? Hnotin Hnd']; subst.
  - injection Heq as -> ->. now rewrite String.eqb_refl.
  - destruct (String.eqb_spec k k') as [-> | Hne]; auto.
    exfalso. apply Hnotin. unfold dict_keys.
    change k' with (fst (k', v)). now apply in_map.
Qed.

Lemma dict_mem_get k d :
  dict_mem k d = true -> exists v, dict_get k d = Some v.
Proof.
  unfold dict_mem. destruct (dict_get k d); [eauto | discriminate].
Qed.

Lemma dict_get_mem k v d :
  dict_get k d = Some v -> dict_mem k d = true.
Proof. unfold dict_mem. now intros ->. Qed.

Lemma dict_keys_set_mem k v d :
  dict_mem k d = true -> dict_keys (dict_set k v d) = dict_keys d.
Proof.
  unfold dict_mem. induction d as [| [k' v'] d IH]; simpl; [discriminate |].
  destruct (String.eqb_spec k k') as [-> | Hne]; simpl; [reflexivity |].
  intros H. now rewrite IH.
Qed.

Lemma dict_keys_set_new k v d :
  dict_mem k d = false -> dict_keys (dict_set k v d) = dict_keys d ++ [k].
Proof.
  unfold dict_mem. induction d as [| [k' v'] d IH]; simpl; [reflexivity |].
  destruct (String.eqb_spec k k') as [-> | Hne]; simpl; [discriminate |].
  intros H. now rewrite IH.
Qed.

Lemma dict_set_keeps_keys k k' v d :
  In k (dict_keys d) -> In k (dict_keys (dict_set k' v d)).
Proof.
  intros Hin. destruct (dict_mem k' d) eqn:E.
  - now rewrite dict_keys_set_mem.
  - rewrite dict_keys_set_new by assumption. apply in_or_app. now left.
Qed.

Lemma dict_set_nodup k v d :
  NoDup (dict_keys d) -> NoDup (dict_keys (dict_set k v d)).
Proof.
  intros Hnd. destruct (dict_mem k d) eqn:E.
  - now rewrite dict_keys_set_mem.
  - rewrite dict_keys_set_new by assumption.
    apply NoDup_app; [assumption | repeat constructor; simpl; tauto |].
    intros x Hx [<- | []].
    apply dict_mem_in in Hx. congruence.
Qed.

Lemma dict_set_not_empty k v d :
  dict_is_empty (dict_set k v d) = false.
Proof.
  destruct d as [| [k' v'] d]; simpl; [reflexivity |].
  now destruct (String.eqb k k').
Qed.

Lemma dict_is_empty_keys d :
  dict_is_empty d = true <-> dict_keys d = [].
Proof. destruct d; simpl; split; congruence. Qed.

(** Two dicts with the same keys in the same order and the same bindings are
    the same dict. *)
Lemma dict_ext d1 d2 :
  dict_keys d1 = dict_keys d2 ->
  NoDup (dict_keys d1) ->
  (forall k, In k (dict_keys d1) -> dict_get k d1 = dict_get k d2) ->
  d1 = d2.
Proof.
  revert d2. induction d1 as [| [k1 v1] d1 IH]; intros [| [k2 v2] d2]; simpl;
    try discriminate; [reflexivity |].
  intros Hk Hnd Hget. injection Hk as -> Hk.
  inversion Hnd as [| ? ? Hnotin Hnd']; subst.
  pose proof (Hget k2 (or_introl eq_refl)) as H0.
  rewrite String.eqb_refl in H0. injection H0 as ->.
  f_equal. apply IH; auto.
  intros k Hin. specialize (Hget k (or_intror Hin)).
  destruct (String.eqb_spec k k2) as [Heq | Hne]; [subst; contradiction | assumption].
Qed.

Lemma dict_update_keeps_keys k d other :
  In k (dict_keys d) -> In k (dict_keys (dict_update d other)).
Proof.
  unfold dict_update. revert d.
  induction other as [| [k' v'] other IH]; simpl; intros d Hin; [assumption |].
  apply IH. now apply dict_set_keeps_keys.
Qed.

Lemma dict_update_get k d other :
  NoDup (dict_keys other) ->
  dict_get k (dict_update d other) =
  match dict_get k other with
  | Some v => Some v
  | None => dict_get k d
  end.
Proof.
  unfold dict_update. revert d.
  induction other as [| [k' v'] other IH]; simpl; intros d Hnd; [reflexivity |].
  inversion Hnd as [| ? ? Hnotin Hnd']; subst.
  rewrite IH by assumption.
  destruct (String.eqb_spec k k') as [-> | Hne].
  - assert (dict_get k' other = None) as ->.
    { destruct (dict_get k' other) eqn:E; [| reflexivity].
      exfalso. apply Hnotin. apply dict_mem_in. eapply dict_get_mem; eauto. }
    apply dict_get_set_same.
  - destruct (dict_get k other); [reflexivity |].
    now apply dict_get_set_other.
Qed.

Lemma dict_update_nonempty d other :
  dict_is_empty other = false -> dict_is_empty (dict_update d other) = false.
Proof.
  destruct other as [| [k v] other]; [simpl; discriminate | intros _].
  destruct (dict_is_empty (dict_update d ((k, v) :: other))) eqn:E; [| reflexivity].
  apply dict_is_empty_keys in E.
  assert (In k (dict_keys (dict_update d ((k, v) :: other)))) as Hin.
  { unfold dict_update. simpl. apply (dict_update_keeps_keys k (dict_set k v d) other).
    apply dict_mem_in. eapply dict_get_mem. apply dict_get_set_same. }
  rewrite E in Hin. destruct Hin.
Qed.

End DictFacts.

(** ** [struct.pack] *)

Module StructFacts.

Import Struct.

Lemma Z_of_byte_of_Z z : Z_of_byte (byte_of_Z z) = z mod 256.
Proof.
  unfold Z_of_byte, byte_of_Z.
  assert (Z.land z 255 = z mod 256) as E.
  { change 255 with (Z.ones 8). rewrite Z.land_ones by lia. reflexivity. }
  rewrite E.
  assert (0 <= z mod 256 < 256) as Hr by (apply Z.mod_pos_bound; lia).
  pose proof (Byte.to_of_N_option_map (Z.to_N (z mod 256))) as H.
  destruct (Byte.of_N (Z.to_N (z mod 256))) as [b |]; simpl in H.
  - destruct (N.leb_spec (Z.to_N (z mod 256)) 255); [| discriminate].
    injection H as ->. apply Z2N.id. lia.
  - destruct (N.leb_spec (Z.to_N (z mod 256)) 255); [discriminate | lia].
Qed.

Lemma unpack_be32_be32 u :
  0 <= u < 2 ^ 32 -> unpack_be32 (be32 u) = Some u.
Proof.
  intros Hu. unfold be32, unpack_be32.
  rewrite !Z_of_byte_of_Z, !Z.shiftr_div_pow2 by lia.
  f_equal.
  change (2 ^ 32) with 4294967296 in Hu.
  change (2 ^ 24) with 16777216. change (2 ^ 16) with 65536. change (2 ^ 8) with 256.
  Z.div_mod_to_equations. lia.
Qed.

(** An integer in range is read back from its field. *)
Lemma unpack_i_pack z :
  int_min <= z <= int_max -> unpack_i (be32 (z mod 2 ^ 32)) = Some z.
Proof.
  unfold int_min, int_max. intros Hz. unfold unpack_i.
  rewrite unpack_be32_be32 by (apply Z.mod_pos_bound; lia).
  f_equal.
  change (2 ^ 32) with 4294967296. change (2 ^ 31) with 2147483648 in *.
  destruct (Z.ltb_spec (z mod 4294967296) 2147483648);
    Z.div_mod_to_equations; lia.
Qed.

Lemma length_be32 u : List.length (be32 u) = 4%nat.
Proof. reflexivity. Qed.

Lemma pack_int32_ok z bs :
  pack_int32 z = Ok bs ->
  int_min <= z <= int_max /\ bs = be32 (z mod 2 ^ 32).
Proof.
  unfold pack_int32.
  destruct (Z.leb_spec int_min z); destruct (Z.leb_spec z int_max); simpl;
    intros Hp; try discriminate.
  injection Hp as <-. auto.
Qed.

Lemma pack_float32_ok f bs :
  pack_float32 f = Ok bs -> bs = be32 (bits_of_binary32 (to_binary32 f)).
Proof.
  unfold pack_float32. destruct f as [s | s | | s m e].
  1-3: intros H; injection H as <-; reflexivity.
  destruct (to_binary32 (S754_finite s m e)) as [s0 | s0 | | s0 m0 e0];
    intros H; [| discriminate H | |]; injection H as <-; reflexivity.
Qed.

Lemma length_pack_field c v bs :
  pack_field c v = Ok bs -> List.length bs = 4%nat.
Proof.
  unfold pack_field, pack_i, pack_f.
  destruct (Ascii.eqb c "i").
  - destruct v as [| b | z | f | s]; try discriminate;
      intros H; apply pack_int32_ok in H as [_ ->]; reflexivity.
  - destruct (Ascii.eqb c "f"); [| discriminate].
    destruct v as [| b | z | f | s]; try discriminate.
    + intros H. apply pack_float32_ok in H as ->. reflexivity.
    + destruct (Builtins.float_of_int z); [| discriminate].
      intros H. apply pack_float32_ok in H as ->. reflexivity.
    + intros H. apply pack_float32_ok in H as ->. reflexivity.
Qed.

Lemma length_pack_fields codes values bs :
  pack_fields codes values = Ok bs ->
  List.length bs = (4 * List.length values)%nat.
Proof.
  revert values bs.
  induction codes as [| c codes IH]; intros [| v values] bs; simpl;
    try discriminate.
  - intros H. injection H as <-. reflexivity.
  - intros H. apply bind_ok in H as (b & Hb & H).
    apply bind_ok in H as (bs' & Hbs & H). injection H as <-.
    rewrite length_app, (length_pack_field _ _ _ Hb), (IH _ _ Hbs). lia.
Qed.

(** A packed record has four bytes for every value. *)
Lemma length_pack fmt values bs :
  pack fmt values = Ok bs -> List.length bs = (4 * List.length values)%nat.
Proof.
  unfold pack. destruct fmt as [| a codes]; [discriminate |].
  destruct (Ascii.eqb a "!"%char) eqn:Ea.
  2:{ destruct a as [[] [] [] [] [] [] [] []]; try discriminate Ea; discriminate. }
  apply Ascii.eqb_eq in Ea as ->.
  destruct (forallb is_code (list_ascii_of_string codes)
            && Nat.eqb (List.length (list_ascii_of_string codes)) (List.length values));
    [apply length_pack_fields | discriminate].
Qed.

Lemma field_at_0 (b bs : list byte) :
  List.length b = 4%nat -> field_at 0 (b ++ bs) = b.
Proof.
  intros Hb. unfold field_at. simpl skipn.
  rewrite firstn_app, Hb, Nat.sub_diag. rewrite firstn_O, app_nil_r, <- Hb.
  apply firstn_all.
Qed.

Lemma field_at_S i (b bs : list byte) :
  List.length b = 4%nat -> field_at (S i) (b ++ bs) = field_at i bs.
Proof.
  intros Hb. unfold field_at.
  replace (4 * S i)%nat with (List.length b + 4 * i)%nat by lia.
  now rewrite skipn_app, skipn_all2, Nat.add_comm, Nat.add_sub by lia.
Qed.

(** The [i]-th field of a packed record is the image of the [i]-th value
    under the [i]-th code. *)
Lemma pack_fields_field_at codes values bs i c v :
  pack_fields codes values = Ok bs ->
  nth_error codes i = Some c ->
  nth_error values i = Some v ->
  pack_field c v = Ok (field_at i bs).
Proof.
  revert values bs i.
  induction codes as [| c0 codes IH]; intros [| v0 values] bs i; simpl;
    try discriminate.
  - destruct i; discriminate.
  - intros H Hc Hv. apply bind_ok in H as (b & Hb & H).
    apply bind_ok in H as (bs' & Hbs & H). injection H as <-.
    pose proof (length_pack_field _ _ _ Hb) as Hlen.
    destruct i as [| i]; simpl in Hc, Hv.
    + injection Hc as <-. injection Hv as <-. now rewrite field_at_0.
    + rewrite field_at_S by assumption. eauto.
Qed.

(** Replacing one value by another that its code accepts keeps the record
    packable. *)
Lemma pack_fields_total codes values :
  Forall2 (fun c v => is_ok (pack_field c v) = true) codes values ->
  is_ok (pack_fields codes values) = true.
Proof.
  induction 1 as [| c v codes values Hcv _ IH]; simpl; [reflexivity |].
  destruct (pack_field c v); [| discriminate]. simpl.
  destruct (pack_fields codes values); [reflexivity | discriminate].
Qed.

Lemma pack_fields_each codes values bs :
  pack_fields codes values = Ok bs ->
  Forall2 (fun c v => is_ok (pack_field c v) = true) codes values.
Proof.
  revert values bs.
  induction codes as [| c codes IH]; intros [| v values] bs; simpl;
    try discriminate; [constructor |].
  intros H. apply bind_ok in H as (b & Hb & H).
  apply bind_ok in H as (bs' & Hbs & H).
  constructor; [now rewrite Hb | eauto].
Qed.

End StructFacts.

(** ** The merge loop of [write] *)

Lemma dict_set_in {V : Type} (k k' : string) (v x : V) (d : dict V) :
  In (k, v) (dict_set k' x d) -> (k = k' /\ v = x) \/ In (k, v) d.
Proof.
  induction d as [| [k0 v0] d IH]; simpl.
  - intros [H | []]. injection H as <- <-. auto.
  - destruct (String.eqb_spec k' k0) as [-> | Hne]; simpl.
    + intros [H | H]; [injection H as <- <-; auto | auto].
    + intros [H | H]; [auto | destruct (IH H); auto].
Qed.

Lemma set_state_same self :
  set_gtnet_skt_state self (gtnet_skt_state self) = self.
Proof. now destruct self. Qed.

Lemma set_state_twice self a b :
  set_gtnet_skt_state (set_gtnet_skt_state self a) b = set_gtnet_skt_state self b.
Proof. reflexivity. Qed.

Lemma typecast_well_typed typ val x :
  typecast typ val = Ok x -> well_typed typ x = true.
Proof.
  unfold typecast, well_typed. destruct (String.eqb typ "int"); intros H;
    apply bind_ok in H as (y & _ & H); injection H as <-; reflexivity.
Qed.

Lemma typecast_warning_spec tag typ val e :
  In e (typecast_warning tag typ val) <->
  e = LogWarning tag (type_name val) typ
  /\ isinstance_str val = false /\ type_name val <> typ.
Proof.
  unfold typecast_warning.
  destruct (isinstance_str val); simpl.
  - split; [tauto | intros (_ & H & _); discriminate].
  - destruct (String.eqb_spec (type_name val) typ) as [Heq | Hne]; simpl.
    + split; [tauto | intros (_ & _ & H); contradiction].
    + split; [intros [<- | []]; auto | intros (-> & _); auto].
Qed.

(** What the loop can change: the state dict only, slot by slot, keeping its
    keys and their order; slots of tags that are not in the request keep
    their value, also when the loop raises. *)
Lemma update_state_frame tags : forall self self' evs r,
  update_state self tags = (self', evs, r) ->
  exists st',
    self' = set_gtnet_skt_state self st'
    /\ dict_keys st' = dict_keys (gtnet_skt_state self)
    /\ (forall k, ~ In k (dict_keys tags) ->
          dict_get k st' = dict_get k (gtnet_skt_state self))
    /\ (forall k v, In (k, v) st' ->
          In (k, v) (gtnet_skt_state self)
          \/ exists typ, dict_get k (gtnet_skt_tags self) = Some typ
                         /\ well_typed typ v = true)
    /\ (forall p, ~ In (Sent p) evs) /\ (forall p, ~ In (SendFailed p) evs)
    /\ (forall m, ~ In (LogError m) evs).
Proof.
  induction tags as [| [tag val] rest IH]; simpl; intros self self' evs r H.
  - injection H as <- <- <-. exists (gtnet_skt_state self).
    rewrite set_state_same. repeat split; auto.
  - destruct (dict_get tag (gtnet_skt_tags self)) as [typ |] eqn:Etyp.
    2:{ injection H as <- <- <-. exists (gtnet_skt_state self).
        rewrite set_state_same. repeat split; auto. }
    assert (forall e, In e (typecast_warning tag typ val) ->
                      exists a b c, e = LogWarning a b c) as Hw.
    { intros e He. apply typecast_warning_spec in He as (-> & _). eauto. }
    assert ((forall p, ~ In (Sent p) (typecast_warning tag typ val))
            /\ (forall p, ~ In (SendFailed p) (typecast_warning tag typ val))
            /\ (forall m, ~ In (LogError m) (typecast_warning tag typ val)))
      as (Hw1 & Hw2 & Hw3).
    { repeat split; intros p Hp; destruct (Hw _ Hp) as (a & b & c & E);
        discriminate. }
    destruct (typecast typ (normalize_bool val)) as [x |] eqn:Ecast.
    2:{ injection H as <- <- <-. exists (gtnet_skt_state self).
        rewrite set_state_same. repeat split; auto. }
    destruct (dict_get tag (gtnet_skt_state self)) as [prev |] eqn:Eprev.
    2:{ injection H as <- <- <-. exists (gtnet_skt_state self).
        rewrite set_state_same. repeat split; auto. }
    destruct (update_state _ rest) as [[self2 evs2] r2] eqn:Erest.
    injection H as <- <- <-.
    apply IH in Erest as (st' & -> & Hkeys & Hget & Htyped & Hs1 & Hs2 & Hs3).
    simpl in *. exists st'. rewrite set_state_twice.
    split; [reflexivity |]. split.
    { rewrite Hkeys. apply dict_keys_set_mem. eapply dict_get_mem; eauto. }
    split.
    { intros k Hk. rewrite Hget by tauto. apply dict_get_set_other. intuition. }
    split.
    { intros k v Hin. destruct (Htyped k v Hin) as [Hold | Hnew]; [| auto].
      apply dict_set_in in Hold as [[-> ->] | Hold]; [right | auto].
      exists typ. split; [assumption |]. eapply typecast_well_typed; eauto. }
    repeat split; intros p Hp; apply in_app_or in Hp as [Hp | [Hp | Hp]];
      try discriminate; firstorder.
Qed.

(** When the loop ends normally every value was cast and assigned. *)
Lemma update_state_ok tags : forall self self' evs,
  update_state self tags = (self', evs, Ok tt) ->
  exists xs,
    coerce_all (gtnet_skt_tags self) tags = Ok xs
    /\ self' = set_gtnet_skt_state self (dict_update (gtnet_skt_state self) xs).
Proof.
  induction tags as [| [tag val] rest IH]; simpl; intros self self' evs H.
  - injection H as <- <-. exists []. now rewrite set_state_same.
  - destruct (dict_get tag (gtnet_skt_tags self)) as [typ |]; [| discriminate].
    unfold coerce at 1.
    destruct (typecast typ (normalize_bool val)) as [x |]; [| discriminate].
    destruct (dict_get tag (gtnet_skt_state self)); [| discriminate].
    destruct (update_state _ rest) as [[self2 evs2] r2] eqn:Erest.
    injection H as <- <- ->.
    apply IH in Erest as (xs & Hxs & ->). simpl in *.
    rewrite Hxs. simpl. exists ((tag, x) :: xs). auto.
Qed.

(** Conversely the loop ends normally when every value can be cast and every
    tag has a slot. *)
Lemma update_state_total tags : forall self xs,
  coerce_all (gtnet_skt_tags self) tags = Ok xs ->
  (forall tag, In tag (dict_keys tags) ->
     dict_mem tag (gtnet_skt_state self) = true) ->
  exists evs,
    update_state self tags =
    (set_gtnet_skt_state self (dict_update (gtnet_skt_state self) xs), evs, Ok tt).
Proof.
  induction tags as [| [tag val] rest IH]; simpl; intros self xs H Hmem.
  - injection H as <-. exists []. now rewrite set_state_same.
  - destruct (dict_get tag (gtnet_skt_tags self)) as [typ |] eqn:Etyp;
      [| discriminate].
    apply bind_ok in H as (x & Hx & H). apply bind_ok in H as (xs' & Hxs & H).
    injection H as <-. unfold coerce in Hx. rewrite Hx.
    destruct (dict_mem_get tag (gtnet_skt_state self)) as (prev & ->); [auto |].
    destruct (IH (set_gtnet_skt_state self (dict_set tag x (gtnet_skt_state self))) xs')
      as (evs & ->); simpl.
    + assumption.
    + intros t Ht. apply dict_mem_in. rewrite dict_keys_set_mem.
      * apply dict_mem_in. auto.
      * auto.
    + eauto.
Qed.

Lemma coerce_all_keys declared tags xs :
  coerce_all declared tags = Ok xs -> dict_keys xs = dict_keys tags.
Proof.
  revert xs. induction tags as [| [tag val] rest IH]; simpl; intros xs H.
  - now injection H as <-.
  - destruct (dict_get tag declared); [| discriminate].
    apply bind_ok in H as (x & _ & H). apply bind_ok in H as (xs' & Hxs & H).
    injection H as <-. simpl. f_equal. auto.
Qed.

Lemma coerce_all_in declared tags xs tag x :
  coerce_all declared tags = Ok xs ->
  In (tag, x) xs <->
  exists val typ, In (tag, val) tags /\ dict_get tag declared = Some typ
                  /\ coerce typ val = Ok x.
Proof.
  revert xs. induction tags as [| [t val] rest IH]; simpl; intros xs H.
  - injection H as <-. simpl. split; [tauto | intros (? & ? & [] & _)].
  - destruct (dict_get t declared) as [typ |] eqn:Etyp; [| discriminate].
    apply bind_ok in H as (y & Hy & H). apply bind_ok in H as (xs' & Hxs & H).
    injection H as <-. simpl. rewrite (IH _ Hxs). split.
    + intros [Heq | (val' & typ' & Hin & Hd & Hc)].
      * injection Heq as -> ->. exists val, typ. auto.
      * exists val', typ'. auto.
    + intros (val' & typ' & [Heq | Hin] & Hd & Hc).
      * injection Heq as -> ->. left. congruence.
      * right. eauto.
Qed.

Lemma first_invalid_tag_none declared tags :
  first_invalid_tag declared tags = None <->
  (forall tag, In tag (dict_keys tags) -> dict_mem tag declared = true).
Proof.
  induction tags as [| [tag val] rest IH]; simpl.
  - split; [tauto | reflexivity].
  - destruct (dict_mem tag declared) eqn:E.
    + rewrite IH. split; [intros H t [<- | Ht]; auto | auto].
    + split; [discriminate | intros H]. specialize (H tag (or_introl eq_refl)).
      congruence.
Qed.

Lemma first_invalid_tag_some declared tags :
  (exists tag, In tag (dict_keys tags) /\ dict_mem tag declared = false) ->
  exists bad, first_invalid_tag declared tags = Some bad
              /\ dict_mem bad declared = false.
Proof.
  intros (tag & Hin & Hbad).
  destruct (first_invalid_tag declared tags) as [bad |] eqn:E.
  - exists bad. split; [reflexivity |].
    clear Hin Hbad. induction tags as [| [t v] rest IH]; simpl in E; [discriminate |].
    destruct (dict_mem t declared) eqn:Et; [auto | congruence].
  - rewrite first_invalid_tag_none in E. rewrite (E _ Hin) in Hbad. discriminate.
Qed.

(** ** What [__init__] establishes *)

Lemma existsb_eqb_mem {V : Type} (k : string) (d : dict V) :
  existsb (String.eqb k) (dict_keys d) = dict_mem k d.
Proof.
  unfold dict_mem. induction d as [| [k' v'] d IH]; simpl; [reflexivity |].
  destruct (String.eqb k k'); simpl; auto.
Qed.

Lemma dict_keys_set {V : Type} (k : string) (v : V) (d : dict V) :
  dict_keys (dict_set k v d) = keys_after (dict_keys d) [k].
Proof.
  unfold keys_after. simpl. rewrite existsb_eqb_mem.
  destruct (dict_mem k d) eqn:E.
  - now apply dict_keys_set_mem.
  - now apply dict_keys_set_new.
Qed.

Lemma keys_after_cons start k ks :
  keys_after start (k :: ks) = keys_after (keys_after start [k]) ks.
Proof. reflexivity. Qed.

Lemma dict_set_append {V : Type} (k : string) (v : V) (d : dict V) :
  dict_mem k d = false -> dict_set k v d = d ++ [(k, v)].
Proof.
  unfold dict_mem. induction d as [| [k' v'] d IH]; simpl; [reflexivity |].
  destruct (String.eqb k k'); [discriminate |]. intros H. now rewrite IH.
Qed.

Lemma dict_mem_app {V : Type} (k : string) (d1 d2 : dict V) :
  dict_mem k (d1 ++ d2) = (dict_mem k d1 || dict_mem k d2)%bool.
Proof.
  unfold dict_mem. induction d1 as [| [k' v'] d1 IH]; simpl; [reflexivity |].
  destruct (String.eqb k k'); auto.
Qed.

Lemma make_tags_keys (names types : list string) : forall d : dict string,
  dict_keys (fold_left (fun d nt => dict_set (fst nt) (snd nt) d)
                       (combine names types) d)
  = keys_after (dict_keys d) (map fst (combine names types)).
Proof.
  induction (combine names types) as [| [n t] l IH]; intros d; simpl; [reflexivity |].
  rewrite IH, dict_keys_set. reflexivity.
Qed.

Lemma fold_dict_set_nodup {V : Type} (l : list (string * V)) : forall d,
  NoDup (dict_keys d) -> 
  NoDup (dict_keys (fold_left (fun d nt => dict_set (fst nt) (snd nt) d) l d)).
Proof.
  induction l as [| [k v] l IH]; simpl; intros d Hd; [assumption |].
  apply IH. now apply dict_set_nodup.
Qed.

Lemma fold_dict_set_fresh {V : Type} (l : list (string * V)) : forall d,
  NoDup (dict_keys l) ->
  (forall k, In k (dict_keys l) -> dict_mem k d = false) ->
  fold_left (fun d nt => dict_set (fst nt) (snd nt) d) l d = d ++ l.
Proof.
  induction l as [| [k v] l IH]; simpl; intros d Hnd Hfresh.
  - now rewrite app_nil_r.
  - inversion Hnd as [| ? ? Hnotin Hnd']; subst.
    rewrite IH; auto.
    + rewrite dict_set_append by auto. now rewrite <- app_assoc.
    + intros k' Hk'. rewrite dict_set_append by auto.
      rewrite dict_mem_app, (Hfresh k') by auto. simpl.
      unfold dict_mem. simpl.
      destruct (String.eqb_spec k' k) as [-> | Hne]; [contradiction | reflexivity].
Qed.

Lemma string_app_assoc (a b c : string) :
  ((a ++ b) ++ c)%string = (a ++ (b ++ c))%string.
Proof. induction a as [| ch a IH]; simpl; [reflexivity | now rewrite IH]. Qed.

(** The keys of the seeded state, whatever the names are. *)
Lemma init_state_keys items : forall fmt st fmt' st',
  init_state items fmt st = Ok (fmt', st') ->
  dict_keys st' = keys_after (dict_keys st) (map cp_name items)
  /\ (NoDup (dict_keys st) -> NoDup (dict_keys st')).
Proof.
  induction items as [| [[name typ] val] rest IH]; intros fmt st fmt' st' H.
  - simpl in H. injection H as <- <-. auto.
  - simpl in H.
    change (map cp_name ((name, typ, val) :: rest)) with (name :: map cp_name rest).
    rewrite keys_after_cons.
    destruct (String.eqb typ "int").
    + apply bind_ok in H as (z & _ & H). apply IH in H as (-> & Hnd).
      split; [now rewrite dict_keys_set |].
      intros Hst. apply Hnd. now apply dict_set_nodup.
    + destruct (String.eqb typ "float"); [| discriminate].
      apply bind_ok in H as (f & _ & H). apply IH in H as (-> & Hnd).
      split; [now rewrite dict_keys_set |].
      intros Hst. apply Hnd. now apply dict_set_nodup.
Qed.

(** With distinct names the state is the list of the points, each with its
    initial value cast to its type, and the format has one code per point. *)
Lemma init_state_spec items : forall fmt st fmt' st',
  init_state items fmt st = Ok (fmt', st') ->
  NoDup (map cp_name items) ->
  (forall k, In k (map cp_name items) -> dict_mem k st = false) ->
  exists vals,
    Forall2 (fun p x => is_type_name (cp_type p) = true
                        /\ typecast (cp_type p) (PyStr (cp_initial p)) = Ok x)
            items vals
    /\ st' = st ++ combine (map cp_name items) vals
    /\ fmt' = (fmt ++ string_of_list_ascii (map (fun p => code_of (cp_type p)) items))%string.
Proof.
  induction items as [| [[name typ] val] rest IH]; intros fmt st fmt' st' H Hnd Hfresh.
  - simpl in H. injection H as <- <-. exists []. repeat split; [constructor | |].
    + now rewrite app_nil_r.
    + simpl. clear. induction fmt; simpl; congruence.
  - simpl in Hnd. inversion Hnd as [| ? ? Hnotin Hnd']; subst.
    assert (forall x fmt1,
      init_state rest fmt1 (dict_set name x st) = Ok (fmt', st') ->
      is_type_name typ = true -> typecast typ (PyStr val) = Ok x ->
      fmt1 = (fmt ++ String (code_of typ) EmptyString)%string ->
      exists vals,
        Forall2 (fun p x => is_type_name (cp_type p) = true
                            /\ typecast (cp_type p) (PyStr (cp_initial p)) = Ok x)
                ((name, typ, val) :: rest) vals
        /\ st' = st ++ combine (map cp_name ((name, typ, val) :: rest)) vals
        /\ fmt' = (fmt ++ string_of_list_ascii
                     (map (fun p => code_of (cp_type p)) ((name, typ, val) :: rest)))%string)
      as Hstep.
    { intros x fmt1 Hrest Hty Hcast ->.
      rewrite dict_set_append in Hrest by (apply Hfresh; now left).
      apply IH in Hrest as (vals & Hall & -> & ->); [| assumption |].
      - exists (x :: vals). split; [constructor; auto |].
        simpl. rewrite <- app_assoc, string_app_assoc. auto.
      - intros k Hk. rewrite dict_mem_app, Hfresh by (now right). simpl.
        unfold dict_mem. simpl.
        destruct (String.eqb_spec k name) as [-> | Hne]; [contradiction | reflexivity]. }
    simpl in H.
    destruct (String.eqb typ "int") eqn:Eint.
    + apply bind_ok in H as (z & Hz & H).
      apply (Hstep (PyInt z) _ H).
      * unfold is_type_name. now rewrite Eint.
      * unfold typecast. rewrite Eint. change (Builtins.int (PyStr val) = Ok z) in Hz.
        now rewrite Hz.
      * unfold code_of. now rewrite Eint.
    + destruct (String.eqb typ "float") eqn:Efl; [| discriminate].
      apply bind_ok in H as (f & Hf & H).
      apply (Hstep (PyFloat f) _ H).
      * unfold is_type_name. now rewrite Eint, Efl.
      * unfold typecast. rewrite Eint. change (Builtins.float (PyStr val) = Ok f) in Hf.
        now rewrite Hf.
      * unfold code_of. now rewrite Eint.
Qed.

(** ** Invariants of a run *)

Lemma map_fst_combine {A B : Type} (l1 : list A) : forall l2 : list B,
  (List.length l1 <= List.length l2)%nat -> map fst (combine l1 l2) = l1.
Proof.
  induction l1 as [| a l1 IH]; intros [| b l2]; simpl; intros H;
    [reflexivity | reflexivity | lia | f_equal; apply IH; lia].
Qed.

Lemma in_map_fst_combine {A B : Type} (a : A) (l1 : list A) : forall l2 : list B,
  In a (map fst (combine l1 l2)) -> In a l1.
Proof.
  induction l1 as [| x l1 IH]; intros [| b l2]; simpl; try tauto.
  intros [H | H]; eauto.
Qed.

Lemma nodup_map_fst_combine {A B : Type} (l1 : list A) : forall l2 : list B,
  NoDup l1 -> NoDup (map fst (combine l1 l2)).
Proof.
  induction l1 as [| x l1 IH]; intros [| b l2] Hnd; simpl; try constructor.
  - inversion Hnd; subst. intros Hin. apply in_map_fst_combine in Hin. contradiction.
  - inversion Hnd; subst. auto.
Qed.

(** When the checks of [__init__] pass, the names of the control points are
    the keys [gtnet_skt_tags] is built from. *)
Lemma validated_points c :
  validate_gtnet_skt c = true ->
  map fst (control_points c)
  = combine (conf_gtnet_skt_tag_names c) (conf_gtnet_skt_tag_types c).
Proof.
  unfold validate_gtnet_skt, control_points, zip3.
  destruct (conf_gtnet_skt_tag_types c) as [| t ts] eqn:Et.
  - intros _. now rewrite combine_nil.
  - intros H. repeat (apply andb_prop in H as [H ?]).
    apply map_fst_combine. rewrite length_combine.
    repeat match goal with
           | E : Nat.eqb _ _ = true |- _ => apply Nat.eqb_eq in E
           end. lia.
Qed.

Lemma points_names_types c :
  map (fun p => (cp_name p, cp_type p)) (control_points c) = map fst (control_points c).
Proof. apply map_ext. now intros [[n t] v]. Qed.

Lemma cp_names_fst c :
  map cp_name (control_points c) = map fst (map fst (control_points c)).
Proof. now rewrite map_map. Qed.

Lemma forall2_combine_in (P : string * string * string -> pyval -> Prop)
    items vals k v :
  Forall2 P items vals ->
  In (k, v) (combine (map cp_name items) vals) ->
  exists p, In p items /\ cp_name p = k /\ P p v.
Proof.
  induction 1 as [| p x items vals Hp _ IH]; simpl; [tauto |].
  intros [H | H].
  - injection H as <- <-. eauto.
  - destruct (IH H) as (q & ? & ? & ?). eauto.
Qed.

Lemma init_unfold c self :
  __init__ c = Ok self ->
  validate_gtnet_skt c = true
  /\ exists fmt st,
       init_state (control_points c) "!" [] = Ok (fmt, st)
       /\ gtnet_skt_tags self
          = make_gtnet_skt_tags (conf_gtnet_skt_tag_names c) (conf_gtnet_skt_tag_types c)
       /\ struct_format_string self = fmt
       /\ gtnet_skt_state self = st
       /\ current_values self = dict_update [] st.
Proof.
  unfold __init__. destruct (validate_gtnet_skt c); simpl; [| discriminate].
  intros H. apply bind_ok in H as ([fmt st] & Hinit & H). injection H as <-.
  split; [reflexivity |]. exists fmt, st. simpl. auto.
Qed.

Lemma init_consistent c self :
  __init__ c = Ok self -> consistent self.
Proof.
  intros H. apply init_unfold in H as (Hv & fmt & st & Hinit & Htags & _ & Hst & Hcv).
  apply init_state_keys in Hinit as (Hkeys & Hnd).
  assert (NoDup (dict_keys st)) as Hnd' by (apply Hnd; constructor).
  split.
  - rewrite Hst, Htags, Hkeys. unfold make_gtnet_skt_tags.
    rewrite make_tags_keys, cp_names_fst, validated_points by assumption.
    reflexivity.
  - rewrite Htags. apply fold_dict_set_nodup. constructor.
  - rewrite Hst, Hcv. intros k Hk. apply dict_mem_in. unfold dict_mem.
    rewrite dict_update_get by assumption.
    apply dict_mem_in in Hk. unfold dict_mem in Hk.
    destruct (dict_get k st); [reflexivity | discriminate].
Qed.

Lemma init_aligned c self :
  __init__ c = Ok self ->
  NoDup (conf_gtnet_skt_tag_names c) ->
  aligned c self
  /\ exists vals,
       Forall2 (fun p x => typecast (cp_type p) (PyStr (cp_initial p)) = Ok x)
               (control_points c) vals
       /\ gtnet_skt_state self = combine (map cp_name (control_points c)) vals.
Proof.
  intros H Hnames.
  apply init_unfold in H as (Hv & fmt & st & Hinit & Htags & Hfmt & Hst & Hcv).
  assert (NoDup (map cp_name (control_points c))) as Hnd.
  { rewrite cp_names_fst, validated_points by assumption.
    now apply nodup_map_fst_combine. }
  assert (gtnet_skt_tags self
          = map (fun p => (cp_name p, cp_type p)) (control_points c)) as Htags'.
  { rewrite Htags, points_names_types, validated_points by assumption.
    unfold make_gtnet_skt_tags. rewrite fold_dict_set_fresh; [reflexivity | | reflexivity].
    now apply nodup_map_fst_combine. }
  apply init_state_spec in Hinit as (vals & Hall & Hst' & Hfmt'); [| assumption | reflexivity].
  simpl in Hst', Hfmt'. subst st fmt.
  split.
  - split.
    + assumption.
    + assumption.
    + clear - Hall. induction Hall as [| p x items vals [Hp _] _ IH]; constructor; auto.
    + intros k v Hin. rewrite Hst in Hin.
      destruct (forall2_combine_in _ _ _ _ _ Hall Hin) as (p & Hp & <- & _ & Hcast).
      exists (cp_type p). split; [| eapply typecast_well_typed; eauto].
      rewrite Htags'. apply dict_get_in_nodup.
      * unfold dict_keys. rewrite map_map. exact Hnd.
      * apply in_map_iff. exists p. auto.
  - exists vals. split; [| assumption].
    clear - Hall. induction Hall as [| p x items vals [_ Hp] _ IH]; constructor; auto.
Qed.

(** What a call of [write] can change, whatever its outcome. *)
Lemma write_effect failures self tags self' evs r :
  write failures self tags = (self', evs, r) ->
  gtnet_skt_tags self' = gtnet_skt_tags self
  /\ struct_format_string self' = struct_format_string self
  /\ dict_keys (gtnet_skt_state self') = dict_keys (gtnet_skt_state self)
  /\ (forall k, ~ In k (dict_keys tags) ->
        dict_get k (gtnet_skt_state self') = dict_get k (gtnet_skt_state self))
  /\ (forall k v, In (k, v) (gtnet_skt_state self') ->
        In (k, v) (gtnet_skt_state self)
        \/ exists typ, dict_get k (gtnet_skt_tags self) = Some typ
                       /\ well_typed typ v = true)
  /\ (current_values self' = current_values self
      \/ current_values self'
         = dict_update (current_values self) (gtnet_skt_state self')).
Proof.
  unfold write. destruct (dict_is_empty tags).
  { intros H. injection H as <- <- <-. repeat split; auto. }
  destruct (first_invalid_tag (gtnet_skt_tags self) tags).
  { intros H. injection H as <- <- <-. repeat split; auto. }
  destruct (update_state self tags) as [[self1 evs1] r1] eqn:Eup.
  apply update_state_frame in Eup as (st' & -> & Hkeys & Hget & Htyped & _).
  destruct r1 as [u | e].
  2:{ intros H. injection H as <- <- <-. simpl. repeat split; auto. }
  destruct (Struct.pack _ _).
  2:{ intros H. injection H as <- <- <-. simpl. repeat split; auto. }
  intros H. injection H as <- <- <-. simpl. repeat split; auto.
Qed.

Lemma write_consistent failures self tags :
  consistent self -> consistent (fst (fst (write failures self tags))).
Proof.
  intros [Hk Hnd Hs].
  destruct (write failures self tags) as [[self' evs] r] eqn:E. simpl.
  apply write_effect in E as (Htags & _ & Hkeys & _ & _ & Hcv).
  split.
  - now rewrite Htags, Hkeys.
  - now rewrite Htags.
  - intros k Hin. destruct Hcv as [-> | ->].
    + apply Hs. now rewrite <- Hkeys.
    + apply dict_mem_in. unfold dict_mem. rewrite dict_update_get.
      * apply dict_mem_in in Hin. unfold dict_mem in Hin.
        destruct (dict_get k (gtnet_skt_state self')); [reflexivity | discriminate].
      * now rewrite Hkeys, Hk.
Qed.

Lemma reachable_consistent c self :
  reachable c self -> consistent self.
Proof.
  induction 1 as [self H | self failures tags _ IH | self tag val _ IH].
  - eapply init_consistent; eauto.
  - now apply write_consistent.
  - destruct IH as [Hk Hnd Hs]. split; simpl; auto.
    intros k Hin. apply dict_set_keeps_keys. auto.
Qed.

Lemma reachable_aligned c self :
  NoDup (conf_gtnet_skt_tag_names c) -> reachable c self -> aligned c self.
Proof.
  intros Hnames.
  induction 1 as [self H | self failures tags _ IH | self tag val _ IH].
  - now apply init_aligned.
  - destruct IH as [Htags Hfmt Htypes Htyped].
    destruct (write failures self tags) as [[self' evs] r] eqn:E. simpl.
    apply write_effect in E as (Ht & Hf & _ & _ & Hty & _).
    split.
    + now rewrite Ht.
    + now rewrite Hf.
    + assumption.
    + intros k v Hin. rewrite Ht. destruct (Hty k v Hin); auto.
  - destruct IH as [Htags Hfmt Htypes Htyped]. split; auto.
Qed.

(** A run never empties the tag store, and never removes a key from it. *)
Lemma reachable_store_grows c self0 :
  reachable c self0 ->
  forall k, In k (dict_keys (gtnet_skt_tags self0)) ->
            In k (dict_keys (current_values self0)).
Proof.
  intros H k Hk. destruct (reachable_consistent _ _ H) as [Hkeys _ Hs].
  apply Hs. now rewrite Hkeys.
Qed.

(** ** The paths through [write] *)

Lemma write_path_holds failures self tags :
  write_path failures self tags (write failures self tags).
Proof.
  unfold write. destruct tags as [| kv rest] eqn:Etags.
  - now constructor.
  - rewrite <- Etags. replace (dict_is_empty tags) with false by now rewrite Etags.
    assert (tags <> []) as Hne by (rewrite Etags; discriminate).
    clear Etags.
    destruct (first_invalid_tag (gtnet_skt_tags self) tags) as [bad |] eqn:Eval.
    + now constructor.
    + destruct (update_state self tags) as [[self1 evs1] r1] eqn:Eup.
      destruct r1 as [[] | e].
      * destruct (Struct.pack _ _) as [payload | e] eqn:Epack.
        -- exact (path_sent failures self tags self1 evs1 payload Hne Eval Eup Epack).
        -- now apply path_pack_raises.
      * now apply path_cast_raises.
Qed.

Lemma send_loop_sent failures payload :
  sent_payloads (send_loop failures payload) = [payload].
Proof. induction failures as [| k IH]; simpl; auto. Qed.

Lemma send_loop_in failures payload e :
  In e (send_loop failures payload) ->
  e = Sent payload \/ e = SendFailed payload \/ e = SocketInit.
Proof.
  induction failures as [| k IH]; simpl; intros H.
  - destruct H as [<- | []]. auto.
  - destruct H as [<- | [<- | H]]; auto.
Qed.

Lemma sent_payloads_app evs1 evs2 :
  sent_payloads (evs1 ++ evs2) = sent_payloads evs1 ++ sent_payloads evs2.
Proof. unfold sent_payloads. apply flat_map_app. Qed.

Lemma sent_payloads_none evs :
  (forall p, ~ In (Sent p) evs) -> sent_payloads evs = [].
Proof.
  induction evs as [| e evs IH]; simpl; intros H; [reflexivity |].
  destruct e; simpl; try (apply IH; intros p Hp; apply (H p); now right).
  exfalso. apply (H payload). now left.
Qed.

Lemma sent_payloads_in evs p :
  In p (sent_payloads evs) <-> In (Sent p) evs.
Proof.
  unfold sent_payloads. rewrite in_flat_map. split.
  - intros (e & He & Hp). destruct e; simpl in Hp; try tauto.
    destruct Hp as [<- | []]. assumption.
  - intros H. exists (Sent p). simpl. auto.
Qed.

Lemma prefix_err_invalid bad :
  String.prefix "ERR=" ("ERR=Invalid tag name '" ++ bad ++ "' for write to RTDS") = true.
Proof. reflexivity. Qed.

(** The traffic of a call: nothing unless the record was packed, and then
    the one payload, after any number of failed attempts with the same one. *)
Lemma write_traffic failures self tags self' evs r :
  write failures self tags = (self', evs, r) ->
  (sent_payloads evs = [] /\ (forall p, ~ In (SendFailed p) evs)
   /\ (forall msg, r = Ok msg -> String.prefix "ERR=" msg = true))
  \/ (exists payload,
        Struct.pack (struct_format_string self') (dict_values (gtnet_skt_state self'))
        = Ok payload
        /\ sent_payloads evs = [payload]
        /\ (forall p, In (SendFailed p) evs -> p = payload)
        /\ r = Ok (ACK_wrote (List.length tags))).
Proof.
  intros E. pose proof (write_path_holds failures self tags) as P. rewrite E in P.
  inversion P as [Ht | bad Hb | self1 evs1 e Hne Hv Hup | self1 evs1 e Hne Hv Hup Hp
                  | self1 evs1 payload Hne Hv Hup Hp]; subst.
  - left. repeat split; auto.
    + intros p [H | []]; discriminate.
    + intros msg H. now injection H as <-.
  - left. repeat split; auto.
    + intros p [H | []]; discriminate.
    + intros msg H. injection H as <-. apply prefix_err_invalid.
  - left. apply update_state_frame in Hup as (st' & _ & _ & _ & _ & Hs & Hf & _).
    repeat split; [now apply sent_payloads_none | assumption | discriminate].
  - left. apply update_state_frame in Hup as (st' & _ & _ & _ & _ & Hs & Hf & _).
    repeat split; [now apply sent_payloads_none | assumption | discriminate].
  - right. exists payload.
    apply update_state_frame in Hup as (st' & -> & _ & _ & _ & Hs & Hf & _).
    simpl in *. split; [assumption |]. split.
    + rewrite !sent_payloads_app, send_loop_sent, (sent_payloads_none _ Hs).
      now destruct (gtnet_socket self).
    + split; [| reflexivity]. intros p Hin.
      apply in_app_or in Hin as [Hin | Hin]; [now apply Hf in Hin |].
      apply in_app_or in Hin as [Hin | Hin].
      * destruct (gtnet_socket self); [destruct Hin |].
        destruct Hin as [Hin | []]; discriminate.
      * apply send_loop_in in Hin as [Hin | [Hin | Hin]]; congruence.
Qed.

(** ** Packing the state of a run *)

Lemma is_code_code_of typ : Struct.is_code (code_of typ) = true.
Proof. unfold code_of. now destruct (String.eqb typ "int"). Qed.

Lemma dict_get_nth {V : Type} (d : dict V) i k v :
  NoDup (dict_keys d) -> nth_error d i = Some (k, v) -> dict_get k d = Some v.
Proof.
  intros Hnd H. apply dict_get_in_nodup; [assumption |].
  eapply nth_error_In; eauto.
Qed.

Lemma dict_keys_points c :
  dict_keys (map (fun p => (cp_name p, cp_type p)) (control_points c))
  = map cp_name (control_points c).
Proof. unfold dict_keys. now rewrite map_map. Qed.

Lemma aligned_get c self p :
  aligned c self -> consistent self -> In p (control_points c) ->
  dict_get (cp_name p) (gtnet_skt_tags self) = Some (cp_type p).
Proof.
  intros [Htags _ _ _] [_ Hnd _] Hin. apply dict_get_in_nodup; [assumption |].
  rewrite Htags. apply in_map_iff. eauto.
Qed.

(** In a run with distinct names the format is ["!"] and then the code of
    each point, in the order of the keys of the state. *)
Lemma aligned_codes c self :
  aligned c self -> consistent self ->
  exists codes,
    struct_format_string self = String "!" (string_of_list_ascii codes)
    /\ codes = map (fun p => code_of (cp_type p)) (control_points c)
    /\ forallb Struct.is_code codes = true
    /\ List.length codes = List.length (gtnet_skt_state self)
    /\ codes_match (gtnet_skt_tags self) codes (dict_keys (gtnet_skt_state self)).
Proof.
  intros Hal Hco.
  pose proof (al_tags _ _ Hal) as Htags. pose proof (al_fmt _ _ Hal) as Hfmt.
  pose proof (cons_keys _ Hco) as Hkeys.
  exists (map (fun p => code_of (cp_type p)) (control_points c)).
  split; [assumption |]. split; [reflexivity |]. split.
  { apply forallb_forall. intros x Hx. apply in_map_iff in Hx as (p & <- & _).
    apply is_code_code_of. }
  assert (dict_keys (gtnet_skt_state self) = map cp_name (control_points c)) as Hk.
  { now rewrite Hkeys, Htags, dict_keys_points. }
  split.
  { rewrite length_map. unfold dict_keys in Hk.
    rewrite <- (length_map fst (gtnet_skt_state self)), Hk. now rewrite length_map. }
  unfold codes_match. rewrite Hk.
  pose proof (fun p => aligned_get c self p Hal Hco) as Hg.
  clear - Hg. induction (control_points c) as [| p ps IH]; simpl; constructor.
  - exists (cp_type p). split; [apply Hg; now left | reflexivity].
  - apply IH. intros q Hq. apply Hg. now right.
Qed.

Lemma pack_unfold codes values :
  forallb Struct.is_code codes = true ->
  List.length codes = List.length values ->
  Struct.pack (String "!" (string_of_list_ascii codes)) values
  = Struct.pack_fields codes values.
Proof.
  intros Hc Hl. unfold Struct.pack.
  rewrite list_ascii_of_string_of_list_ascii, Hc, Hl, Nat.eqb_refl. reflexivity.
Qed.

Lemma pack_fits_set declared codes tag typ x : forall st,
  codes_match declared codes (dict_keys st) ->
  Forall2 (fun c v => is_ok (Struct.pack_field c v) = true) codes (dict_values st) ->
  dict_mem tag st = true ->
  dict_get tag declared = Some typ ->
  is_ok (Struct.pack_field (code_of typ) x) = true ->
  Forall2 (fun c v => is_ok (Struct.pack_field c v) = true)
          codes (dict_values (dict_set tag x st)).
Proof.
  unfold codes_match.
  induction codes as [| c codes IH]; intros [| [k v] st] Hm Hf Hmem Hd Hx;
    try (inversion Hm; fail).
  - discriminate Hmem.
  - simpl in Hm, Hf. inversion Hm as [| ? ? ? ? (typ' & Hk & ->) Hm']; subst.
    inversion Hf as [| ? ? ? ? Hv Hf']; subst. simpl.
    unfold dict_mem in Hmem. simpl in Hmem.
    destruct (String.eqb_spec tag k) as [-> | Hne]; simpl.
    + constructor; [| assumption]. congruence.
    + constructor; [assumption | auto].
Qed.

Lemma pack_fits_update declared codes xs : forall st,
  codes_match declared codes (dict_keys st) ->
  Forall2 (fun c v => is_ok (Struct.pack_field c v) = true) codes (dict_values st) ->
  (forall tag x, In (tag, x) xs ->
     dict_mem tag st = true
     /\ exists typ, dict_get tag declared = Some typ
                    /\ is_ok (Struct.pack_field (code_of typ) x) = true) ->
  Forall2 (fun c v => is_ok (Struct.pack_field c v) = true)
          codes (dict_values (dict_update st xs)).
Proof.
  unfold dict_update.
  induction xs as [| [tag x] xs IH]; simpl; intros st Hm Hf Hxs; [assumption |].
  destruct (Hxs tag x (or_introl eq_refl)) as (Hmem & typ & Hd & Hx).
  apply IH.
  - now rewrite dict_keys_set_mem.
  - eapply pack_fits_set; eauto.
  - intros t y Hin. destruct (Hxs t y (or_intror Hin)) as (Hmem' & Hrest).
    split; [| assumption]. apply dict_mem_in. rewrite dict_keys_set_mem by assumption.
    now apply dict_mem_in.
Qed.

Lemma request_fits_coerce self tags :
  request_fits self tags ->
  exists xs,
    coerce_all (gtnet_skt_tags self) tags = Ok xs
    /\ forall tag x, In (tag, x) xs ->
         exists typ, dict_get tag (gtnet_skt_tags self) = Some typ
                     /\ is_ok (Struct.pack_field (code_of typ) x) = true.
Proof.
  unfold request_fits.
  induction tags as [| [tag val] rest IH]; intros Hfit.
  - exists []. split; [reflexivity | intros ? ? []].
  - destruct (Hfit tag val (or_introl eq_refl)) as (typ & Hd & Hf).
    destruct IH as (xs & Hxs & Hall); [intros t v Hin; apply Hfit; now right |].
    unfold fits in Hf. destruct (coerce typ val) as [x |] eqn:Ec; [| discriminate].
    exists ((tag, x) :: xs). simpl. rewrite Hd, Ec, Hxs. split; [reflexivity |].
    intros t y [H | H]; [injection H as <- <-; eauto | auto].
Qed.

Lemma all_declared_valid self tags :
  all_declared self tags <-> first_invalid_tag (gtnet_skt_tags self) tags = None.
Proof. symmetry. apply first_invalid_tag_none. Qed.

(** In a run, a request with declared tags and values that fit is merged,
    packed and sent. *)
Lemma write_total c self failures tags :
  reachable c self ->
  NoDup (conf_gtnet_skt_tag_names c) ->
  tags <> [] ->
  all_declared self tags ->
  packable self = true ->
  request_fits self tags ->
  exists self' evs, 
    write failures self tags = (self', evs, Ok (ACK_wrote (List.length tags))).
Proof.
  intros Hr Hnames Hne Hdecl Hpack Hfit.
  pose proof (reachable_consistent _ _ Hr) as Hco.
  pose proof (reachable_aligned _ _ Hnames Hr) as Hal.
  destruct (aligned_codes _ _ Hal Hco) as (codes & Hfmt & _ & Hcodes & Hlen & Hm).
  destruct (request_fits_coerce _ _ Hfit) as (xs & Hxs & Hall).
  destruct (update_state_total tags self xs Hxs) as (evs1 & Hup).
  { intros tag Hin. apply dict_mem_in. rewrite (cons_keys _ Hco).
    apply dict_mem_in. auto. }
  assert (Forall2 (fun c v => is_ok (Struct.pack_field c v) = true) codes
                  (dict_values (gtnet_skt_state self))) as Hold.
  { unfold packable in Hpack. rewrite Hfmt, pack_unfold in Hpack.
    - destruct (Struct.pack_fields codes _) eqn:E; [| discriminate].
      eapply StructFacts.pack_fields_each; eauto.
    - assumption.
    - unfold dict_values. now rewrite length_map. }
  assert (Forall2 (fun c v => is_ok (Struct.pack_field c v) = true) codes
                  (dict_values (dict_update (gtnet_skt_state self) xs))) as Hnew.
  { eapply pack_fits_update; eauto.
    intros tag x Hin. split; [| auto].
    apply dict_mem_in. rewrite (cons_keys _ Hco). apply dict_mem_in, Hdecl.
    rewrite <- (coerce_all_keys _ _ _ Hxs).
    unfold dict_keys. change tag with (fst (tag, x)). now apply in_map. }
  pose proof (write_path_holds failures self tags) as P.
  inversion P as [Ht | bad Hb | self1 evs0 e _ Hv Hup' | self1 evs0 e _ Hv Hup' Hp
                  | self1 evs0 payload _ Hv Hup' Hp].
  - contradiction.
  - apply all_declared_valid in Hdecl. congruence.
  - congruence.
  - exfalso. rewrite Hup in Hup'. injection Hup' as <- <-.
    simpl in Hp. rewrite Hfmt, pack_unfold in Hp.
    + apply StructFacts.pack_fields_total in Hnew. rewrite Hp in Hnew. discriminate.
    + assumption.
    + apply Forall2_length in Hnew. exact Hnew.
  - eauto.
Qed.

(** * Properties of the request handlers *)

Lemma write_parts failures self tags :
  write failures self tags
  = (after (write failures self tags), events (write failures self tags),
     reply (write failures self tags)).
Proof. now destruct (write failures self tags) as [[? ?] ?]. Qed.

(** A request with declared tags that is answered at all is acknowledged,
    and its payload went out. *)
Lemma write_ok_ack failures self tags msg :
  tags <> [] ->
  all_declared self tags ->
  reply (write failures self tags) = Ok msg ->
  msg = ACK_wrote (List.length tags)
  /\ exists payload, sent_payloads (events (write failures self tags)) = [payload].
Proof.
  intros Hne Hdecl Hmsg. apply all_declared_valid in Hdecl.
  pose proof (write_path_holds failures self tags) as P.
  remember (write failures self tags) as w eqn:Ew.
  destruct P as [Ht | bad Hb | self1 evs1 e _ Hv Hup | self1 evs1 e _ Hv Hup Hp
                 | self1 evs1 payload _ Hv Hup Hp].
  - contradiction.
  - congruence.
  - discriminate Hmsg.
  - discriminate Hmsg.
  - injection Hmsg as <-. split; [reflexivity |].
    symmetry in Ew.
    destruct (write_traffic _ _ _ _ _ _ Ew) as [(_ & _ & Herr) | (p & _ & Hs & _)].
    + discriminate (Herr _ eq_refl).
    + exists p. exact Hs.
Qed.

(** ** Length of the payload *)

(** C1. In a run of the provider, for every write request whose tags are all
    declared control points, every payload the call hands to the socket
    (sent, or attempted and retried) has exactly 4 bytes for each declared
    control point, however many tags the request names. A call that returns
    sent exactly one payload; and when the names are distinct, the current
    vector can be packed and every supplied value can be cast and packed,
    the call does return, with the acknowledgement. *)
Theorem write_payload_length c self failures tags :
  reachable c self ->
  tags <> [] ->
  all_declared self tags ->
  (forall payload,
      In (Sent payload) (events (write failures self tags))
      \/ In (SendFailed payload) (events (write failures self tags)) ->
      List.length payload = (4 * List.length (gtnet_skt_tags self))%nat)
  /\ (forall msg, reply (write failures self tags) = Ok msg ->
        exists payload, sent_payloads (events (write failures self tags)) = [payload])
  /\ (NoDup (conf_gtnet_skt_tag_names c) -> packable self = true ->
      request_fits self tags ->
      reply (write failures self tags) = Ok (ACK_wrote (List.length tags))).
Proof.
  intros Hr Hne Hdecl.
  pose proof (reachable_consistent _ _ Hr) as Hco.
  pose proof (write_parts failures self tags) as E.
  split; [| split].
  - intros payload Hin.
    pose proof (write_effect _ _ _ _ _ _ E) as (_ & _ & Hkeys & _).
    destruct (write_traffic _ _ _ _ _ _ E) as [(Hs & Hf & _) | (p & Hp & Hs & Hf & _)].
    + destruct Hin as [Hin | Hin]; [| now apply Hf in Hin].
      apply sent_payloads_in in Hin. rewrite Hs in Hin. destruct Hin.
    + assert (payload = p) as ->.
      { destruct Hin as [Hin | Hin]; [| auto].
        apply sent_payloads_in in Hin. rewrite Hs in Hin.
        destruct Hin as [<- | []]. reflexivity. }
      rewrite (StructFacts.length_pack _ _ _ Hp). f_equal.
      unfold dict_values. rewrite length_map.
      rewrite <- (length_map fst (gtnet_skt_state _)).
      change (map fst (gtnet_skt_state (after (write failures self tags))))
        with (dict_keys (gtnet_skt_state (after (write failures self tags)))).
      rewrite Hkeys, (cons_keys _ Hco). unfold dict_keys. now rewrite length_map.
  - intros msg Hmsg. now apply (write_ok_ack failures self tags msg).
  - intros Hnames Hpack Hfit.
    destruct (write_total c self failures tags) as (self' & evs & Hw); auto.
    unfold reply. now rewrite Hw.
Qed.

Lemma write_payload_length_witness :
  reachable sample_config sample_rtds
  /\ all_declared sample_rtds [("B", PyStr "2.75")]
  /\ request_fits sample_rtds [("B", PyStr "2.75")]
  /\ (forall payload,
        In (Sent payload) (events (write 1 sample_rtds [("B", PyStr "2.75")]))
        \/ In (SendFailed payload) (events (write 1 sample_rtds [("B", PyStr "2.75")])) ->
        List.length payload = 8%nat)
  /\ reply (write 1 sample_rtds [("B", PyStr "2.75")]) = Ok (ACK_wrote 1).
Proof.
  assert (reachable sample_config sample_rtds) as Hr
    by (apply reach_init; vm_compute; reflexivity).
  assert (all_declared sample_rtds [("B", PyStr "2.75")]) as Hd
    by (intros tag [<- | []]; reflexivity).
  assert (request_fits sample_rtds [("B", PyStr "2.75")]) as Hf.
  { intros tag val [H | []]. injection H as <- <-.
    exists "float". split; vm_compute; reflexivity. }
  assert ([("B", PyStr "2.75")] <> []) as Hne by discriminate.
  destruct (write_payload_length sample_config sample_rtds 1 _ Hr Hne Hd)
    as (Hlen & _ & Hack).
  split; [exact Hr |]. split; [exact Hd |]. split; [exact Hf |].
  split; [exact Hlen |].
  apply Hack; [| vm_compute; reflexivity | exact Hf].
  repeat constructor; simpl; intuition discriminate.
Defined.

(** ** Rejected requests *)

(** C3. For every write request with at least one tag that is not a declared
    control point, and for the empty request, [write] returns a message that
    starts with [ERR=], hands nothing to the socket and leaves the object as
    it was: the control point vector and the tag store are unchanged, and a
    read of any tag answers as before. *)
Theorem write_rejects_without_effect (float_repr : spec_float -> string)
    failures self tags :
  tags = [] \/ (exists tag, In tag (dict_keys tags)
                            /\ dict_mem tag (gtnet_skt_tags self) = false) ->
  (exists msg, write failures self tags = (self, [LogError msg], Ok msg)
               /\ String.prefix "ERR=" msg = true)
  /\ gtnet_skt_state (after (write failures self tags)) = gtnet_skt_state self
  /\ current_values (after (write failures self tags)) = current_values self
  /\ sent_payloads (events (write failures self tags)) = []
  /\ (forall p, ~ In (SendFailed p) (events (write failures self tags)))
  /\ (forall tag, read float_repr (after (write failures self tags)) tag
                  = read float_repr self tag).
Proof.
  intros H.
  assert (exists msg, write failures self tags = (self, [LogError msg], Ok msg)
                      /\ String.prefix "ERR=" msg = true) as (msg & Hw & Hp).
  { destruct H as [-> | Hbad].
    - eexists. split; reflexivity.
    - destruct (first_invalid_tag_some _ _ Hbad) as (bad & Hb & _).
      destruct Hbad as (tag & Hin & _).
      unfold write. destruct tags as [| kv rest]; [destruct Hin |].
      cbn [dict_is_empty]. rewrite Hb.
      eexists. split; [reflexivity | apply prefix_err_invalid]. }
  rewrite Hw. unfold after, events. simpl.
  repeat split; eauto. intros p [Hp' | []]. discriminate.
Qed.

Lemma write_rejects_without_effect_witness :
  (exists tag, In tag (dict_keys [("A", PyStr "7"); ("Z", PyStr "1")])
               /\ dict_mem tag (gtnet_skt_tags sample_rtds) = false)
  /\ write 0 sample_rtds [("A", PyStr "7"); ("Z", PyStr "1")]
     = (sample_rtds, [LogError "ERR=Invalid tag name 'Z' for write to RTDS"],
        Ok "ERR=Invalid tag name 'Z' for write to RTDS")
  /\ read sample_float_repr
          (after (write 0 sample_rtds [("A", PyStr "7"); ("Z", PyStr "1")])) "A"
     = Ok "ACK=false".
Proof.
  assert (exists tag, In tag (dict_keys [("A", PyStr "7"); ("Z", PyStr "1")])
                      /\ dict_mem tag (gtnet_skt_tags sample_rtds) = false) as Hbad.
  { exists "Z". split; [simpl; auto | reflexivity]. }
  destruct (write_rejects_without_effect sample_float_repr 0 sample_rtds _
              (or_intror Hbad)) as (_ & _ & _ & _ & _ & Hread).
  split; [assumption |]. split; [reflexivity |].
  rewrite Hread. reflexivity.
Defined.

(** ** Order and encoding of the fields *)

Lemma map_snd_combine {A B : Type} (l1 : list A) : forall l2 : list B,
  (List.length l2 <= List.length l1)%nat -> map snd (combine l1 l2) = l2.
Proof.
  induction l1 as [| a l1 IH]; intros [| b l2]; simpl; intros H;
    [reflexivity | lia | reflexivity | f_equal; apply IH; lia].
Qed.

Lemma reachable_validated c self :
  reachable c self -> validate_gtnet_skt c = true.
Proof.
  induction 1 as [self H | |]; auto. now apply init_unfold in H as (Hv & _).
Qed.

(** When a point is declared at all, the points are the configured names and
    types, position by position. *)
Lemma validated_names_types c :
  validate_gtnet_skt c = true ->
  control_points c <> [] ->
  map cp_name (control_points c) = conf_gtnet_skt_tag_names c
  /\ map cp_type (control_points c) = conf_gtnet_skt_tag_types c.
Proof.
  intros Hv Hne.
  assert (map cp_name (control_points c) = map fst (map fst (control_points c))
          /\ map cp_type (control_points c) = map snd (map fst (control_points c)))
    as [-> ->] by (now rewrite !map_map).
  rewrite (validated_points c Hv).
  unfold validate_gtnet_skt in Hv. unfold control_points, zip3 in Hne.
  destruct (conf_gtnet_skt_tag_types c) as [| t ts] eqn:Et.
  - rewrite combine_nil in Hne. now destruct Hne.
  - repeat (apply andb_prop in Hv as [Hv ?]).
    repeat match goal with
           | E : Nat.eqb _ _ = true |- _ => apply Nat.eqb_eq in E
           end.
    split; [apply map_fst_combine | apply map_snd_combine]; lia.
Qed.

Lemma nth_error_keys {V : Type} (d : dict V) (ks : list string) i k :
  dict_keys d = ks -> nth_error ks i = Some k ->
  exists v, nth_error d i = Some (k, v).
Proof.
  intros <- H. unfold dict_keys in H. rewrite nth_error_map in H.
  destruct (nth_error d i) as [[k' v] |]; simpl in H; [| discriminate].
  injection H as ->. eauto.
Qed.

Lemma pack_field_encodes typ v bs :
  Struct.pack_field (code_of typ) v = Ok bs ->
  well_typed typ v = true ->
  encodes typ v bs.
Proof.
  unfold code_of, well_typed, encodes, Struct.pack_field.
  destruct (String.eqb typ "int"); simpl.
  - destruct v as [| b | z | f | s]; try discriminate. intros H _.
    apply StructFacts.pack_int32_ok in H as (Hrange & ->).
    exists z. repeat split; try tauto. now apply StructFacts.unpack_i_pack.
  - destruct v as [| b | z | f | s]; try discriminate. intros H _.
    apply StructFacts.pack_float32_ok in H as ->. eauto.
Qed.

(** Every payload of a run with distinct names is the sequence of the
    fields of the declared points, in their order, each the packed value of
    its slot after the merge. *)
Lemma write_payload_fields c self failures tags payload :
  reachable c self ->
  NoDup (conf_gtnet_skt_tag_names c) ->
  In (Sent payload) (events (write failures self tags)) ->
  forall i p, nth_error (control_points c) i = Some p ->
    exists v,
      dict_get (cp_name p) (gtnet_skt_state (after (write failures self tags))) = Some v
      /\ Struct.pack_field (code_of (cp_type p)) v = Ok (field_at i payload)
      /\ well_typed (cp_type p) v = true.
Proof.
  intros Hr Hnames Hsent i p Hp.
  assert (reachable c (after (write failures self tags))) as Hr'
    by (now apply reach_write).
  pose proof (reachable_consistent _ _ Hr') as Hco.
  pose proof (reachable_aligned _ _ Hnames Hr') as Hal.
  destruct (aligned_codes _ _ Hal Hco) as (codes & Hfmt & Hcodes & Hic & Hlen & _).
  pose proof (write_parts failures self tags) as E.
  destruct (write_traffic _ _ _ _ _ _ E) as [(Hs & _) | (p0 & Hpack & Hs & _)];
    apply sent_payloads_in in Hsent; rewrite Hs in Hsent; [destruct Hsent |].
  destruct Hsent as [-> | []].
  rewrite Hfmt, pack_unfold in Hpack;
    [| assumption | unfold dict_values; now rewrite length_map].
  assert (dict_keys (gtnet_skt_state (after (write failures self tags)))
          = map cp_name (control_points c)) as Hk.
  { now rewrite (cons_keys _ Hco), (al_tags _ _ Hal), dict_keys_points. }
  destruct (nth_error_keys _ _ i (cp_name p) Hk) as (v & Hv).
  { now rewrite nth_error_map, Hp. }
  exists v. split; [| split].
  - eapply dict_get_nth; [| eassumption].
    rewrite (cons_keys _ Hco). apply (cons_nodup _ Hco).
  - eapply StructFacts.pack_fields_field_at; [eassumption | |].
    + rewrite Hcodes, nth_error_map, Hp. reflexivity.
    + unfold dict_values. rewrite nth_error_map, Hv. reflexivity.
  - apply nth_error_In in Hv, Hp.
    destruct (al_typed _ _ Hal _ _ Hv) as (typ & Hget & Hty).
    rewrite (aligned_get _ _ _ Hal Hco Hp) in Hget. now injection Hget as <-.
Qed.

(** *** Requests that differ in the order of their keys *)

Lemma dict_get_none_keys {V : Type} (k : string) (d : dict V) :
  dict_get k d = None <-> ~ In k (dict_keys d).
Proof.
  rewrite <- dict_mem_in. unfold dict_mem.
  destruct (dict_get k d); split; intros H; congruence.
Qed.

Lemma dict_get_perm {V : Type} (k : string) (d d' : dict V) :
  Permutation d d' -> NoDup (dict_keys d) -> dict_get k d = dict_get k d'.
Proof.
  intros Hp Hnd.
  assert (NoDup (dict_keys d')) as Hnd'.
  { eapply Permutation_NoDup; [| exact Hnd]. now apply Permutation_map. }
  destruct (dict_get k d) as [v |] eqn:E.
  - symmetry. apply dict_get_in_nodup; [assumption |].
    eapply Permutation_in; [exact Hp |]. now apply dict_get_some_in.
  - symmetry. apply dict_get_none_keys. apply dict_get_none_keys in E.
    intros Hin. apply E. eapply Permutation_in; [| exact Hin].
    apply Permutation_map. now apply Permutation_sym.
Qed.

Lemma dict_update_keys {V : Type} (other : dict V) : forall d,
  (forall k, In k (dict_keys other) -> dict_mem k d = true) ->
  dict_keys (dict_update d other) = dict_keys d.
Proof.
  unfold dict_update.
  induction other as [| [k v] other IH]; simpl; intros d H; [reflexivity |].
  rewrite IH.
  - apply dict_keys_set_mem. auto.
  - intros k' Hk'. apply dict_mem_in. rewrite dict_keys_set_mem by auto.
    apply dict_mem_in. auto.
Qed.

Lemma dict_update_perm {V : Type} (d xs xs' : dict V) :
  Permutation xs xs' ->
  NoDup (dict_keys xs) ->
  NoDup (dict_keys d) ->
  (forall k, In k (dict_keys xs) -> dict_mem k d = true) ->
  dict_update d xs = dict_update d xs'.
Proof.
  intros Hp Hnd Hd Hmem.
  assert (NoDup (dict_keys xs')) as Hnd'.
  { eapply Permutation_NoDup; [| exact Hnd]. now apply Permutation_map. }
  assert (forall k, In k (dict_keys xs') -> dict_mem k d = true) as Hmem'.
  { intros k Hk. apply Hmem. eapply Permutation_in; [| exact Hk].
    apply Permutation_map. now apply Permutation_sym. }
  apply dict_ext.
  - now rewrite !dict_update_keys.
  - now rewrite dict_update_keys.
  - intros k _. rewrite !dict_update_get by assumption.
    now rewrite (dict_get_perm k xs xs').
Qed.

Lemma coerce_all_perm declared tags tags' :
  Permutation tags tags' ->
  forall xs, coerce_all declared tags = Ok xs ->
  exists xs', coerce_all declared tags' = Ok xs' /\ Permutation xs xs'.
Proof.
  induction 1 as [| [t v] l l' _ IH | [t1 v1] [t2 v2] l | l l' l'' _ IH1 _ IH2];
    intros xs H.
  - exists xs. auto.
  - simpl in *. destruct (dict_get t declared); [| discriminate].
    apply bind_ok in H as (x & Hx & H). apply bind_ok in H as (ys & Hys & H).
    injection H as <-. destruct (IH _ Hys) as (ys' & -> & Hperm).
    rewrite Hx. simpl. eauto.
  - simpl in *.
    destruct (dict_get t2 declared) as [ty2 |]; [| discriminate].
    apply bind_ok in H as (x2 & Hx2 & H). apply bind_ok in H as (ys & Hys & H).
    injection H as <-.
    destruct (dict_get t1 declared) as [ty1 |]; [| discriminate].
    apply bind_ok in Hys as (x1 & Hx1 & H). apply bind_ok in H as (zs & Hzs & H).
    injection H as <-.
    rewrite Hx1. simpl. rewrite Hx2, Hzs. simpl.
    eexists. split; [reflexivity | apply perm_swap].
  - destruct (IH1 _ H) as (ys & Hys & Hp1). destruct (IH2 _ Hys) as (zs & Hzs & Hp2).
    exists zs. split; [assumption | eapply perm_trans; eauto].
Qed.

(** A payload went out exactly when the request took the last path. *)
Lemma write_sent_inv failures self tags payload :
  In (Sent payload) (events (write failures self tags)) ->
  tags <> []
  /\ first_invalid_tag (gtnet_skt_tags self) tags = None
  /\ exists xs,
       coerce_all (gtnet_skt_tags self) tags = Ok xs
       /\ Struct.pack (struct_format_string self)
            (dict_values (dict_update (gtnet_skt_state self) xs)) = Ok payload
       /\ after (write failures self tags)
          = set_current_values
              (set_gtnet_socket
                 (set_gtnet_skt_state self (dict_update (gtnet_skt_state self) xs)) true)
              (dict_update (current_values self)
                           (dict_update (gtnet_skt_state self) xs)).
Proof.
  intros Hsent.
  pose proof (write_path_holds failures self tags) as P.
  remember (write failures self tags) as w eqn:Ew.
  destruct P as [Ht | bad Hb | self1 evs1 e Hne Hv Hup | self1 evs1 e Hne Hv Hup Hp
                 | self1 evs1 p Hne Hv Hup Hp]; unfold events in Hsent; simpl in Hsent.
  - destruct Hsent as [H | []]; discriminate.
  - destruct Hsent as [H | []]; discriminate.
  - apply update_state_frame in Hup as (_ & _ & _ & _ & _ & Hs & _). now apply Hs in Hsent.
  - apply update_state_frame in Hup as (_ & _ & _ & _ & _ & Hs & _). now apply Hs in Hsent.
  - split; [assumption |]. split; [assumption |].
    pose proof (update_state_frame _ _ _ _ _ Hup) as (_ & _ & _ & _ & _ & Hs & _).
    apply update_state_ok in Hup as (xs & Hxs & ->).
    exists xs. split; [assumption |]. simpl in *. split; [| reflexivity].
    apply in_app_or in Hsent as [Hsent | Hsent]; [now apply Hs in Hsent |].
    apply in_app_or in Hsent as [Hsent | Hsent].
    + destruct (gtnet_socket self); [destruct Hsent |].
      destruct Hsent as [H | []]; discriminate.
    + apply send_loop_in in Hsent as [H | [H | H]]; try discriminate.
      injection H as ->. assumption.
Qed.

Lemma write_sent_intro failures self tags xs payload :
  tags <> [] ->
  first_invalid_tag (gtnet_skt_tags self) tags = None ->
  (forall tag, In tag (dict_keys tags) -> dict_mem tag (gtnet_skt_state self) = true) ->
  coerce_all (gtnet_skt_tags self) tags = Ok xs ->
  Struct.pack (struct_format_string self)
    (dict_values (dict_update (gtnet_skt_state self) xs)) = Ok payload ->
  after (write failures self tags)
  = set_current_values
      (set_gtnet_socket
         (set_gtnet_skt_state self (dict_update (gtnet_skt_state self) xs)) true)
      (dict_update (current_values self) (dict_update (gtnet_skt_state self) xs))
  /\ sent_payloads (events (write failures self tags)) = [payload]
  /\ reply (write failures self tags) = Ok (ACK_wrote (List.length tags)).
Proof.
  intros Hne Hv Hmem Hxs Hpack.
  destruct (update_state_total tags self xs Hxs Hmem) as (evs1 & Hup).
  pose proof (write_path_holds failures self tags) as P.
  remember (write failures self tags) as w eqn:Ew.
  destruct P as [Ht | bad Hb | self1 evs0 e _ _ Hup' | self1 evs0 e _ _ Hup' Hp
                 | self1 evs0 p _ _ Hup' Hp]; try congruence.
  - rewrite Hup in Hup'. injection Hup' as <- <-. simpl in Hp. congruence.
  - rewrite Hup in Hup'. injection Hup' as <- <-. simpl in Hp.
    assert (p = payload) as -> by congruence.
    split; [reflexivity |]. split; [| reflexivity].
    symmetry in Ew.
    destruct (write_traffic _ _ _ _ _ _ Ew) as [(_ & _ & Herr) | (p0 & Hp0 & Hs & _)].
    + discriminate (Herr _ eq_refl).
    + simpl in Hp0. unfold events. cbn [fst snd]. rewrite Hs. congruence.
Qed.

(** The field of the [i]-th configured name, in any payload of a run. *)
Lemma payload_field_by_name c self failures tags payload i name :
  reachable c self ->
  NoDup (conf_gtnet_skt_tag_names c) ->
  In (Sent payload) (events (write failures self tags)) ->
  nth_error (conf_gtnet_skt_tag_names c) i = Some name ->
  exists typ v,
    nth_error (conf_gtnet_skt_tag_types c) i = Some typ
    /\ dict_get name (gtnet_skt_state (after (write failures self tags))) = Some v
    /\ encodes typ v (field_at i payload).
Proof.
  intros Hr Hnames Hsent Hname.
  pose proof (reachable_consistent _ _ Hr) as Hco.
  pose proof (reachable_aligned _ _ Hnames Hr) as Hal.
  destruct (write_sent_inv _ _ _ _ Hsent) as (Hne & Hv & _).
  assert (control_points c <> []) as Hcps.
  { intros Hnil. destruct tags as [| [t v] rest]; [contradiction |].
    rewrite first_invalid_tag_none in Hv.
    specialize (Hv t (or_introl eq_refl)).
    rewrite (al_tags _ _ Hal), Hnil in Hv. discriminate. }
  destruct (validated_names_types c (reachable_validated _ _ Hr) Hcps) as (Hn & Ht).
  rewrite <- Hn, nth_error_map in Hname.
  destruct (nth_error (control_points c) i) as [p |] eqn:Hp; [| discriminate].
  injection Hname as <-.
  destruct (write_payload_fields c self failures tags payload Hr Hnames Hsent i p Hp)
    as (v & Hget & Hpack & Hty).
  exists (cp_type p), v. split; [| split].
  - now rewrite <- Ht, nth_error_map, Hp.
  - assumption.
  - now apply pack_field_encodes.
Qed.

(** C2. In every payload [write] sends, the 4-byte fields come in the order
    in which the control points are configured ([gtnet-skt-tag-names]): the
    [i]-th field holds the slot of the [i]-th name, as a big-endian signed
    32-bit integer when the [i]-th type is [int] (it is read back from the
    field) and as the big-endian pattern of its binary32 rounding when it is
    [float]. Requests that differ only in the order of their keys yield the
    same object and the same payload. *)
Theorem write_payload_order c self failures tags payload :
  reachable c self ->
  NoDup (conf_gtnet_skt_tag_names c) ->
  NoDup (dict_keys tags) ->
  In (Sent payload) (events (write failures self tags)) ->
  List.length payload = (4 * List.length (conf_gtnet_skt_tag_names c))%nat
  /\ (forall i name, nth_error (conf_gtnet_skt_tag_names c) i = Some name ->
        exists typ v,
          nth_error (conf_gtnet_skt_tag_types c) i = Some typ
          /\ dict_get name (gtnet_skt_state (after (write failures self tags))) = Some v
          /\ encodes typ v (field_at i payload))
  /\ (forall tags', Permutation tags tags' ->
        after (write failures self tags') = after (write failures self tags)
        /\ sent_payloads (events (write failures self tags')) = [payload]).
Proof.
  intros Hr Hnames Hnd Hsent.
  pose proof (reachable_consistent _ _ Hr) as Hco.
  pose proof (reachable_aligned _ _ Hnames Hr) as Hal.
  destruct (write_sent_inv _ _ _ _ Hsent) as (Hne & Hv & xs & Hxs & Hpack & Hafter).
  assert (forall tag, In tag (dict_keys tags) ->
            dict_mem tag (gtnet_skt_state self) = true) as Hmem.
  { intros tag Hin. apply dict_mem_in. rewrite (cons_keys _ Hco).
    apply dict_mem_in. revert tag Hin. now apply first_invalid_tag_none. }
  split; [| split].
  - assert (control_points c <> []) as Hcps.
    { intros Hnil. destruct tags as [| [t v] rest]; [contradiction |].
      rewrite first_invalid_tag_none in Hv.
      specialize (Hv t (or_introl eq_refl)).
      rewrite (al_tags _ _ Hal), Hnil in Hv. discriminate. }
    destruct (validated_names_types c (reachable_validated _ _ Hr) Hcps) as (Hn & _).
    rewrite (StructFacts.length_pack _ _ _ Hpack). f_equal.
    unfold dict_values. rewrite length_map, <- (length_map fst).
    change (map fst (dict_update (gtnet_skt_state self) xs))
      with (dict_keys (dict_update (gtnet_skt_state self) xs)).
    rewrite dict_update_keys, (cons_keys _ Hco), (al_tags _ _ Hal), dict_keys_points, Hn.
    + reflexivity.
    + now rewrite (coerce_all_keys _ _ _ Hxs).
  - intros i name Hname. eapply payload_field_by_name; eauto.
  - intros tags' Hperm.
    assert (Permutation (dict_keys tags) (dict_keys tags')) as Hpk
      by (now apply Permutation_map).
    destruct (coerce_all_perm _ _ _ Hperm _ Hxs) as (xs' & Hxs' & Hpx).
    assert (dict_update (gtnet_skt_state self) xs
            = dict_update (gtnet_skt_state self) xs') as Hupd.
    { apply dict_update_perm; [assumption | | |].
      - now rewrite (coerce_all_keys _ _ _ Hxs).
      - rewrite (cons_keys _ Hco). apply (cons_nodup _ Hco).
      - now rewrite (coerce_all_keys _ _ _ Hxs). }
    destruct (write_sent_intro failures self tags' xs' payload) as (Ha & Hs & _).
    + intros ->. apply Permutation_sym, Permutation_nil in Hperm. contradiction.
    + apply first_invalid_tag_none. intros tag Hin.
      rewrite first_invalid_tag_none in Hv. apply Hv.
      eapply Permutation_in; [apply Permutation_sym; exact Hpk | exact Hin].
    + intros tag Hin. apply Hmem.
      eapply Permutation_in; [apply Permutation_sym; exact Hpk | exact Hin].
    + assumption.
    + now rewrite <- Hupd.
    + split; [| assumption]. rewrite Ha, Hafter, Hupd. reflexivity.
Qed.

Lemma write_payload_order_witness :
  In (Sent [x00; x00; x00; x07; x40; x30; x00; x00])
     (events (write 0 sample_rtds [("B", PyStr "2.75"); ("A", PyInt 7)]))
  /\ (exists typ v,
        nth_error ["int"; "float"] 1 = Some typ
        /\ dict_get "B" (gtnet_skt_state
                           (after (write 0 sample_rtds
                                     [("B", PyStr "2.75"); ("A", PyInt 7)]))) = Some v
        /\ encodes typ v (field_at 1 [x00; x00; x00; x07; x40; x30; x00; x00]))
  /\ sent_payloads (events (write 0 sample_rtds [("A", PyInt 7); ("B", PyStr "2.75")]))
     = [[x00; x00; x00; x07; x40; x30; x00; x00]].
Proof.
  assert (reachable sample_config sample_rtds) as Hr
    by (apply reach_init; vm_compute; reflexivity).
  assert (NoDup (conf_gtnet_skt_tag_names sample_config)) as Hn
    by (repeat constructor; simpl; intuition discriminate).
  assert (NoDup (dict_keys [("B", PyStr "2.75"); ("A", PyInt 7)])) as Hk
    by (repeat constructor; simpl; intuition discriminate).
  assert (In (Sent [x00; x00; x00; x07; x40; x30; x00; x00])
             (events (write 0 sample_rtds [("B", PyStr "2.75"); ("A", PyInt 7)])))
    as Hs by (vm_compute; auto).
  destruct (write_payload_order sample_config sample_rtds 0 _ _ Hr Hn Hk Hs)
    as (_ & Hfields & Hperm).
  split; [exact Hs |]. split.
  - apply (Hfields 1%nat "B"). reflexivity.
  - apply (Hperm [("A", PyInt 7); ("B", PyStr "2.75")]). apply perm_swap.
Defined.

(** ** Writes leave the other points alone *)

(** C4. A write leaves the slot of every control point it does not name as
    it was, whether it returns or raises; and in the payload it sends, the
    field of every configured point it does not name is the encoding of the
    value that slot held before the call: the value of the last write that
    named it, or the initial one. *)
Theorem write_keeps_other_points c self failures tags :
  reachable c self ->
  NoDup (conf_gtnet_skt_tag_names c) ->
  (forall name, ~ In name (dict_keys tags) ->
     dict_get name (gtnet_skt_state (after (write failures self tags)))
     = dict_get name (gtnet_skt_state self))
  /\ (forall payload i name,
        In (Sent payload) (events (write failures self tags)) ->
        nth_error (conf_gtnet_skt_tag_names c) i = Some name ->
        ~ In name (dict_keys tags) ->
        exists typ v,
          nth_error (conf_gtnet_skt_tag_types c) i = Some typ
          /\ dict_get name (gtnet_skt_state self) = Some v
          /\ encodes typ v (field_at i payload)).
Proof.
  intros Hr Hnames.
  pose proof (write_effect _ _ _ _ _ _ (write_parts failures self tags))
    as (_ & _ & _ & Hframe & _).
  split; [exact Hframe |].
  intros payload i name Hsent Hname Hnot.
  destruct (payload_field_by_name c self failures tags payload i name Hr Hnames Hsent Hname)
    as (typ & v & Htyp & Hget & Henc).
  exists typ, v. rewrite <- (Hframe name Hnot). auto.
Qed.

Lemma write_keeps_other_points_witness :
  dict_get "B" (gtnet_skt_state
                  (after (write 0 (after (write 0 sample_rtds [("B", PyStr "2.75")]))
                            [("A", PyStr "7")])))
  = Some (PyFloat f_2_75)
  /\ (forall payload,
        In (Sent payload)
           (events (write 0 (after (write 0 sample_rtds [("B", PyStr "2.75")]))
                      [("A", PyStr "7")])) ->
        field_at 1 payload = [x40; x30; x00; x00]).
Proof.
  assert (reachable sample_config (after (write 0 sample_rtds [("B", PyStr "2.75")])))
    as Hr by (apply reach_write, reach_init; vm_compute; reflexivity).
  assert (NoDup (conf_gtnet_skt_tag_names sample_config)) as Hn
    by (repeat constructor; simpl; intuition discriminate).
  destruct (write_keeps_other_points sample_config _ 0 [("A", PyStr "7")] Hr Hn)
    as (Hslot & Hfield).
  assert (~ In "B" (dict_keys [("A", PyStr "7")])) as Hnot
    by (simpl; intuition discriminate).
  split.
  - rewrite (Hslot "B" Hnot). vm_compute. reflexivity.
  - intros payload Hsent.
    destruct (Hfield payload 1%nat "B" Hsent eq_refl Hnot) as (typ & v & Htyp & Hget & Henc).
    injection Htyp as <-.
    assert (v = PyFloat f_2_75) as ->
      by (vm_compute in Hget; injection Hget as <-; reflexivity).
    destruct Henc as (f & Hf & ->). injection Hf as <-. vm_compute. reflexivity.
Defined.

(** The scenario of the provider's documentation: with [A] an [int] point
    starting at 0 and [B] a [float] point starting at 1.5, writing 2.75 to
    [B] sends A=0, B=2.75, and then writing 7 to [A] sends A=7, B=2.75. *)
Example scenario_packets :
  sent_payloads (events (write 0 sample_rtds [("B", PyStr "2.75")]))
  = [[x00; x00; x00; x00; x40; x30; x00; x00]]
  /\ sent_payloads
       (events (write 0 (after (write 0 sample_rtds [("B", PyStr "2.75")]))
                  [("A", PyStr "7")]))
     = [[x00; x00; x00; x07; x40; x30; x00; x00]]
  /\ Struct.unpack_i [x00; x00; x00; x07] = Some 7
  /\ Struct.be32 (Struct.bits_of_binary32 (Struct.to_binary32 f_2_75))
     = [x40; x30; x00; x00].
Proof. repeat split; vm_compute; reflexivity. Qed.

(** ** Coercion of the supplied values *)

Lemma coerce_false typ val :
  means_false val = true -> coerce typ val = Ok (stored_bool typ false).
Proof.
  unfold coerce, normalize_bool, typecast, stored_bool. intros ->.
  destruct (String.eqb typ "int"); vm_compute; reflexivity.
Qed.

Lemma coerce_true typ val :
  means_false val = false -> means_true val = true ->
  coerce typ val = Ok (stored_bool typ true).
Proof.
  unfold coerce, normalize_bool, typecast, stored_bool. intros -> ->.
  destruct (String.eqb typ "int"); vm_compute; reflexivity.
Qed.

Lemma coerce_other typ val :
  means_false val = false -> means_true val = false ->
  coerce typ val = typecast typ val.
Proof. unfold coerce, normalize_bool. now intros -> ->. Qed.

(** The warnings of a merge loop that ends normally: one for each value that
    is not a [str] and whose type name is not the declared one. *)
Lemma update_state_warnings tags : forall self self' evs tag a d,
  update_state self tags = (self', evs, Ok tt) ->
  In (LogWarning tag a d) evs <->
  exists val, In (tag, val) tags
              /\ dict_get tag (gtnet_skt_tags self) = Some d
              /\ a = type_name val
              /\ isinstance_str val = false
              /\ a <> d.
Proof.
  induction tags as [| [t v] rest IH]; simpl; intros self self' evs tag a d H.
  - injection H as <- <-. simpl. split; [tauto | intros (? & [] & _)].
  - destruct (dict_get t (gtnet_skt_tags self)) as [typ |] eqn:Etyp; [| discriminate].
    destruct (typecast typ (normalize_bool v)) as [x |]; [| discriminate].
    destruct (dict_get t (gtnet_skt_state self)) as [prev |]; [| discriminate].
    destruct (update_state _ rest) as [[self2 evs2] r2] eqn:Erest.
    injection H as <- <- ->.
    specialize (IH _ _ _ tag a d Erest). simpl in IH.
    rewrite in_app_iff. simpl. rewrite IH, typecast_warning_spec. split.
    + intros [(Heq & Hs & Hne) | [Hinfo | (val & Hin & Hrest)]].
      * injection Heq as -> -> ->. exists v. auto.
      * discriminate.
      * exists val. auto.
    + intros (val & [Heq | Hin] & Hd & -> & Hs & Hne).
      * injection Heq as <- <-. left. rewrite Etyp in Hd. injection Hd as <-. auto.
      * right. right. exists val. auto.
Qed.

(** The events of a call that sent its payload. *)
Lemma write_sent_events failures self tags msg :
  tags <> [] ->
  all_declared self tags ->
  reply (write failures self tags) = Ok msg ->
  exists self1 evs1 payload,
    update_state self tags = (self1, evs1, Ok tt)
    /\ events (write failures self tags)
       = evs1 ++ (if gtnet_socket self1 then [] else [SocketInit])
              ++ send_loop failures payload
    /\ gtnet_skt_state (after (write failures self tags)) = gtnet_skt_state self1.
Proof.
  intros Hne Hdecl Hmsg. apply all_declared_valid in Hdecl.
  pose proof (write_path_holds failures self tags) as P.
  remember (write failures self tags) as w eqn:Ew.
  destruct P as [Ht | bad Hb | self1 evs1 e _ Hv Hup | self1 evs1 e _ Hv Hup Hp
                 | self1 evs1 payload _ Hv Hup Hp].
  - contradiction.
  - congruence.
  - discriminate Hmsg.
  - discriminate Hmsg.
  - exists self1, evs1, payload. auto.
Qed.

(** C5, as the code has it. For every value of an accepted write request
    that is answered: boolean false and the text "false" in any case are
    stored as 0, boolean true and the text "true" in any case as 1 (as an
    [int] or a [float], by the declared type), and any other value is cast
    to the declared type with [int()] or [float()]. A value that is not text
    and whose type name is not the declared one produces a warning record;
    a text value produces none, whatever the declared type. No error record
    is written and the answer is the acknowledgement. *)
Theorem write_coerces_values c self failures tags msg :
  reachable c self ->
  tags <> [] ->
  all_declared self tags ->
  NoDup (dict_keys tags) ->
  reply (write failures self tags) = Ok msg ->
  (forall tag val, In (tag, val) tags ->
     exists typ x,
       dict_get tag (gtnet_skt_tags self) = Some typ
       /\ coerce typ val = Ok x
       /\ dict_get tag (gtnet_skt_state (after (write failures self tags))) = Some x
       /\ (means_false val = true -> x = stored_bool typ false)
       /\ (means_false val = false -> means_true val = true ->
           x = stored_bool typ true)
       /\ (means_false val = false -> means_true val = false ->
           typecast typ val = Ok x))
  /\ (forall tag a d,
        In (LogWarning tag a d) (events (write failures self tags)) <->
        exists val, In (tag, val) tags
                    /\ dict_get tag (gtnet_skt_tags self) = Some d
                    /\ a = type_name val
                    /\ isinstance_str val = false
                    /\ a <> d)
  /\ (forall m, ~ In (LogError m) (events (write failures self tags)))
  /\ msg = ACK_wrote (List.length tags).
Proof.
  intros Hr Hne Hdecl Hnd Hmsg.
  pose proof (reachable_consistent _ _ Hr) as Hco.
  destruct (write_sent_events _ _ _ _ Hne Hdecl Hmsg)
    as (self1 & evs1 & payload & Hup & Hev & Hst).
  pose proof (update_state_frame _ _ _ _ _ Hup) as (_ & _ & _ & _ & _ & _ & _ & Hnoerr).
  pose proof (update_state_ok _ _ _ _ Hup) as (xs & Hxs & Hself1).
  split; [| split; [| split]].
  - intros tag val Hin.
    assert (In tag (dict_keys tags)) as Hk.
    { unfold dict_keys. change tag with (fst (tag, val)). now apply in_map. }
    destruct (dict_mem_get _ _ (Hdecl tag Hk)) as (typ & Htyp).
    destruct (coerce typ val) as [x |] eqn:Ec.
    2:{ exfalso. clear - Hxs Hin Htyp Ec.
        revert xs Hxs. induction tags as [| [t v] rest IH]; [destruct Hin |].
        simpl. intros xs Hxs. destruct (dict_get t (gtnet_skt_tags self)) eqn:Et;
          [| discriminate].
        apply bind_ok in Hxs as (y & Hy & Hxs). apply bind_ok in Hxs as (ys & Hys & _).
        destruct Hin as [Heq | Hin]; [| eauto].
        injection Heq as -> ->. congruence. }
    exists typ, x. split; [assumption |]. split; [exact Ec |]. split.
    { rewrite Hst, Hself1. simpl. rewrite dict_update_get.
      - assert (In (tag, x) xs) as Hx.
        { apply (coerce_all_in _ _ _ tag x Hxs). exists val, typ. auto. }
        rewrite (dict_get_in_nodup tag x xs); [reflexivity | | assumption].
        now rewrite (coerce_all_keys _ _ _ Hxs).
      - now rewrite (coerce_all_keys _ _ _ Hxs). }
    split; [| split].
    + intros Hf. rewrite (coerce_false typ val Hf) in Ec. congruence.
    + intros Hf Ht. rewrite (coerce_true typ val Hf Ht) in Ec. congruence.
    + intros Hf Ht. now rewrite <- (coerce_other typ val Hf Ht).
  - intros tag a d. rewrite Hev, <- (update_state_warnings _ _ _ _ tag a d Hup).
    rewrite !in_app_iff. split; [| tauto].
    intros [H | [H | H]]; [assumption | |].
    + destruct (gtnet_socket self1); [destruct H |].
      destruct H as [H | []]; discriminate.
    + apply send_loop_in in H as [H | [H | H]]; discriminate.
  - intros m. rewrite Hev, !in_app_iff. intros [H | [H | H]].
    + now apply Hnoerr in H.
    + destruct (gtnet_socket self1); [destruct H |].
      destruct H as [H | []]; discriminate.
    + apply send_loop_in in H as [H | [H | H]]; discriminate.
  - now apply (write_ok_ack failures self tags msg).
Qed.

Lemma write_coerces_values_witness :
  reachable sample_config sample_rtds
  /\ all_declared sample_rtds [("A", PyStr "TRUE"); ("B", PyInt 3)]
  /\ reply (write 0 sample_rtds [("A", PyStr "TRUE"); ("B", PyInt 3)]) = Ok (ACK_wrote 2)
  /\ dict_get "A" (gtnet_skt_state
                     (after (write 0 sample_rtds [("A", PyStr "TRUE"); ("B", PyInt 3)])))
     = Some (PyInt 1)
  /\ (exists val, In ("B", val) [("A", PyStr "TRUE"); ("B", PyInt 3)]
                  /\ dict_get "B" (gtnet_skt_tags sample_rtds) = Some "float"
                  /\ "int" = type_name val
                  /\ isinstance_str val = false
                  /\ "int" <> "float")
  /\ In (LogWarning "B" "int" "float")
        (events (write 0 sample_rtds [("A", PyStr "TRUE"); ("B", PyInt 3)])).
Proof.
  assert (reachable sample_config sample_rtds) as Hr
    by (apply reach_init; vm_compute; reflexivity).
  assert (all_declared sample_rtds [("A", PyStr "TRUE"); ("B", PyInt 3)]) as Hd
    by (intros tag [<- | [<- | []]]; reflexivity).
  assert ([("A", PyStr "TRUE"); ("B", PyInt 3)] <> []) as Hne by discriminate.
  assert (NoDup (dict_keys [("A", PyStr "TRUE"); ("B", PyInt 3)])) as Hk
    by (repeat constructor; simpl; intuition discriminate).
  assert (reply (write 0 sample_rtds [("A", PyStr "TRUE"); ("B", PyInt 3)])
          = Ok (ACK_wrote 2)) as Hm by (vm_compute; reflexivity).
  destruct (write_coerces_values sample_config sample_rtds 0 _ _ Hr Hne Hd Hk Hm)
    as (Hvals & Hwarn & _ & _).
  assert (exists val, In ("B", val) [("A", PyStr "TRUE"); ("B", PyInt 3)]
                      /\ dict_get "B" (gtnet_skt_tags sample_rtds) = Some "float"
                      /\ "int" = type_name val
                      /\ isinstance_str val = false
                      /\ "int" <> "float") as Hex.
  { exists (PyInt 3). repeat split; simpl; auto. discriminate. }
  split; [exact Hr |]. split; [exact Hd |]. split; [exact Hm |]. split.
  - destruct (Hvals "A" (PyStr "TRUE") (or_introl eq_refl))
      as (typ & x & Htyp & _ & Hget & _ & Htrue & _).
    injection Htyp as <-. rewrite Hget, (Htrue eq_refl eq_refl). reflexivity.
  - split; [exact Hex |]. apply (proj2 (Hwarn "B" "int" "float") Hex).
Defined.

(** C5 as stated fails on text: the value ["7"] sent for the [int] point [A]
    has type [str], not [int], and the request is acknowledged without any
    warning record. *)
Lemma write_text_mismatch_without_warning :
  dict_get "A" (gtnet_skt_tags sample_rtds) = Some "int"
  /\ type_name (PyStr "7") <> "int"
  /\ reply (write 0 sample_rtds [("A", PyStr "7")]) = Ok (ACK_wrote 1)
  /\ ~ (exists tag a d,
          In (LogWarning tag a d) (events (write 0 sample_rtds [("A", PyStr "7")]))).
Proof.
  split; [reflexivity |]. split; [discriminate |]. split; [vm_compute; reflexivity |].
  intros (tag & a & d & Hin). vm_compute in Hin.
  destruct Hin as [H | [H | [H | []]]]; discriminate.
Qed.

(** ** Reading *)

Lemma keys_after_nonempty ks : forall start,
  start <> [] -> keys_after start ks <> [].
Proof.
  unfold keys_after. induction ks as [| k ks IH]; simpl; intros start H; [assumption |].
  apply IH. destruct (existsb (String.eqb k) start); [assumption |].
  destruct start; [contradiction | discriminate].
Qed.

Lemma keys_after_keeps ks : forall start k,
  In k start -> In k (keys_after start ks).
Proof.
  unfold keys_after. induction ks as [| k' ks IH]; simpl; intros start k H; [assumption |].
  apply IH. destruct (existsb (String.eqb k') start); [assumption |].
  apply in_or_app. now left.
Qed.

Lemma keys_after_in ks : forall start k,
  In k ks -> In k (keys_after start ks).
Proof.
  induction ks as [| k' ks IH]; intros start k H; [destruct H |].
  rewrite keys_after_cons. destruct H as [-> | H]; [| now apply IH].
  apply keys_after_keeps. unfold keys_after. simpl.
  destruct (existsb (String.eqb k) start) eqn:E.
  - apply existsb_exists in E as (y & Hy & Heq). apply String.eqb_eq in Heq. now subst.
  - apply in_or_app. right. now left.
Qed.

Lemma dict_update_nil {V : Type} (d : dict V) : dict_update d [] = d.
Proof. reflexivity. Qed.

(** Right after [__init__] the tag store is empty exactly when no control
    point is declared. *)
Lemma init_store_empty c self :
  __init__ c = Ok self ->
  (current_values self = [] <-> control_points c = []).
Proof.
  intros H. apply init_unfold in H as (_ & fmt & st & Hinit & _ & _ & _ & Hcv).
  rewrite Hcv. destruct (control_points c) as [| p ps] eqn:E.
  - simpl in Hinit. injection Hinit as <- <-. split; reflexivity.
  - split; [| discriminate]. intros Hnil. exfalso.
    apply init_state_keys in Hinit as (Hk & _).
    assert (st <> []) as Hst.
    { intros ->.
      assert (keys_after (keys_after [] [cp_name p]) (map cp_name ps) <> []) as Hn
        by (apply keys_after_nonempty; discriminate).
      apply Hn. symmetry. exact Hk. }
    assert (dict_is_empty (dict_update [] st) = false) as Hne.
    { apply dict_update_nonempty. destruct st; [contradiction | reflexivity]. }
    rewrite Hnil in Hne. discriminate.
Qed.

(** Every declared control point is a key of the tag store, in every state
    of a run. *)
Lemma reachable_points_in_store c self :
  reachable c self ->
  forall p, In p (control_points c) -> In (cp_name p) (dict_keys (current_values self)).
Proof.
  induction 1 as [self H | self failures tags _ IH | self tag val _ IH]; intros p Hp.
  - apply init_unfold in H as (_ & fmt & st & Hinit & _ & _ & _ & Hcv).
    apply init_state_keys in Hinit as (Hk & Hnd).
    rewrite Hcv. apply dict_mem_in. unfold dict_mem.
    rewrite dict_update_get by (apply Hnd; constructor).
    assert (In (cp_name p) (dict_keys st)) as Hin.
    { rewrite Hk. apply keys_after_in. now apply in_map. }
    apply dict_mem_in in Hin. unfold dict_mem in Hin.
    destruct (dict_get (cp_name p) st); [reflexivity | discriminate].
  - specialize (IH p Hp).
    pose proof (write_effect _ _ _ _ _ _ (write_parts failures self tags))
      as (_ & _ & _ & _ & _ & [Hcv | Hcv]);
      fold (after (write failures self tags)); rewrite Hcv; [assumption |].
    now apply dict_update_keeps_keys.
  - simpl. apply dict_set_keeps_keys. auto.
Qed.

Lemma forall2_in_combine (P : string * string * string -> pyval -> Prop) items vals p :
  Forall2 P items vals ->
  In p items ->
  exists x, In (cp_name p, x) (combine (map cp_name items) vals) /\ P p x.
Proof.
  induction 1 as [| q x items vals Hq _ IH]; simpl; [tauto |].
  intros [-> | Hin].
  - exists x. auto.
  - destruct (IH Hin) as (y & ? & ?). eauto.
Qed.

(** C6, as the code has it. [read] answers the "not initialized" error when
    the tag store is empty, the "tag not found" error when the store is not
    empty and lacks the tag, and otherwise [ACK=] followed by the rendered
    value of the tag (or the exception the rendering raises). Before any
    source has produced data the store is empty only if no control point is
    declared: [__init__] has already put the declared points into it. *)
Theorem read_cases (float_repr : spec_float -> string) self tag :
  (current_values self = [] ->
   read float_repr self tag = Ok ERR_not_initialized)
  /\ (current_values self <> [] -> dict_get tag (current_values self) = None ->
      read float_repr self tag = Ok ERR_tag_not_found)
  /\ (forall value, dict_get tag (current_values self) = Some value ->
        read float_repr self tag
        = do text <- _serialize_value float_repr self tag value;
          Ok ("ACK=" ++ text)%string)
  /\ (forall c, __init__ c = Ok self ->
        (current_values self = [] <-> control_points c = [])).
Proof.
  unfold read. split; [| split; [| split]].
  - now intros ->.
  - intros Hne ->. destruct (current_values self); [contradiction | reflexivity].
  - intros value Hget. rewrite Hget.
    destruct (current_values self); [discriminate | reflexivity].
  - intros c. apply init_store_empty.
Qed.

Lemma read_cases_witness :
  current_values empty_rtds = []
  /\ read sample_float_repr empty_rtds "A" = Ok ERR_not_initialized
  /\ (current_values sample_rtds <> [] ->
      dict_get "BUS6_VA.real" (current_values sample_rtds) = None ->
      read sample_float_repr sample_rtds "BUS6_VA.real" = Ok ERR_tag_not_found)
  /\ read sample_float_repr sample_rtds "B" = Ok "ACK=1.5"
  /\ (current_values sample_rtds = [] <-> control_points sample_config = []).
Proof.
  split; [reflexivity |]. split.
  - apply (proj1 (read_cases sample_float_repr empty_rtds "A")). reflexivity.
  - split.
    + apply (proj1 (proj2 (read_cases sample_float_repr sample_rtds "BUS6_VA.real"))).
    + split.
      * rewrite (proj1 (proj2 (proj2 (read_cases sample_float_repr sample_rtds "B")))
                   (PyFloat f_1_5) eq_refl).
        reflexivity.
      * apply (proj2 (proj2 (proj2 (read_cases sample_float_repr sample_rtds "B")))).
        vm_compute. reflexivity.
Defined.

(** C6 as stated fails: with the two control points of the sample
    configuration declared, right after [__init__] and before any source has
    produced data, [read] answers with a value for a declared point and with
    "tag not found" for a measurement tag, not with "not initialized". *)
Lemma read_before_any_frame_is_initialized :
  __init__ sample_config = Ok sample_rtds
  /\ read sample_float_repr sample_rtds "A" = Ok "ACK=false"
  /\ read sample_float_repr sample_rtds "A" <> Ok ERR_not_initialized
  /\ read sample_float_repr sample_rtds "BUS6_VA.real" = Ok ERR_tag_not_found.
Proof.
  split; [vm_compute; reflexivity |]. split; [reflexivity |].
  split; [discriminate | reflexivity].
Qed.

(** ** Rendering *)

(** C8, as the code has it. A boolean renders as ["true"] or ["false"]. Any
    other value of a tag whose declared type is [int] renders as ["true"]
    when [int(value)] is at least 1 and as ["false"] otherwise, which for an
    integer that is not negative is its truth value. Every other value
    renders as [str(value)]. *)
Theorem serialize_value_cases (float_repr : spec_float -> string) self tag value :
  (forall b, value = PyBool b ->
     _serialize_value float_repr self tag value = Ok (if b then "true" else "false"))
  /\ (isinstance_bool value = false ->
      dict_get tag (gtnet_skt_tags self) = Some "int" ->
      _serialize_value float_repr self tag value
      = do z <- Builtins.int value; Ok (if 1 <=? z then "true" else "false"))
  /\ (forall z, value = PyInt z -> 0 <= z ->
        dict_get tag (gtnet_skt_tags self) = Some "int" ->
        _serialize_value float_repr self tag value
        = Ok (if truthy value then "true" else "false"))
  /\ (isinstance_bool value = false ->
      dict_get tag (gtnet_skt_tags self) <> Some "int" ->
      _serialize_value float_repr self tag value = Ok (str float_repr value)).
Proof.
  unfold _serialize_value. split; [| split; [| split]].
  - now intros b ->.
  - intros Hb ->. destruct value; try discriminate Hb; reflexivity.
  - intros z -> Hz ->. simpl.
    destruct (Z.leb_spec 1 z), (Z.eqb_spec z 0); simpl; try reflexivity; lia.
  - intros Hb Hne. destruct value; try discriminate Hb;
      (destruct (dict_get tag (gtnet_skt_tags self)) as [typ |]; [| reflexivity];
       destruct (String.eqb_spec typ "int") as [-> | Hty]; [now destruct Hne | reflexivity]).
Qed.

Lemma serialize_value_cases_witness :
  _serialize_value sample_float_repr sample_rtds "A" (PyInt 5) = Ok "true"
  /\ _serialize_value sample_float_repr sample_rtds "A" (PyInt 0) = Ok "false"
  /\ _serialize_value sample_float_repr sample_rtds "A" (PyStr "-3") = Ok "false"
  /\ _serialize_value sample_float_repr sample_rtds "B" (PyFloat f_2_75) = Ok "2.75"
  /\ _serialize_value sample_float_repr sample_rtds "X" (PyBool true) = Ok "true".
Proof.
  split.
  { rewrite (proj1 (proj2 (proj2 (serialize_value_cases sample_float_repr sample_rtds
                                    "A" (PyInt 5)))) 5 eq_refl); [reflexivity | lia | reflexivity]. }
  split.
  { rewrite (proj1 (proj2 (proj2 (serialize_value_cases sample_float_repr sample_rtds
                                    "A" (PyInt 0)))) 0 eq_refl); [reflexivity | lia | reflexivity]. }
  split.
  { rewrite (proj1 (proj2 (serialize_value_cases sample_float_repr sample_rtds
                             "A" (PyStr "-3"))) eq_refl eq_refl).
    vm_compute. reflexivity. }
  split.
  { rewrite (proj2 (proj2 (proj2 (serialize_value_cases sample_float_repr sample_rtds
                                    "B" (PyFloat f_2_75)))) eq_refl); [reflexivity |].
    discriminate. }
  exact (proj1 (serialize_value_cases sample_float_repr sample_rtds "X" (PyBool true))
               true eq_refl).
Defined.

(** C8 as stated fails on negative integers: -1 is truthy, yet the [int]
    point [A], once -1 was written to it, is rendered and read as false. *)
Lemma serialize_negative_int_is_false :
  dict_get "A" (gtnet_skt_tags sample_rtds) = Some "int"
  /\ truthy (PyInt (-1)) = true
  /\ _serialize_value sample_float_repr sample_rtds "A" (PyInt (-1)) = Ok "false"
  /\ reply (write 0 sample_rtds [("A", PyStr "-1")]) = Ok (ACK_wrote 1)
  /\ dict_get "A" (current_values (after (write 0 sample_rtds [("A", PyStr "-1")])))
     = Some (PyInt (-1))
  /\ read sample_float_repr (after (write 0 sample_rtds [("A", PyStr "-1")])) "A"
     = Ok "ACK=false".
Proof. repeat split; vm_compute; reflexivity. Qed.

(** ** The tag store after initialization *)

Lemma ack_not_err (s : string) :
  ("ACK=" ++ s)%string <> ERR_not_initialized
  /\ ("ACK=" ++ s)%string <> ERR_tag_not_found
  /\ ("ACK=" ++ s)%string <> ERR_no_data.
Proof. repeat split; discriminate. Qed.

(** C9. Once [__init__] has returned, the tag store holds every declared
    control point with its configured initial value, cast to its type. In
    every later state of the run the declared points are still keys of the
    store, so as soon as one control point is declared [query] never answers
    the "no data yet" error, [read] never answers the "not initialized"
    error, and [read] of a declared control point does not answer "tag not
    found" either, before any measurement frame has arrived or after. *)
Theorem init_seeds_tag_store (float_repr : spec_float -> string) c self :
  __init__ c = Ok self ->
  (NoDup (conf_gtnet_skt_tag_names c) ->
   forall p, In p (control_points c) ->
     exists x, typecast (cp_type p) (PyStr (cp_initial p)) = Ok x
               /\ dict_get (cp_name p) (current_values self) = Some x)
  /\ (forall self' p, reachable c self' -> In p (control_points c) ->
        query self' <> ERR_no_data
        /\ (forall tag, read float_repr self' tag <> Ok ERR_not_initialized)
        /\ read float_repr self' (cp_name p) <> Ok ERR_tag_not_found).
Proof.
  intros Hinit. split.
  - intros Hnames p Hp.
    destruct (init_aligned c self Hinit Hnames) as (Hal & vals & Hall & Hst).
    pose proof (init_consistent c self Hinit) as Hco.
    apply init_unfold in Hinit as (_ & fmt & st & _ & _ & _ & Hst' & Hcv).
    destruct (forall2_in_combine _ _ _ p Hall Hp) as (x & Hin & Hcast).
    exists x. split; [assumption |].
    assert (NoDup (dict_keys (gtnet_skt_state self))) as Hnd.
    { rewrite (cons_keys _ Hco). apply (cons_nodup _ Hco). }
    rewrite Hcv, <- Hst', dict_update_get by assumption.
    rewrite (dict_get_in_nodup (cp_name p) x); [reflexivity | assumption |].
    now rewrite Hst.
  - intros self' p Hr Hp.
    pose proof (reachable_points_in_store c self' Hr p Hp) as Hin.
    apply dict_mem_in in Hin. unfold dict_mem in Hin.
    destruct (dict_get (cp_name p) (current_values self')) as [v |] eqn:Hv;
      [| discriminate].
    assert (dict_is_empty (current_values self') = false) as Hne.
    { destruct (current_values self'); [discriminate | reflexivity]. }
    split; [| split].
    + unfold query. rewrite Hne. apply ack_not_err.
    + intros tag. unfold read. rewrite Hne.
      destruct (dict_get tag (current_values self')) as [w |]; [| discriminate].
      destruct (_serialize_value float_repr self' tag w) as [text | e]; simpl;
        [| discriminate].
      intros H. discriminate H.
    + unfold read. rewrite Hne, Hv.
      destruct (_serialize_value float_repr self' (cp_name p) v) as [text | e]; simpl;
        [| discriminate].
      intros H. discriminate H.
Qed.

Lemma init_seeds_tag_store_witness :
  __init__ sample_config = Ok sample_rtds
  /\ (exists x, typecast "float" (PyStr "1.5") = Ok x
                /\ dict_get "B" (current_values sample_rtds) = Some x)
  /\ query sample_rtds <> ERR_no_data
  /\ read sample_float_repr sample_rtds "A" <> Ok ERR_not_initialized.
Proof.
  assert (__init__ sample_config = Ok sample_rtds) as Hi by (vm_compute; reflexivity).
  destruct (init_seeds_tag_store sample_float_repr sample_config sample_rtds Hi)
    as (Hseed & Hrun).
  assert (In ("B", "float", "1.5") (control_points sample_config)) as Hp
    by (vm_compute; auto).
  split; [exact Hi |]. split.
  - apply (Hseed (ltac:(repeat constructor; simpl; intuition discriminate))
                 ("B", "float", "1.5") Hp).
  - destruct (Hrun sample_rtds ("B", "float", "1.5") (reach_init _ _ Hi) Hp)
      as (Hq & Hread & _).
    split; [exact Hq | apply Hread].
Defined.

(** ** Values that cannot be cast *)

(** C10. There is a write request, all of whose tags are declared control
    points, with a value that cannot be cast to the declared type (the text
    ["abc"] for the [int] point [A]), for which [write] raises instead of
    returning an [ERR=] message: nothing is sent, the tag store is
    untouched, and the slot of the point named before it in the request has
    already been overwritten. *)
Theorem write_cast_failure_is_partial :
  exists self tags e,
    reachable sample_config self
    /\ tags <> []
    /\ all_declared self tags
    /\ (exists typ, dict_get "A" (gtnet_skt_tags self) = Some typ
                    /\ typ = "int" /\ coerce typ (PyStr "abc") = Raise e)
    /\ reply (write 0 self tags) = Raise e
    /\ sent_payloads (events (write 0 self tags)) = []
    /\ (forall p, ~ In (SendFailed p) (events (write 0 self tags)))
    /\ current_values (after (write 0 self tags)) = current_values self
    /\ dict_get "B" (gtnet_skt_state self) = Some (PyFloat f_1_5)
    /\ dict_get "B" (gtnet_skt_state (after (write 0 self tags))) = Some (PyFloat f_2_75).
Proof.
  exists sample_rtds, [("B", PyStr "2.75"); ("A", PyStr "abc")], ValueError.
  split; [apply reach_init; vm_compute; reflexivity |].
  split; [discriminate |].
  split; [intros tag [<- | [<- | []]]; reflexivity |].
  split; [exists "int"; repeat split; vm_compute; reflexivity |].
  split; [vm_compute; reflexivity |].
  split; [vm_compute; reflexivity |].
  split.
  { intros p Hin. vm_compute in Hin. destruct Hin as [H | []]. discriminate. }
  repeat split; vm_compute; reflexivity.
Qed.

(** The same for any request: when the cast of a value raises, the call
    raises that exception, nothing is sent, and the slots of the tags that
    come earlier in the request keep what the loop has assigned to them. *)
Lemma write_cast_failure_general failures self pre tag val post typ e self1 evs1 :
  all_declared self (pre ++ (tag, val) :: post) ->
  update_state self pre = (self1, evs1, Ok tt) ->
  dict_get tag (gtnet_skt_tags self) = Some typ ->
  coerce typ val = Raise e ->
  write failures self (pre ++ (tag, val) :: post)
  = (self1, evs1 ++ typecast_warning tag typ val, Raise e).
Proof.
  intros Hdecl Hpre Htyp Hcast.
  assert (forall rest self0 self2 evs2,
            update_state self0 pre = (self2, evs2, Ok tt) ->
            gtnet_skt_tags self2 = gtnet_skt_tags self0
            /\ update_state self0 (pre ++ rest)
               = (let '(s3, evs3, r) := update_state self2 rest in (s3, evs2 ++ evs3, r)))
    as Happ.
  { clear. induction pre as [| [t v] pre IH]; simpl; intros rest self0 self2 evs2 H.
    - injection H as <- <-. split; [reflexivity |].
      now destruct (update_state self0 rest) as [[? ?] ?].
    - destruct (dict_get t (gtnet_skt_tags self0)); [| discriminate].
      destruct (typecast _ _); [| discriminate].
      destruct (dict_get t (gtnet_skt_state self0)); [| discriminate].
      destruct (update_state _ pre) as [[sa evsa] ra] eqn:E.
      injection H as -> <- ->.
      destruct (IH rest _ _ _ E) as (Ht & ->). split; [exact Ht |].
      destruct (update_state self2 rest) as [[s3 evs3] r3].
      now rewrite <- app_assoc. }
  destruct (Happ ((tag, val) :: post) _ _ _ Hpre) as (Ht & Hup).
  simpl in Hup. rewrite Ht, Htyp in Hup. unfold coerce in Hcast. rewrite Hcast in Hup.
  unfold write.
  replace (dict_is_empty (pre ++ (tag, val) :: post)) with false
    by (now destruct pre).
  apply all_declared_valid in Hdecl. rewrite Hdecl, Hup. reflexivity.
Qed.

(** ** The polling loop *)

Lemma poll_frame_keeps_retry_count names mms st :
  retry_count (fst (fst (poll_iteration names (GetFrame mms) st))) = retry_count st.
Proof.
  unfold poll_iteration.
  now destruct (store_measurements (ps_self st) (ps_pmu st) mms) as [[? ?] ?].
Qed.

Lemma poll_exception_keeps_retry_count names st :
  retry_count (fst (fst (poll_iteration names GetRaised st))) = retry_count st.
Proof. reflexivity. Qed.

(** From a count of 0, three soft failures in a row are slept over and the
    fourth rebuilds the connection and puts the count back to 0. *)
Lemma poll_four_soft_failures self pmu n1 n2 n3 n4 :
  _poll_pmu self pmu [(GetNothing, n1); (GetNothing, n2); (GetNothing, n3); (GetNothing, n4)]
  = ({| ps_self := self; ps_pmu := _rebuild_pmu_connection n4 pmu; retry_count := 0 |},
     [Sleep (retry_delay self); Sleep (retry_delay self); Sleep (retry_delay self);
      RebuildConnection],
     Ok tt).
Proof. reflexivity. Qed.

(** C7 fails on the code: [retry_count] is put back to 0 only after a
    reconnection that a soft failure forced, never by a frame. With soft
    failures and frames alternating, no two soft failures are consecutive,
    yet the fourth soft failure rebuilds the connection. *)
Theorem poll_rebuilds_without_consecutive_failures :
  longest_soft_run alternating_script 0 0 = 1%nat
  /\ snd (fst (_poll_pmu sample_rtds sample_pmu alternating_script))
     = [ Sleep (retry_delay sample_rtds); FrameStored;
         Sleep (retry_delay sample_rtds); FrameStored;
         Sleep (retry_delay sample_rtds); FrameStored;
         RebuildConnection ]
  /\ retry_count (fst (fst (_poll_pmu sample_rtds sample_pmu
                              (firstn 6 alternating_script)))) = 3%nat.
Proof. repeat split; vm_compute; reflexivity. Qed.

(** * Further properties of the write path *)

(** The state an acknowledged request leaves behind. *)
Lemma write_ack_state failures self tags msg :
  tags <> [] ->
  all_declared self tags ->
  reply (write failures self tags) = Ok msg ->
  exists xs,
    coerce_all (gtnet_skt_tags self) tags = Ok xs
    /\ gtnet_skt_state (after (write failures self tags))
       = dict_update (gtnet_skt_state self) xs
    /\ current_values (after (write failures self tags))
       = dict_update (current_values self) (dict_update (gtnet_skt_state self) xs)
    /\ gtnet_socket (after (write failures self tags)) = true.
Proof.
  intros Hne Hdecl Hmsg.
  destruct (write_ok_ack _ _ _ _ Hne Hdecl Hmsg) as (_ & payload & Hs).
  assert (In (Sent payload) (events (write failures self tags))) as Hin.
  { apply sent_payloads_in. rewrite Hs. now left. }
  destruct (write_sent_inv _ _ _ _ Hin) as (_ & _ & xs & Hxs & _ & Hafter).
  exists xs. rewrite Hafter. simpl. auto.
Qed.

(** A call of [write] never adds a tag to the store, removes one or changes
    their order, so the answer of [query] is the same before and after. *)
Theorem write_keeps_store_keys c self failures tags :
  reachable c self ->
  dict_keys (current_values (after (write failures self tags)))
  = dict_keys (current_values self)
  /\ query (after (write failures self tags)) = query self.
Proof.
  intros Hr. pose proof (reachable_consistent _ _ Hr) as Hco.
  pose proof (write_effect _ _ _ _ _ _ (write_parts failures self tags))
    as (_ & _ & Hkeys & _ & _ & Hcv).
  assert (dict_keys (current_values (after (write failures self tags)))
          = dict_keys (current_values self)) as Hk.
  { destruct Hcv as [-> | ->]; [reflexivity |].
    apply dict_update_keys. intros k Hin. apply dict_mem_in.
    apply (cons_store _ Hco). now rewrite <- Hkeys. }
  split; [exact Hk |].
  unfold query. rewrite Hk.
  assert (dict_is_empty (current_values (after (write failures self tags)))
          = dict_is_empty (current_values self)) as ->; [| reflexivity].
  unfold dict_keys in Hk.
  destruct (current_values (after (write failures self tags))),
           (current_values self); simpl in *; congruence.
Qed.

Lemma write_keeps_store_keys_witness :
  reachable sample_config sample_rtds
  /\ dict_keys (current_values (after (write 2 sample_rtds [("B", PyStr "2.75")])))
     = ["A"; "B"]
  /\ query (after (write 2 sample_rtds [("B", PyStr "2.75")])) = "ACK=A,B".
Proof.
  assert (reachable sample_config sample_rtds) as Hr
    by (apply reach_init; vm_compute; reflexivity).
  destruct (write_keeps_store_keys sample_config sample_rtds 2
              [("B", PyStr "2.75")] Hr) as (Hk & Hq).
  split; [exact Hr |]. split.
  - rewrite Hk. reflexivity.
  - rewrite Hq. reflexivity.
Defined.

(** Written points can be read back: after an acknowledged request, every
    tag of the request is in the tag store with the value the request's
    value was coerced to, and [read] answers [ACK=] with its rendering. *)
Theorem write_then_read (float_repr : spec_float -> string) c self failures tags msg :
  reachable c self ->
  tags <> [] ->
  all_declared self tags ->
  NoDup (dict_keys tags) ->
  reply (write failures self tags) = Ok msg ->
  forall tag val, In (tag, val) tags ->
    exists typ x,
      dict_get tag (gtnet_skt_tags self) = Some typ
      /\ coerce typ val = Ok x
      /\ dict_get tag (current_values (after (write failures self tags))) = Some x
      /\ read float_repr (after (write failures self tags)) tag
         = do text <- _serialize_value float_repr self tag x;
           Ok ("ACK=" ++ text)%string.
Proof.
  intros Hr Hne Hdecl Hnd Hmsg tag val Hin.
  pose proof (reachable_consistent _ _ Hr) as Hco.
  destruct (write_ack_state _ _ _ _ Hne Hdecl Hmsg) as (xs & Hxs & Hst & Hcv & _).
  assert (In tag (dict_keys tags)) as Hk.
  { unfold dict_keys. change tag with (fst (tag, val)). now apply in_map. }
  assert (exists x, In (tag, x) xs) as (x & Hx).
  { assert (In tag (dict_keys xs)) as Hkx by (now rewrite (coerce_all_keys _ _ _ Hxs)).
    unfold dict_keys in Hkx. apply in_map_iff in Hkx as ([t x] & Heq & Hin').
    simpl in Heq. subst t. eauto. }
  pose proof (proj1 (coerce_all_in _ _ _ tag x Hxs) Hx) as (val' & typ & Hin' & Htyp & Hc).
  assert (val' = val) as ->.
  { pose proof (dict_get_in_nodup _ _ _ Hnd Hin) as E1.
    pose proof (dict_get_in_nodup _ _ _ Hnd Hin') as E2. congruence. }
  assert (NoDup (dict_keys xs)) as Hndx by (now rewrite (coerce_all_keys _ _ _ Hxs)).
  assert (NoDup (dict_keys (gtnet_skt_state self))) as Hnds.
  { rewrite (cons_keys _ Hco). apply (cons_nodup _ Hco). }
  assert (dict_keys (dict_update (gtnet_skt_state self) xs)
          = dict_keys (gtnet_skt_state self)) as Hku.
  { apply dict_update_keys. intros k Hkk. apply dict_mem_in.
    rewrite (cons_keys _ Hco). apply dict_mem_in, Hdecl.
    now rewrite <- (coerce_all_keys _ _ _ Hxs). }
  assert (dict_get tag (current_values (after (write failures self tags))) = Some x)
    as Hget.
  { rewrite Hcv, dict_update_get by (now rewrite Hku).
    rewrite dict_update_get by assumption.
    now rewrite (dict_get_in_nodup tag x xs Hndx Hx). }
  exists typ, x. split; [assumption |]. split; [assumption |]. split; [assumption |].
  unfold read. rewrite Hget.
  replace (dict_is_empty (current_values (after (write failures self tags))))
    with false.
  - unfold _serialize_value.
    pose proof (write_effect _ _ _ _ _ _ (write_parts failures self tags)) as (Ht & _).
    now rewrite Ht.
  - destruct (current_values (after (write failures self tags)));
      [discriminate | reflexivity].
Qed.

Lemma write_then_read_witness :
  reachable sample_config sample_rtds
  /\ all_declared sample_rtds [("B", PyStr "2.75"); ("A", PyBool true)]
  /\ reply (write 0 sample_rtds [("B", PyStr "2.75"); ("A", PyBool true)])
     = Ok (ACK_wrote 2)
  /\ read sample_float_repr
          (after (write 0 sample_rtds [("B", PyStr "2.75"); ("A", PyBool true)])) "B"
     = Ok "ACK=2.75".
Proof.
  assert (reachable sample_config sample_rtds) as Hr
    by (apply reach_init; vm_compute; reflexivity).
  assert (all_declared sample_rtds [("B", PyStr "2.75"); ("A", PyBool true)]) as Hd
    by (intros tag [<- | [<- | []]]; reflexivity).
  assert (reply (write 0 sample_rtds [("B", PyStr "2.75"); ("A", PyBool true)])
          = Ok (ACK_wrote 2)) as Hm by (vm_compute; reflexivity).
  split; [exact Hr |]. split; [exact Hd |]. split; [exact Hm |].
  assert ([("B", PyStr "2.75"); ("A", PyBool true)] <> []) as Hne by discriminate.
  assert (NoDup (dict_keys [("B", PyStr "2.75"); ("A", PyBool true)])) as Hk
    by (repeat constructor; simpl; intuition discriminate).
  destruct (write_then_read sample_float_repr sample_config sample_rtds 0 _ _ Hr
              Hne Hd Hk Hm "B" (PyStr "2.75") (or_introl eq_refl))
    as (typ & x & Htyp & Hc & _ & Hread).
  vm_compute in Htyp. injection Htyp as <-.
  vm_compute in Hc. injection Hc as <-.
  rewrite Hread. reflexivity.
Defined.

Lemma dict_update_nodup {V : Type} (other : dict V) : forall d,
  NoDup (dict_keys d) -> NoDup (dict_keys (dict_update d other)).
Proof.
  unfold dict_update. induction other as [| [k v] other IH]; simpl; intros d H;
    [assumption |].
  apply IH. now apply dict_set_nodup.
Qed.

Lemma dict_update_idem {V : Type} (d other : dict V) :
  NoDup (dict_keys other) ->
  NoDup (dict_keys d) ->
  dict_update (dict_update d other) other = dict_update d other.
Proof.
  intros Ho Hd.
  assert (forall k, In k (dict_keys other) ->
            dict_mem k (dict_update d other) = true) as Hmem.
  { intros k Hk. unfold dict_mem. rewrite dict_update_get by assumption.
    apply dict_mem_in in Hk. unfold dict_mem in Hk.
    now destruct (dict_get k other). }
  apply dict_ext.
  - now apply dict_update_keys.
  - now apply dict_update_nodup, dict_update_nodup.
  - intros k _. rewrite !dict_update_get by assumption.
    now destruct (dict_get k other).
Qed.

Lemma reachable_store_nodup c self :
  reachable c self -> NoDup (dict_keys (current_values self)).
Proof.
  induction 1 as [self H | self failures tags _ IH | self tag val _ IH].
  - apply init_unfold in H as (_ & fmt & st & _ & _ & _ & _ & ->).
    apply dict_update_nodup. constructor.
  - pose proof (write_effect _ _ _ _ _ _ (write_parts failures self tags))
      as (_ & _ & _ & _ & _ & [Hcv | Hcv]);
      fold (after (write failures self tags)); rewrite Hcv; [assumption |].
    now apply dict_update_nodup.
  - simpl. now apply dict_set_nodup.
Qed.

(** After an acknowledged request the tag store agrees with the control
    point vector on every control point, named by the request or not. *)
Theorem write_store_mirrors_vector c self failures tags msg :
  reachable c self ->
  tags <> [] ->
  all_declared self tags ->
  reply (write failures self tags) = Ok msg ->
  forall name v,
    dict_get name (gtnet_skt_state (after (write failures self tags))) = Some v ->
    dict_get name (current_values (after (write failures self tags))) = Some v.
Proof.
  intros Hr Hne Hdecl Hmsg name v Hget.
  pose proof (reachable_consistent _ _ Hr) as Hco.
  destruct (write_ack_state _ _ _ _ Hne Hdecl Hmsg) as (xs & Hxs & Hst & Hcv & _).
  rewrite Hcv, <- Hst, dict_update_get; [now rewrite Hget |].
  pose proof (write_effect _ _ _ _ _ _ (write_parts failures self tags))
    as (_ & _ & Hkeys & _).
  rewrite Hkeys, (cons_keys _ Hco). apply (cons_nodup _ Hco).
Qed.

Lemma write_store_mirrors_vector_witness :
  reachable sample_config poisoned_rtds
  /\ all_declared poisoned_rtds [("A", PyStr "3")]
  /\ reply (write 0 poisoned_rtds [("A", PyStr "3")]) = Ok (ACK_wrote 1)
  /\ dict_get "A" (current_values poisoned_rtds) = Some (PyInt 0)
  /\ dict_get "A" (current_values (after (write 0 poisoned_rtds [("A", PyStr "3")])))
     = Some (PyInt 3).
Proof.
  assert (reachable sample_config poisoned_rtds) as Hr
    by (apply reach_write, reach_init; vm_compute; reflexivity).
  assert (all_declared poisoned_rtds [("A", PyStr "3")]) as Hd
    by (intros tag [<- | []]; reflexivity).
  assert ([("A", PyStr "3")] <> []) as Hne by discriminate.
  assert (reply (write 0 poisoned_rtds [("A", PyStr "3")]) = Ok (ACK_wrote 1)) as Hm
    by (vm_compute; reflexivity).
  split; [exact Hr |]. split; [exact Hd |]. split; [exact Hm |].
  split; [vm_compute; reflexivity |].
  apply (write_store_mirrors_vector sample_config poisoned_rtds 0 _ _ Hr Hne Hd Hm).
  vm_compute. reflexivity.
Defined.

(** Sending an acknowledged request once more changes nothing and sends
    the same payload again. *)
Theorem write_twice c self f1 f2 tags msg :
  reachable c self ->
  tags <> [] ->
  all_declared self tags ->
  NoDup (dict_keys tags) ->
  reply (write f1 self tags) = Ok msg ->
  gtnet_skt_state (after (write f2 (after (write f1 self tags)) tags))
  = gtnet_skt_state (after (write f1 self tags))
  /\ current_values (after (write f2 (after (write f1 self tags)) tags))
     = current_values (after (write f1 self tags))
  /\ sent_payloads (events (write f2 (after (write f1 self tags)) tags))
     = sent_payloads (events (write f1 self tags))
  /\ reply (write f2 (after (write f1 self tags)) tags) = Ok msg.
Proof.
  intros Hr Hne Hdecl Hnd Hmsg.
  pose proof (reachable_consistent _ _ Hr) as Hco.
  pose proof (reachable_store_nodup _ _ Hr) as Hcvnd.
  destruct (write_ok_ack _ _ _ _ Hne Hdecl Hmsg) as (-> & payload & Hs).
  assert (In (Sent payload) (events (write f1 self tags))) as Hin
    by (apply sent_payloads_in; rewrite Hs; now left).
  destruct (write_sent_inv _ _ _ _ Hin) as (_ & Hv & xs & Hxs & Hpack & Hafter).
  assert (NoDup (dict_keys xs)) as Hndx by (now rewrite (coerce_all_keys _ _ _ Hxs)).
  assert (NoDup (dict_keys (gtnet_skt_state self))) as Hnds.
  { rewrite (cons_keys _ Hco). apply (cons_nodup _ Hco). }
  set (S1 := dict_update (gtnet_skt_state self) xs) in *.
  assert (dict_keys S1 = dict_keys (gtnet_skt_state self)) as HkS.
  { apply dict_update_keys. intros k Hk. apply dict_mem_in.
    rewrite (cons_keys _ Hco). apply dict_mem_in, Hdecl.
    now rewrite <- (coerce_all_keys _ _ _ Hxs). }
  assert (dict_update S1 xs = S1) as Hidem by (now apply dict_update_idem).
  destruct (write_sent_intro f2 (after (write f1 self tags)) tags xs payload)
    as (Ha & Hs2 & Hr2).
  - assumption.
  - rewrite Hafter. exact Hv.
  - intros tag Hk. rewrite Hafter. simpl. apply dict_mem_in. rewrite HkS.
    rewrite (cons_keys _ Hco). apply dict_mem_in, Hdecl, Hk.
  - rewrite Hafter. exact Hxs.
  - rewrite Hafter. simpl. fold S1. rewrite Hidem. exact Hpack.
  - rewrite Ha, Hs2, Hs, Hr2, Hafter. simpl. fold S1. rewrite Hidem.
    repeat split; try reflexivity.
    apply dict_update_idem; [now rewrite HkS | assumption].
Qed.

Lemma write_twice_witness :
  reachable sample_config sample_rtds
  /\ all_declared sample_rtds [("B", PyStr "2.75")]
  /\ reply (write 0 sample_rtds [("B", PyStr "2.75")]) = Ok (ACK_wrote 1)
  /\ sent_payloads
       (events (write 3 (after (write 0 sample_rtds [("B", PyStr "2.75")]))
                  [("B", PyStr "2.75")]))
     = [[x00; x00; x00; x00; x40; x30; x00; x00]].
Proof.
  assert (reachable sample_config sample_rtds) as Hr
    by (apply reach_init; vm_compute; reflexivity).
  assert (all_declared sample_rtds [("B", PyStr "2.75")]) as Hd
    by (intros tag [<- | []]; reflexivity).
  assert ([("B", PyStr "2.75")] <> []) as Hne by discriminate.
  assert (NoDup (dict_keys [("B", PyStr "2.75")])) as Hk
    by (repeat constructor; simpl; intuition discriminate).
  assert (reply (write 0 sample_rtds [("B", PyStr "2.75")]) = Ok (ACK_wrote 1)) as Hm
    by (vm_compute; reflexivity).
  split; [exact Hr |]. split; [exact Hd |]. split; [exact Hm |].
  destruct (write_twice sample_config sample_rtds 0 3 _ _ Hr Hne Hd Hk Hm)
    as (_ & _ & Hs & _).
  rewrite Hs. vm_compute. reflexivity.
Defined.

(** ** The socket traffic of a call *)

Lemma update_state_events_log tags : forall self self' evs r e,
  update_state self tags = (self', evs, r) ->
  In e evs -> is_send_failed e = false /\ is_socket_init e = false /\ is_sent e = false.
Proof.
  induction tags as [| [t v] rest IH]; simpl; intros self self' evs r e H Hin.
  - injection H as <- <- <-. destruct Hin.
  - destruct (dict_get t (gtnet_skt_tags self)) as [typ |]; [| injection H as <- <- <-; destruct Hin].
    assert (forall e0, In e0 (typecast_warning t typ v) ->
              is_send_failed e0 = false /\ is_socket_init e0 = false /\ is_sent e0 = false)
      as Hw.
    { intros e0 He. apply typecast_warning_spec in He as (-> & _). auto. }
    destruct (typecast typ (normalize_bool v)); [| injection H as <- <- <-; auto].
    destruct (dict_get t (gtnet_skt_state self)); [| injection H as <- <- <-; auto].
    destruct (update_state _ rest) as [[s2 evs2] r2] eqn:E.
    injection H as <- <- <-.
    apply in_app_or in Hin as [Hin | [<- | Hin]]; [auto | auto | eauto].
Qed.

Lemma filter_none {A : Type} (f : A -> bool) (l : list A) :
  (forall x, In x l -> f x = false) -> filter f l = [].
Proof.
  induction l as [| a l IH]; simpl; intros H; [reflexivity |].
  rewrite (H a (or_introl eq_refl)). apply IH. auto.
Qed.

Lemma send_loop_failed failures payload :
  filter is_send_failed (send_loop failures payload) = repeat (SendFailed payload) failures
  /\ List.length (filter is_socket_init (send_loop failures payload)) = failures.
Proof.
  induction failures as [| k [IH1 IH2]]; simpl; [auto |].
  rewrite IH1, IH2. auto.
Qed.

(** A send that fails is never dropped: an acknowledged call with [failures]
    failing sends has tried its payload [failures] times in vain, each time
    followed by a new socket, and then sent that same payload once. The
    socket is set up first only when none was open, and is open afterwards. *)
Theorem write_resends_same_payload failures self tags msg :
  tags <> [] ->
  all_declared self tags ->
  reply (write failures self tags) = Ok msg ->
  exists payload,
    sent_payloads (events (write failures self tags)) = [payload]
    /\ filter is_send_failed (events (write failures self tags))
       = repeat (SendFailed payload) failures
    /\ List.length (filter is_socket_init (events (write failures self tags)))
       = ((if gtnet_socket self then 0 else 1) + failures)%nat
    /\ gtnet_socket (after (write failures self tags)) = true.
Proof.
  intros Hne Hdecl Hmsg.
  destruct (write_sent_events _ _ _ _ Hne Hdecl Hmsg)
    as (self1 & evs1 & payload & Hup & Hev & _).
  destruct (write_ack_state _ _ _ _ Hne Hdecl Hmsg) as (_ & _ & _ & _ & Hsock).
  pose proof (update_state_frame _ _ _ _ _ Hup) as (st' & Hself1 & _).
  assert (gtnet_socket self1 = gtnet_socket self) as Hs1 by (now rewrite Hself1).
  pose proof (fun e => update_state_events_log _ _ _ _ _ e Hup) as Hlog.
  destruct (send_loop_failed failures payload) as (Hf & Hi).
  exists payload. rewrite Hev, Hs1. split; [| split; [| split]].
  - rewrite !sent_payloads_app, send_loop_sent.
    rewrite sent_payloads_none.
    + now destruct (gtnet_socket self).
    + intros p Hp. apply Hlog in Hp as (_ & _ & Hp). discriminate.
  - rewrite !filter_app, Hf, (filter_none is_send_failed evs1).
    + now destruct (gtnet_socket self).
    + intros e He. now apply Hlog in He.
  - rewrite !filter_app, !length_app, Hi, (filter_none is_socket_init evs1).
    + now destruct (gtnet_socket self).
    + intros e He. now apply Hlog in He.
  - exact Hsock.
Qed.

Lemma write_resends_same_payload_witness :
  all_declared sample_rtds [("A", PyStr "7")]
  /\ reply (write 2 sample_rtds [("A", PyStr "7")]) = Ok (ACK_wrote 1)
  /\ exists payload,
       sent_payloads (events (write 2 sample_rtds [("A", PyStr "7")])) = [payload]
       /\ filter is_send_failed (events (write 2 sample_rtds [("A", PyStr "7")]))
          = [SendFailed payload; SendFailed payload]
       /\ List.length (filter is_socket_init
                         (events (write 2 sample_rtds [("A", PyStr "7")]))) = 3%nat
       /\ gtnet_socket (after (write 2 sample_rtds [("A", PyStr "7")])) = true.
Proof.
  assert (all_declared sample_rtds [("A", PyStr "7")]) as Hd
    by (intros tag [<- | []]; reflexivity).
  assert ([("A", PyStr "7")] <> []) as Hne by discriminate.
  assert (reply (write 2 sample_rtds [("A", PyStr "7")]) = Ok (ACK_wrote 1)) as Hm
    by (vm_compute; reflexivity).
  split; [exact Hd |]. split; [exact Hm |].
  exact (write_resends_same_payload 2 sample_rtds _ _ Hne Hd Hm).
Defined.

(** ** A slot that cannot be packed *)

(** [write] stores a value before it packs the vector. A slot whose value
    the format refuses (an integer outside 32 bits, a float too large for
    binary32) therefore blocks every later request that does not overwrite
    it: nothing is sent and the request is not acknowledged. *)
Theorem write_blocked_by_unpackable_slot c self failures tags name typ v :
  reachable c self ->
  NoDup (conf_gtnet_skt_tag_names c) ->
  dict_get name (gtnet_skt_tags self) = Some typ ->
  dict_get name (gtnet_skt_state self) = Some v ->
  is_ok (Struct.pack_field (code_of typ) v) = false ->
  ~ In name (dict_keys tags) ->
  sent_payloads (events (write failures self tags)) = []
  /\ reply (write failures self tags) <> Ok (ACK_wrote (List.length tags)).
Proof.
  intros Hr Hnames Htyp Hv Hbad Hnot.
  pose proof (reachable_consistent _ _ Hr) as Hco.
  pose proof (reachable_aligned _ _ Hnames Hr) as Hal.
  assert (forall payload, ~ In (Sent payload) (events (write failures self tags)))
    as Hnone.
  { intros payload Hsent.
    apply dict_get_some_in in Htyp. rewrite (al_tags _ _ Hal) in Htyp.
    apply in_map_iff in Htyp as (p & Hp & Hin). injection Hp as Hn Ht.
    apply In_nth_error in Hin as (i & Hi).
    destruct (write_payload_fields c self failures tags payload Hr Hnames Hsent i p Hi)
      as (v' & Hget & Hpack & _).
    pose proof (write_effect _ _ _ _ _ _ (write_parts failures self tags))
      as (_ & _ & _ & Hframe & _).
    rewrite Hn, (Hframe name Hnot), Hv in Hget. injection Hget as <-.
    rewrite Ht in Hpack. rewrite Hpack in Hbad. discriminate. }
  destruct (write_traffic _ _ _ _ _ _ (write_parts failures self tags))
    as [(Hs & _ & Herr) | (p & _ & Hs & _)].
  - split; [exact Hs |]. intros Hack. discriminate (Herr _ Hack).
  - exfalso. apply (Hnone p). apply sent_payloads_in. rewrite Hs. now left.
Qed.

Lemma write_blocked_by_unpackable_slot_witness :
  reachable sample_config poisoned_rtds
  /\ reply (write 0 sample_rtds [("A", PyStr "2147483648")]) = Raise StructError
  /\ dict_get "A" (gtnet_skt_state poisoned_rtds) = Some (PyInt 2147483648)
  /\ is_ok (Struct.pack_field (code_of "int") (PyInt 2147483648)) = false
  /\ sent_payloads (events (write 0 poisoned_rtds [("B", PyStr "1.5")])) = []
  /\ reply (write 0 poisoned_rtds [("B", PyStr "1.5")]) <> Ok (ACK_wrote 1).
Proof.
  assert (reachable sample_config poisoned_rtds) as Hr
    by (apply reach_write, reach_init; vm_compute; reflexivity).
  assert (NoDup (conf_gtnet_skt_tag_names sample_config)) as Hn
    by (repeat constructor; simpl; intuition discriminate).
  assert (dict_get "A" (gtnet_skt_state poisoned_rtds) = Some (PyInt 2147483648)) as Hv
    by (vm_compute; reflexivity).
  assert (is_ok (Struct.pack_field (code_of "int") (PyInt 2147483648)) = false) as Hb
    by (vm_compute; reflexivity).
  assert (~ In "A" (dict_keys [("B", PyStr "1.5")])) as Hnot
    by (simpl; intuition discriminate).
  split; [exact Hr |]. split; [vm_compute; reflexivity |].
  split; [exact Hv |]. split; [exact Hb |].
  exact (write_blocked_by_unpackable_slot sample_config poisoned_rtds 0
           [("B", PyStr "1.5")] "A" "int" _ Hr Hn eq_refl Hv Hb Hnot).
Defined.

(** ** The size of a payload *)

Lemma dict_set_length {V : Type} (k : string) (v : V) (d : dict V) :
  (List.length (dict_set k v d) <= S (List.length d))%nat.
Proof.
  induction d as [| [k' v'] d IH]; simpl; [lia |].
  destruct (String.eqb k k'); simpl; lia.
Qed.

Lemma fold_dict_set_length {V : Type} (l : list (string * V)) : forall d,
  (List.length (fold_left (fun d nt => dict_set (fst nt) (snd nt) d) l d)
   <= List.length d + List.length l)%nat.
Proof.
  induction l as [| [k v] l IH]; simpl; intros d; [lia |].
  specialize (IH (dict_set k v d)). pose proof (dict_set_length k v d). simpl in *. lia.
Qed.

Lemma reachable_tags c self :
  reachable c self ->
  validate_gtnet_skt c = true
  /\ gtnet_skt_tags self
     = make_gtnet_skt_tags (conf_gtnet_skt_tag_names c) (conf_gtnet_skt_tag_types c).
Proof.
  induction 1 as [self H | self failures tags _ IH | self tag val _ IH].
  - apply init_unfold in H as (Hv & _ & _ & _ & Ht & _). auto.
  - pose proof (write_effect _ _ _ _ _ _ (write_parts failures self tags)) as (Ht & _).
    fold (after (write failures self tags)). now rewrite Ht.
  - exact IH.
Qed.

(** [__init__] refuses more than 30 points, so no payload that is sent or
    tried has more than 120 bytes. *)
Theorem payload_at_most_120_bytes c self failures tags payload :
  reachable c self ->
  In (Sent payload) (events (write failures self tags))
  \/ In (SendFailed payload) (events (write failures self tags)) ->
  (List.length (gtnet_skt_tags self) <= 30)%nat
  /\ (List.length payload <= 120)%nat.
Proof.
  intros Hr Hin.
  destruct (reachable_tags _ _ Hr) as (Hv & Ht).
  assert (List.length (gtnet_skt_tags self) <= 30)%nat as Hlen.
  { rewrite Ht. unfold make_gtnet_skt_tags.
    pose proof (fold_dict_set_length
                  (combine (conf_gtnet_skt_tag_names c) (conf_gtnet_skt_tag_types c)) [])
      as Hf.
    rewrite length_combine in Hf. simpl in Hf.
    unfold validate_gtnet_skt in Hv.
    destruct (conf_gtnet_skt_tag_types c) as [| t ts]; [simpl in *; lia |].
    repeat (apply andb_prop in Hv as [Hv ?]).
    match goal with
    | E : Nat.leb _ 30 = true |- _ => apply Nat.leb_le in E
    end. lia. }
  split; [exact Hlen |].
  assert (reachable c (after (write failures self tags))) as Hr'
    by (now apply reach_write).
  pose proof (reachable_consistent _ _ Hr') as Hco.
  pose proof (write_effect _ _ _ _ _ _ (write_parts failures self tags)) as (Ht' & _).
  destruct (write_traffic _ _ _ _ _ _ (write_parts failures self tags))
    as [(Hs & Hf & _) | (p & Hp & Hs & Hf & _)].
  - destruct Hin as [Hin | Hin]; [| now apply Hf in Hin].
    apply sent_payloads_in in Hin. rewrite Hs in Hin. destruct Hin.
  - assert (payload = p) as ->.
    { destruct Hin as [Hin | Hin]; [| auto].
      apply sent_payloads_in in Hin. rewrite Hs in Hin.
      destruct Hin as [<- | []]. reflexivity. }
    rewrite (StructFacts.length_pack _ _ _ Hp).
    unfold dict_values. rewrite length_map, <- (length_map fst).
    change (map fst (gtnet_skt_state (after (write failures self tags))))
      with (dict_keys (gtnet_skt_state (after (write failures self tags)))).
    rewrite (cons_keys _ Hco), Ht'. unfold dict_keys. rewrite length_map. lia.
Qed.

Lemma payload_at_most_120_bytes_witness :
  reachable sample_config sample_rtds
  /\ In (Sent [x00; x00; x00; x07; x3f; xc0; x00; x00])
        (events (write 0 sample_rtds [("A", PyStr "7")]))
  /\ (List.length [x00; x00; x00; x07; x3f; xc0; x00; x00] <= 120)%nat.
Proof.
  assert (reachable sample_config sample_rtds) as Hr
    by (apply reach_init; vm_compute; reflexivity).
  assert (In (Sent [x00; x00; x00; x07; x3f; xc0; x00; x00])
             (events (write 0 sample_rtds [("A", PyStr "7")]))) as Hs
    by (vm_compute; auto).
  split; [exact Hr |]. split; [exact Hs |].
  exact (proj2 (payload_at_most_120_bytes sample_config sample_rtds 0 _ _ Hr
                  (or_introl Hs))).
Defined.

(** * The polling loop *)

(** ** What [retry_count] counts *)

Lemma poll_iteration_soft names st :
  poll_iteration names GetNothing st
  = if Nat.leb 3 (retry_count st)
    then ({| ps_self := ps_self st;
             ps_pmu := _rebuild_pmu_connection names (ps_pmu st);
             retry_count := 0 |}, [RebuildConnection], Ok tt)
    else ({| ps_self := ps_self st; ps_pmu := ps_pmu st;
             retry_count := retry_count st + 1 |},
          [Sleep (retry_delay (ps_self st))], Ok tt).
Proof. reflexivity. Qed.

#[local] Arguments Nat.modulo : simpl never.
#[local] Arguments Nat.div : simpl never.

(** In a run of the loop that is not ended by an exception, [retry_count]
    never exceeds 3 and is the number of frameless polls since the last
    reconnection such a poll forced, whatever frames and exceptions came in
    between: with [k] frameless polls in all, a count starting at [n] ends
    at [(n + k) mod 4], [(n + k) / 4] of them reconnected and the others
    slept. An exception in [get_data_frame] adds a reconnection of its own
    and leaves the count as it is. *)
Theorem poll_retry_count script : forall st st' evs,
  poll_loop script st = (st', evs, Ok tt) ->
  (retry_count st <= 3)%nat ->
  retry_count st' = ((retry_count st + soft_failures script) mod 4)%nat
  /\ List.length (filter is_rebuild evs)
     = ((retry_count st + soft_failures script) / 4 + raised_polls script)%nat
  /\ (List.length (filter is_sleep evs) + (retry_count st + soft_failures script) / 4
      = soft_failures script)%nat.
Proof.
  induction script as [| [got names] rest IH]; intros st st' evs H Hn.
  - simpl in H. injection H as <- <-. simpl. rewrite Nat.add_0_r.
    rewrite Nat.mod_small, Nat.div_small by lia. auto.
  - cbn [poll_loop] in H.
    destruct (poll_iteration names got st) as [[st1 evs1] r1] eqn:E1.
    destruct r1 as [[] | e]; [| discriminate].
    destruct (poll_loop rest st1) as [[st2 evs2] r2] eqn:E2.
    injection H as <- <- ->.
    destruct got as [| | mms].
    + simpl in E1. injection E1 as <- <-.
      destruct (IH _ _ _ E2 Hn) as (H1 & H2 & H3).
      simpl in *. repeat split; lia.
    + rewrite poll_iteration_soft in E1.
      destruct (Nat.leb_spec 3 (retry_count st)) as [Hge | Hlt];
        injection E1 as <- <-.
      * assert (retry_count st = 3)%nat as E3 by lia.
        destruct (IH _ _ _ E2 ltac:(simpl; lia)) as (H1 & H2 & H3).
        simpl in *. rewrite E3.
        assert ((3 + S (soft_failures rest)) mod 4 = soft_failures rest mod 4)%nat as Em.
        { replace (3 + S (soft_failures rest))%nat
            with (soft_failures rest + 1 * 4)%nat by lia.
          apply Nat.Div0.mod_add. }
        assert ((3 + S (soft_failures rest)) / 4 = S (soft_failures rest / 4))%nat as Ed.
        { replace (3 + S (soft_failures rest))%nat
            with (soft_failures rest + 1 * 4)%nat by lia.
          rewrite Nat.div_add by lia. lia. }
        rewrite Em, Ed. repeat split; lia.
      * destruct (IH _ _ _ E2 ltac:(simpl; lia)) as (H1 & H2 & H3).
        simpl in *.
        replace (retry_count st + S (soft_failures rest))%nat
          with (retry_count st + 1 + soft_failures rest)%nat by lia.
        repeat split; lia.
    + unfold poll_iteration in E1.
      destruct (store_measurements (ps_self st) (ps_pmu st) mms) as [[s p] r] eqn:Es.
      injection E1 as <- <- Hr. subst r.
      destruct (IH _ _ _ E2 Hn) as (H1 & H2 & H3).
      simpl in *. repeat split; lia.
Qed.

Lemma poll_retry_count_witness :
  poll_loop alternating_script (poll_start sample_rtds sample_pmu)
  = (fst (fst (poll_loop alternating_script (poll_start sample_rtds sample_pmu))),
     snd (fst (poll_loop alternating_script (poll_start sample_rtds sample_pmu))),
     Ok tt)
  /\ retry_count (fst (fst (poll_loop alternating_script
                              (poll_start sample_rtds sample_pmu)))) = 0%nat
  /\ List.length (filter is_rebuild
                    (snd (fst (poll_loop alternating_script
                                 (poll_start sample_rtds sample_pmu))))) = 1%nat.
Proof.
  assert (poll_loop alternating_script (poll_start sample_rtds sample_pmu)
          = (fst (fst (poll_loop alternating_script (poll_start sample_rtds sample_pmu))),
             snd (fst (poll_loop alternating_script (poll_start sample_rtds sample_pmu))),
             Ok tt)) as E by (vm_compute; reflexivity).
  destruct (poll_retry_count alternating_script _ _ _ E ltac:(simpl; lia))
    as (H1 & H2 & _).
  split; [exact E |]. split.
  - rewrite H1. reflexivity.
  - rewrite H2. reflexivity.
Defined.

(** ** Frames and the tag store *)

Lemma set_current_values_same self :
  set_current_values self (current_values self) = self.
Proof. now destruct self. Qed.

Lemma store_phasors_run c pmu phasors : forall ph_id self,
  reachable c self ->
  reachable c (set_current_values self
                 (fst (store_phasors pmu ph_id phasors (current_values self)))).
Proof.
  induction phasors as [| [re an] rest IH]; intros ph_id self Hr; simpl.
  - now rewrite set_current_values_same.
  - destruct (nth_error (channel_names pmu) ph_id) as [ch |];
      [| simpl; now rewrite set_current_values_same].
    set (base := (pmu_label pmu ++ "_" ++ ch)%string).
    pose proof (reach_store c _ (base ++ ".real")%string re Hr) as H1.
    pose proof (reach_store c _ (base ++ ".angle")%string an H1) as H2.
    apply (IH (S ph_id)) in H2. exact H2.
Qed.

Lemma store_analog_run c pmu values : forall i self,
  reachable c self ->
  reachable c (set_current_values self
                 (store_analog pmu i values (current_values self))).
Proof.
  induction values as [| v rest IH]; intros i self Hr; simpl.
  - now rewrite set_current_values_same.
  - set (base := (pmu_name pmu ++ "_ANALOG_" ++ PyStr.of_nat (i + 1))%string).
    pose proof (reach_store c _ (base ++ ".real")%string v Hr) as H1.
    pose proof (reach_store c _ (base ++ ".angle")%string v H1) as H2.
    apply (IH (S i)) in H2. exact H2.
Qed.

Lemma store_measurements_run c mms : forall self pmu,
  reachable c self ->
  reachable c (fst (fst (store_measurements self pmu mms))).
Proof.
  induction mms as [| mm rest IH]; intros self pmu Hr; simpl; [assumption |].
  pose proof (store_phasors_run c pmu (mm_phasors mm) 0 self Hr) as H1.
  destruct (store_phasors pmu 0 (mm_phasors mm) (current_values self)) as [cv r].
  simpl in H1. destruct r as [[] | e]; simpl; [| assumption].
  apply IH. apply (store_analog_run c pmu (mm_analog mm) 0) in H1. exact H1.
Qed.

(** What the frames of a source do to the provider: every assignment
    keeps the gtnet state, the socket and the keys already in the store. *)
Lemma store_phasors_effect pmu phasors : forall ph_id cv k,
  In k (dict_keys cv) ->
  In k (dict_keys (fst (store_phasors pmu ph_id phasors cv))).
Proof.
  induction phasors as [| [re an] rest IH]; intros ph_id cv k Hk; simpl; [assumption |].
  destruct (nth_error (channel_names pmu) ph_id); [| assumption].
  apply IH. now apply dict_set_keeps_keys, dict_set_keeps_keys.
Qed.

Lemma store_analog_effect pmu values : forall i cv k,
  In k (dict_keys cv) -> In k (dict_keys (store_analog pmu i values cv)).
Proof.
  induction values as [| v rest IH]; intros i cv k Hk; simpl; [assumption |].
  apply IH. now apply dict_set_keeps_keys, dict_set_keeps_keys.
Qed.

Lemma store_measurements_effect mms : forall self pmu,
  gtnet_skt_state (fst (fst (store_measurements self pmu mms))) = gtnet_skt_state self
  /\ gtnet_socket (fst (fst (store_measurements self pmu mms))) = gtnet_socket self
  /\ retry_delay (fst (fst (store_measurements self pmu mms))) = retry_delay self
  /\ (forall k, In k (dict_keys (current_values self)) ->
        In k (dict_keys (current_values (fst (fst (store_measurements self pmu mms)))))).
Proof.
  induction mms as [| mm rest IH]; intros self pmu; simpl; [auto |].
  pose proof (store_phasors_effect pmu (mm_phasors mm) 0 (current_values self)) as Hp.
  destruct (store_phasors pmu 0 (mm_phasors mm) (current_values self)) as [cv r].
  simpl in Hp. destruct r as [[] | e]; simpl; [| auto].
  destruct (IH (set_current_values self (store_analog pmu 0 (mm_analog mm) cv))
               (next_sequence pmu)) as (H1 & H2 & H3 & H4).
  simpl in *. repeat split; auto.
  intros k Hk. apply H4. now apply store_analog_effect, Hp.
Qed.

(** Polling stays within a run of the provider and never touches the write
    side: after any number of polls, ended by an exception or not, the
    provider is in a state the write requests and single tag assignments
    can reach, the control point vector and the socket are as before, and
    no tag has left the store. *)
Theorem poll_stays_in_run c script : forall st,
  reachable c (ps_self st) ->
  reachable c (ps_self (fst (fst (poll_loop script st))))
  /\ gtnet_skt_state (ps_self (fst (fst (poll_loop script st))))
     = gtnet_skt_state (ps_self st)
  /\ gtnet_socket (ps_self (fst (fst (poll_loop script st)))) = gtnet_socket (ps_self st)
  /\ (forall k, In k (dict_keys (current_values (ps_self st))) ->
        In k (dict_keys (current_values (ps_self (fst (fst (poll_loop script st))))))).
Proof.
  induction script as [| [got names] rest IH]; intros st Hr;
    [simpl; repeat split; auto |].
  cbn [poll_loop].
  assert (reachable c (ps_self (fst (fst (poll_iteration names got st))))
          /\ gtnet_skt_state (ps_self (fst (fst (poll_iteration names got st))))
             = gtnet_skt_state (ps_self st)
          /\ gtnet_socket (ps_self (fst (fst (poll_iteration names got st))))
             = gtnet_socket (ps_self st)
          /\ (forall k, In k (dict_keys (current_values (ps_self st))) ->
                In k (dict_keys (current_values
                                   (ps_self (fst (fst (poll_iteration names got st))))))))
    as (Hr1 & Hs1 & Hk1 & Hc1).
  { destruct got as [| | mms].
    - simpl. repeat split; auto.
    - rewrite poll_iteration_soft.
      destruct (Nat.leb 3 (retry_count st)); simpl; repeat split; auto.
    - unfold poll_iteration.
      pose proof (store_measurements_run c mms (ps_self st) (ps_pmu st) Hr) as Hrun.
      pose proof (store_measurements_effect mms (ps_self st) (ps_pmu st))
        as (H1 & H2 & _ & H4).
      destruct (store_measurements (ps_self st) (ps_pmu st) mms) as [[s p] r].
      simpl in *. repeat split; auto. }
  destruct (poll_iteration names got st) as [[st1 evs1] r1]. simpl in *.
  destruct r1 as [[] | e]; simpl; [| repeat split; auto].
  destruct (IH st1 Hr1) as (Hr2 & Hs2 & Hk2 & Hc2).
  destruct (poll_loop rest st1) as [[st2 evs2] r2]. simpl in *.
  repeat split; try congruence; auto.
Qed.

Lemma poll_stays_in_run_witness :
  reachable sample_config (ps_self (poll_start sample_rtds sample_pmu))
  /\ gtnet_skt_state
       (ps_self (fst (fst (poll_loop alternating_script
                             (poll_start sample_rtds sample_pmu)))))
     = gtnet_skt_state sample_rtds
  /\ In "A" (dict_keys (current_values
                          (ps_self (fst (fst (poll_loop alternating_script
                                                (poll_start sample_rtds sample_pmu))))))).
Proof.
  assert (reachable sample_config (ps_self (poll_start sample_rtds sample_pmu))) as Hr
    by (apply reach_init; vm_compute; reflexivity).
  destruct (poll_stays_in_run sample_config alternating_script _ Hr)
    as (_ & Hs & _ & Hk).
  split; [exact Hr |]. split; [exact Hs |].
  apply Hk. simpl. auto.
Defined.

(** ** Phasors without a channel name *)





(** * Initialization *)




(** ** Duplicated point names *)

Lemma keys_after_length ks : forall start,
  (List.length (keys_after start ks) <= List.length start + List.length ks)%nat.
Proof.
  unfold keys_after. induction ks as [| k ks IH]; intros start; simpl; [lia |].
  destruct (existsb (String.eqb k) start).
  - specialize (IH start). lia.
  - specialize (IH (start ++ [k])). rewrite length_app in IH. simpl in IH. lia.
Qed.

Lemma keys_after_from ks : forall start k,
  In k (keys_after start ks) -> In k start \/ In k ks.
Proof.
  unfold keys_after. induction ks as [| k' ks IH]; intros start k H; simpl in *; [auto |].
  apply IH in H as [H | H]; [| auto].
  destruct (existsb (String.eqb k') start); [auto |].
  apply in_app_or in H as [H | [H | []]]; auto.
Qed.

Lemma keys_after_short ks :
  NoDup (keys_after [] ks) -> ~ NoDup ks ->
  (List.length (keys_after [] ks) < List.length ks)%nat.
Proof.
  intros Hnd Hdup.
  destruct (Nat.lt_ge_cases (List.length (keys_after [] ks)) (List.length ks))
    as [Hlt | Hge]; [assumption | exfalso].
  apply Hdup. apply (@NoDup_incl_NoDup _ (keys_after [] ks) ks Hnd Hge).
  intros k Hk. apply keys_after_from in Hk as [[] | Hk]. assumption.
Qed.

Lemma init_state_format items : forall fmt st fmt' st',
  init_state items fmt st = Ok (fmt', st') ->
  String.length fmt' = (String.length fmt + List.length items)%nat.
Proof.
  assert (forall (a : string) (c : ascii),
             String.length (a ++ String c EmptyString) = S (String.length a)) as Hlen.
  { induction a as [| x a IH]; intros c; simpl; [reflexivity | now rewrite IH]. }
  induction items as [| [[name typ] val] rest IH]; intros fmt st fmt' st' H.
  - simpl in H. injection H as <- <-. simpl. lia.
  - simpl in H. destruct (String.eqb typ "int").
    + apply bind_ok in H as (z & _ & H). apply IH in H. rewrite H, Hlen. simpl. lia.
    + destruct (String.eqb typ "float"); [| discriminate].
      apply bind_ok in H as (f & _ & H). apply IH in H. rewrite H, Hlen. simpl. lia.
Qed.

Lemma chars_length (s : string) :
  List.length (list_ascii_of_string s) = String.length s.
Proof. induction s as [| a s IH]; simpl; [reflexivity | now rewrite IH]. Qed.

Lemma reachable_format c self :
  reachable c self ->
  String.length (struct_format_string self) = S (List.length (control_points c)).
Proof.
  induction 1 as [self H | self failures tags _ IH | self tag val _ IH].
  - apply init_unfold in H as (_ & fmt & st & Hinit & _ & Hf & _).
    apply init_state_format in Hinit. rewrite Hf, Hinit. reflexivity.
  - pose proof (write_effect _ _ _ _ _ _ (write_parts failures self tags)) as (_ & Hf & _).
    unfold after in Hf. now rewrite Hf.
  - assumption.
Qed.

Lemma reachable_state_keys c self :
  reachable c self ->
  dict_keys (gtnet_skt_state self) = keys_after [] (map cp_name (control_points c)).
Proof.
  intros R. destruct (reachable_tags _ _ R) as (Hv & Ht).
  rewrite (cons_keys _ (reachable_consistent _ _ R)), Ht.
  unfold make_gtnet_skt_tags. rewrite make_tags_keys.
  now rewrite cp_names_fst, validated_points.
Qed.

(** [__init__] accepts a configuration that names a point twice. The format
    then has a code for each configured entry but the state one slot for
    each distinct name, so [struct.pack] refuses every vector: whatever is
    written afterwards, nothing is sent and no write is acknowledged. *)
Theorem duplicate_names_block_writes c self failures tags :
  reachable c self ->
  ~ NoDup (map cp_name (control_points c)) ->
  sent_payloads (events (write failures self tags)) = []
  /\ (forall msg, reply (write failures self tags) = Ok msg ->
        String.prefix "ERR=" msg = true)
  /\ Struct.pack (struct_format_string self) (dict_values (gtnet_skt_state self))
     = Raise StructError.
Proof.
  intros R Hdup.
  assert (forall s, reachable c s ->
            Struct.pack (struct_format_string s) (dict_values (gtnet_skt_state s))
            = Raise StructError) as Hpack.
  { intros s Rs. pose proof (reachable_format _ _ Rs) as Hf.
    pose proof (reachable_state_keys _ _ Rs) as Hk.
    pose proof (cons_nodup _ (reachable_consistent _ _ Rs)) as Hnd.
    rewrite <- (cons_keys _ (reachable_consistent _ _ Rs)), Hk in Hnd.
    pose proof (keys_after_short _ Hnd Hdup) as Hlt.
    rewrite <- Hk in Hlt. unfold dict_keys in Hlt. rewrite !length_map in Hlt.
    unfold Struct.pack. destruct (struct_format_string s) as [| a codes]; [reflexivity |].
    simpl in Hf. injection Hf as Hf.
    destruct (Ascii.eqb_spec a "!"); [subst a | ].
    - replace (Nat.eqb (List.length (list_ascii_of_string codes))
                       (List.length (dict_values (gtnet_skt_state s)))) with false.
      + now rewrite andb_false_r.
      + symmetry. apply Nat.eqb_neq. unfold dict_values. rewrite length_map.
        rewrite chars_length. lia.
    - destruct a as [[] [] [] [] [] [] [] []]; try reflexivity. contradiction. }
  split; [| split; [| now apply Hpack]].
  - destruct (write failures self tags) as [[self' evs] r] eqn:E.
    pose proof (reach_write c self failures tags R) as R'. rewrite E in R'. simpl in R'.
    apply write_traffic in E as [(Hs & _) | (payload & Hp & _)]; [exact Hs |].
    rewrite (Hpack _ R') in Hp. discriminate.
  - destruct (write failures self tags) as [[self' evs] r] eqn:E.
    pose proof (reach_write c self failures tags R) as R'. rewrite E in R'. simpl in R'.
    apply write_traffic in E as [(_ & _ & He) | (payload & Hp & _)]; [exact He |].
    rewrite (Hpack _ R') in Hp. discriminate.
Qed.

Lemma duplicate_names_block_writes_witness :
  __init__ duplicate_config = Ok duplicate_rtds
  /\ sent_payloads (events (write 0 duplicate_rtds [("A", PyInt 5)])) = [].
Proof.
  assert (__init__ duplicate_config = Ok duplicate_rtds) as Hi by (vm_compute; reflexivity).
  split; [exact Hi |].
  apply (duplicate_names_block_writes duplicate_config duplicate_rtds 0 [("A", PyInt 5)]).
  - apply reach_init. exact Hi.
  - intros H. vm_compute in H. inversion H as [| x l Hx _]. apply Hx. left. reflexivity.
Defined.

(** * The configuration file *)

(** ** [strip] *)

Lemma lstrip_starts cs : starts_clean (PyStr.lstrip cs) = true.
Proof.
  induction cs as [| c cs IH]; simpl; [reflexivity |].
  destruct (PyStr.is_space c) eqn:E; [assumption | simpl; now rewrite E].
Qed.

Lemma lstrip_fix cs : starts_clean cs = true -> PyStr.lstrip cs = cs.
Proof.
  destruct cs as [| c cs]; simpl; [reflexivity |].
  destruct (PyStr.is_space c); [discriminate | reflexivity].
Qed.

Lemma lstrip_suffix cs :
  exists pre, cs = pre ++ PyStr.lstrip cs /\ Forall (fun c => PyStr.is_space c = true) pre.
Proof.
  induction cs as [| c cs (pre & IH & Hpre)]; simpl.
  - exists []. split; [reflexivity | constructor].
  - destruct (PyStr.is_space c) eqn:E.
    + exists (c :: pre). split; [simpl; now rewrite <- IH | now constructor].
    + exists []. split; [reflexivity | constructor].
Qed.

Lemma lstrip_blanks pre cs :
  Forall (fun c => PyStr.is_space c = true) pre ->
  PyStr.lstrip (pre ++ cs) = PyStr.lstrip cs.
Proof. induction 1 as [| c pre Hc _ IH]; simpl; [reflexivity | now rewrite Hc]. Qed.

Lemma lstrip_app cs ws :
  PyStr.lstrip cs <> [] -> PyStr.lstrip (cs ++ ws) = PyStr.lstrip cs ++ ws.
Proof.
  induction cs as [| c cs IH]; simpl; [congruence |].
  destruct (PyStr.is_space c); auto.
Qed.

Lemma lstrip_all_blank cs :
  Forall (fun c => PyStr.is_space c = true) cs -> PyStr.lstrip cs = [].
Proof. intros H. rewrite <- (app_nil_r cs). now rewrite lstrip_blanks. Qed.

Lemma rstrip_suffix cs :
  exists ws, cs = rev (PyStr.lstrip (rev cs)) ++ ws
             /\ Forall (fun c => PyStr.is_space c = true) ws.
Proof.
  destruct (lstrip_suffix (rev cs)) as (pre & E & Hpre).
  exists (rev pre). split; [| now apply Forall_rev].
  rewrite <- rev_app_distr, <- E. now rewrite rev_involutive.
Qed.

Lemma ends_clean_lstrip y :
  starts_clean (rev y) = true -> starts_clean (rev (PyStr.lstrip y)) = true.
Proof.
  destruct (lstrip_suffix y) as (pre & E & _).
  destruct (rev (PyStr.lstrip y)) as [| c r] eqn:Er; [reflexivity |].
  rewrite E at 1. rewrite rev_app_distr, Er. simpl. auto.
Qed.

Lemma strip_clean cs :
  starts_clean (PyStr.strip cs) = true /\ starts_clean (rev (PyStr.strip cs)) = true.
Proof.
  unfold PyStr.strip. split.
  - apply ends_clean_lstrip. rewrite rev_involutive. apply lstrip_starts.
  - rewrite rev_involutive. apply lstrip_starts.
Qed.

Lemma strip_fix cs :
  starts_clean cs = true -> starts_clean (rev cs) = true -> PyStr.strip cs = cs.
Proof.
  intros H1 H2. unfold PyStr.strip.
  now rewrite (lstrip_fix cs H1), (lstrip_fix _ H2), rev_involutive.
Qed.

Lemma strip_idem cs : PyStr.strip (PyStr.strip cs) = PyStr.strip cs.
Proof. destruct (strip_clean cs). now apply strip_fix. Qed.

Lemma strip_lead c cs :
  PyStr.is_space c = true -> PyStr.strip (c :: cs) = PyStr.strip cs.
Proof. intros H. unfold PyStr.strip. simpl. now rewrite H. Qed.

Lemma strip_trail cs ws :
  Forall (fun c => PyStr.is_space c = true) ws ->
  PyStr.strip (cs ++ ws) = PyStr.strip cs.
Proof.
  intros Hws. unfold PyStr.strip.
  destruct (PyStr.lstrip cs) as [| c r] eqn:E.
  - destruct (lstrip_suffix cs) as (pre & Ecs & Hpre). rewrite E, app_nil_r in Ecs.
    subst pre. rewrite (lstrip_all_blank (cs ++ ws)); [reflexivity |].
    apply Forall_app. split; assumption.
  - rewrite lstrip_app, E by (rewrite E; discriminate).
    rewrite rev_app_distr. rewrite lstrip_blanks; [reflexivity |].
    now apply Forall_rev.
Qed.

Lemma strip_sub (P : ascii -> Prop) cs : Forall P cs -> Forall P (PyStr.strip cs).
Proof.
  assert (forall l, Forall P l -> Forall P (PyStr.lstrip l)) as Hl.
  { intros l H. destruct (lstrip_suffix l) as (pre & E & _). rewrite E in H.
    now apply Forall_app in H as [_ H]. }
  intros H. unfold PyStr.strip. apply Forall_rev, Hl, Forall_rev, Hl, H.
Qed.

(** ** [split] *)

Lemma split_comma_nonempty cs : split_comma cs <> [].
Proof.
  induction cs as [| c cs IH]; simpl; [discriminate |].
  destruct (Ascii.eqb c ","); [discriminate |].
  destruct (split_comma cs); discriminate.
Qed.

Lemma split_comma_single cs : no_comma cs -> split_comma cs = [cs].
Proof.
  induction 1 as [| c cs Hc _ IH]; simpl; [reflexivity |]. now rewrite Hc, IH.
Qed.

Lemma split_comma_app a b :
  split_comma (a ++ ","%char :: b) = split_comma a ++ split_comma b.
Proof.
  induction a as [| c a IH]; simpl; [reflexivity |].
  destruct (Ascii.eqb c ","); [now rewrite IH |].
  rewrite IH. pose proof (split_comma_nonempty a).
  destruct (split_comma a); [contradiction | reflexivity].
Qed.

Lemma split_comma_pieces cs : Forall no_comma (split_comma cs).
Proof.
  induction cs as [| c cs IH]; simpl; [repeat constructor |].
  destruct (Ascii.eqb c ",") eqn:E; [constructor; [constructor | assumption] |].
  destruct (split_comma cs) as [| p ps]; [repeat constructor; assumption |].
  inversion IH; subst. constructor; [now constructor | assumption].
Qed.

Lemma split_comma_trail cs ws :
  no_comma ws -> split_comma (cs ++ ws) = app_last (split_comma cs) ws.
Proof.
  intros Hws. induction cs as [| c cs IH]; simpl.
  - now apply split_comma_single.
  - pose proof (split_comma_nonempty cs) as Hne.
    destruct (Ascii.eqb c ",").
    + rewrite IH. destruct (split_comma cs); [contradiction | reflexivity].
    + rewrite IH. destruct (split_comma cs) as [| q [| q' qs]];
        [contradiction | reflexivity | reflexivity].
Qed.

Lemma map_strip_app_last ps ws :
  ps <> [] -> Forall (fun c => PyStr.is_space c = true) ws ->
  map PyStr.strip (app_last ps ws) = map PyStr.strip ps.
Proof.
  intros Hne Hws. induction ps as [| p ps IH]; [contradiction |].
  destruct ps as [| q qs].
  - simpl. now rewrite strip_trail.
  - change (app_last (p :: q :: qs) ws) with (p :: app_last (q :: qs) ws).
    rewrite !(map_cons PyStr.strip p). rewrite IH by discriminate. reflexivity.
Qed.

Lemma space_not_comma c : PyStr.is_space c = true -> Ascii.eqb c "," = false.
Proof.
  intros H. destruct (Ascii.eqb_spec c ","); [subst c; discriminate H | reflexivity].
Qed.

Lemma map_strip_split_lstrip cs :
  map PyStr.strip (split_comma (PyStr.lstrip cs)) = map PyStr.strip (split_comma cs).
Proof.
  induction cs as [| c cs IH]; [reflexivity |].
  simpl PyStr.lstrip. destruct (PyStr.is_space c) eqn:E; [| reflexivity].
  rewrite IH. simpl. rewrite (space_not_comma c E).
  pose proof (split_comma_nonempty cs).
  destruct (split_comma cs) as [| p ps]; [contradiction |].
  simpl. now rewrite strip_lead.
Qed.

Lemma map_strip_split_strip cs :
  map PyStr.strip (split_comma (PyStr.strip cs)) = map PyStr.strip (split_comma cs).
Proof.
  rewrite <- (map_strip_split_lstrip cs).
  destruct (rstrip_suffix (PyStr.lstrip cs)) as (ws & E & Hws).
  fold (PyStr.strip cs) in E. rewrite E.
  rewrite split_comma_trail.
  - rewrite map_strip_app_last; [reflexivity | apply split_comma_nonempty | assumption].
  - eapply Forall_impl; [| exact Hws]. apply space_not_comma.
Qed.

(** ** [_conf] *)

Lemma is_empty_str_chars cs : is_empty_str (string_of_list_ascii cs) = is_nil cs.
Proof. now destruct cs. Qed.

Lemma conf_items_chars raw :
  conf_items raw = map string_of_list_ascii (items_of (list_ascii_of_string raw)).
Proof.
  unfold conf_items, _conf, str_split_comma, str_strip, items_of.
  rewrite list_ascii_of_string_of_list_ascii.
  rewrite <- (map_strip_split_strip (list_ascii_of_string raw)).
  induction (split_comma (PyStr.strip (list_ascii_of_string raw))) as [| p ps IH];
    [reflexivity |].
  simpl. rewrite list_ascii_of_string_of_list_ascii, is_empty_str_chars.
  destruct (is_nil (PyStr.strip p)); simpl; [exact IH |].
  now rewrite IH, list_ascii_of_string_of_list_ascii.
Qed.

Lemma count_chars c s :
  PyStr.count c s = 0%nat
  <-> Forall (fun x => Ascii.eqb x c = false) (list_ascii_of_string s).
Proof.
  induction s as [| a s IH]; simpl; [split; [constructor | reflexivity] |].
  rewrite (Ascii.eqb_sym c a). destruct (Ascii.eqb a c) eqn:E; split; intros H.
  - discriminate.
  - inversion H as [| ? ? Ha _]. congruence.
  - constructor; [assumption | now apply IH].
  - inversion H as [| ? ? _ Hs]. now apply IH.
Qed.

Lemma chars_app (a b : string) :
  list_ascii_of_string (a ++ b) = list_ascii_of_string a ++ list_ascii_of_string b.
Proof. induction a as [| c a IH]; simpl; [reflexivity | now rewrite IH]. Qed.

(** Every item [_conf] returns for a list option is not empty, has no comma
    in it and no blank at either end. *)
Theorem conf_items_clean raw item :
  In item (conf_items raw) -> clean_item item.
Proof.
  rewrite conf_items_chars. intros H. apply in_map_iff in H as (cs & <- & H).
  unfold items_of in H. apply filter_In in H as (H & Hne).
  apply in_map_iff in H as (p & <- & Hp).
  pose proof (split_comma_pieces (list_ascii_of_string raw)) as Hall.
  rewrite Forall_forall in Hall. specialize (Hall _ Hp).
  split; [| split].
  - destruct (PyStr.strip p); [discriminate | discriminate].
  - apply count_chars. rewrite list_ascii_of_string_of_list_ascii.
    now apply strip_sub.
  - unfold str_strip. now rewrite list_ascii_of_string_of_list_ascii, strip_idem.
Qed.

Lemma conf_items_clean_witness : clean_item "VSET".
Proof.
  apply (conf_items_clean " VSET , ,PREF" "VSET"). vm_compute. left. reflexivity.
Defined.

Lemma conf_items_app (a b : string) :
  conf_items (a ++ "," ++ b) = (conf_items a ++ conf_items b)%list.
Proof.
  rewrite !conf_items_chars, chars_app. simpl.
  unfold items_of. now rewrite split_comma_app, map_app, filter_app, map_app.
Qed.

Lemma conf_items_single (x : string) :
  PyStr.count "," x = 0%nat ->
  conf_items x = if is_empty_str (str_strip x) then [] else [str_strip x].
Proof.
  intros Hx. rewrite conf_items_chars. unfold items_of.
  rewrite split_comma_single by now apply count_chars.
  simpl. unfold str_strip. rewrite is_empty_str_chars.
  now destruct (is_nil (PyStr.strip (list_ascii_of_string x))).
Qed.

Lemma conf_items_lead (c : ascii) (x : string) :
  PyStr.is_space c = true -> conf_items (String c x) = conf_items x.
Proof.
  intros Hc. rewrite !conf_items_chars. unfold items_of. f_equal. f_equal.
  rewrite <- (map_strip_split_lstrip (list_ascii_of_string (String c x))).
  simpl. rewrite Hc. apply map_strip_split_lstrip.
Qed.

Lemma conf_items_clean_item (x : string) : clean_item x -> conf_items x = [x].
Proof.
  intros (Hne & Hc & Hs). rewrite conf_items_single, Hs by assumption.
  destruct x; [contradiction | reflexivity].
Qed.

(** A list option is read piece by piece: the items of [a,b] are those of
    [a] followed by those of [b], and a text without a comma gives its
    stripped self, or nothing when it is blank. *)
Theorem conf_items_compose :
  (forall a b : string,
      conf_items (a ++ "," ++ b) = (conf_items a ++ conf_items b)%list)
  /\ (forall x : string, PyStr.count "," x = 0%nat ->
        conf_items x = if is_empty_str (str_strip x) then [] else [str_strip x]).
Proof. split; [apply conf_items_app | apply conf_items_single]. Qed.

Lemma conf_items_compose_witness :
  conf_items "VSET" = ["VSET"] /\ conf_items (" a " ++ "," ++ "b,") = ["a"; "b"].
Proof.
  destruct conf_items_compose as [Happ Hone].
  split.
  - rewrite (Hone "VSET"); reflexivity.
  - rewrite (Happ " a " "b,"). reflexivity.
Defined.

(** Writing a list of clean items with [", "] or [","] between them and
    reading the text back as a list option gives the items again. *)
Theorem conf_items_join (items : list string) :
  Forall clean_item items ->
  conf_items (PyStr.join ", " items) = items
  /\ conf_items (PyStr.join "," items) = items.
Proof.
  induction 1 as [| p ps Hp Hps [IH1 IH2]]; [split; reflexivity |].
  destruct ps as [| q qs]; [split; now apply conf_items_clean_item |].
  change (PyStr.join ", " (p :: q :: qs))
    with (p ++ "," ++ String " " (PyStr.join ", " (q :: qs)))%string.
  change (PyStr.join "," (p :: q :: qs))
    with (p ++ "," ++ PyStr.join "," (q :: qs))%string.
  rewrite !conf_items_app, conf_items_lead, IH1, IH2 by reflexivity.
  now rewrite (conf_items_clean_item p Hp).
Qed.

Lemma conf_items_join_witness :
  conf_items (PyStr.join ", " ["VSET"; "P REF"]) = ["VSET"; "P REF"].
Proof.
  apply (conf_items_join ["VSET"; "P REF"]).
  repeat constructor; solve [discriminate | reflexivity].
Defined.

(** * Channel names *)

Lemma sub_phasor_without_P cs : forall count,
  Forall (fun c => Ascii.eqb c "P" = false) cs -> sub_phasor 0 count cs = cs.
Proof.
  induction cs as [| c cs IH]; intros count H; [reflexivity |].
  inversion H as [| ? ? Hc Hcs]; subst.
  assert (matches_phasor (c :: cs) = false) as Hm.
  { unfold matches_phasor. cbn [starts_with list_ascii_of_string].
    rewrite Ascii.eqb_sym, Hc. reflexivity. }
  simpl sub_phasor. destruct count as [| n]; [| rewrite Hm]; now rewrite IH.
Qed.

Lemma strip_rstrip cs :
  PyStr.strip (rev (PyStr.lstrip (rev cs))) = PyStr.strip cs.
Proof.
  destruct (rstrip_suffix cs) as (ws & E & Hws).
  rewrite E at 2. now rewrite strip_trail.
Qed.

Lemma rstrip_app pre cs :
  pre <> [] -> starts_clean (rev pre) = true ->
  rev (PyStr.lstrip (rev (pre ++ cs))) = pre ++ rev (PyStr.lstrip (rev cs)).
Proof.
  intros Hne Hend. rewrite rev_app_distr.
  destruct (PyStr.lstrip (rev cs)) as [| c r] eqn:E.
  - destruct (lstrip_suffix (rev cs)) as (ws & Ecs & Hws).
    rewrite E, app_nil_r in Ecs. subst ws.
    rewrite lstrip_blanks by assumption.
    rewrite lstrip_fix by assumption. now rewrite rev_involutive, app_nil_r.
  - rewrite lstrip_app by (rewrite E; discriminate).
    rewrite E, rev_app_distr, rev_involutive. reflexivity.
Qed.

(** A channel name without a capital [P] is only stripped: the pattern is
    matched with its capitals, so a prefix written [phasor ch 1:] stays,
    although the call names [re.IGNORECASE]. *)
Theorem process_name_keeps_other_case (cn : string) :
  PyStr.count "P" cn = 0%nat -> _process_name cn = str_strip cn.
Proof.
  intros H. apply count_chars in H. unfold _process_name, str_strip.
  rewrite sub_phasor_without_P by now apply strip_sub.
  now rewrite strip_idem.
Qed.

Lemma process_name_keeps_other_case_witness :
  _process_name "phasor ch 1:VA  " = "phasor ch 1:VA".
Proof. apply (process_name_keeps_other_case "phasor ch 1:VA  "). reflexivity. Defined.

(** A name that starts with [PHASOR CH], one digit and a colon loses that
    prefix and the blanks around what follows, as in the names an RTDS PMU
    reports ([PHASOR CH 1:VA  ] gives [VA]). *)
Theorem process_name_drops_prefix (d : ascii) (body : string) :
  PyStr.is_digit d = true ->
  PyStr.count "P" body = 0%nat ->
  _process_name ("PHASOR CH " ++ String d (String ":" body)) = str_strip body.
Proof.
  intros Hd Hb. apply count_chars in Hb. unfold _process_name, str_strip.
  set (b := list_ascii_of_string body) in *.
  set (pre := list_ascii_of_string "PHASOR CH " ++ [d; ":"%char]).
  assert (list_ascii_of_string ("PHASOR CH " ++ String d (String ":" body)) = pre ++ b)
    as -> by reflexivity.
  assert (PyStr.strip (pre ++ b) = pre ++ rev (PyStr.lstrip (rev b))) as ->.
  { unfold PyStr.strip. rewrite (lstrip_fix (pre ++ b)) by reflexivity.
    apply rstrip_app; [discriminate |].
    unfold pre. rewrite rev_app_distr. reflexivity. }
  assert (Forall (fun c => Ascii.eqb c "P" = false) (rev (PyStr.lstrip (rev b)))) as Hr.
  { apply Forall_rev. destruct (lstrip_suffix (rev b)) as (ws & E & _).
    apply Forall_rev in Hb. rewrite E in Hb. now apply Forall_app in Hb as [_ Hb]. }
  assert (sub_phasor 0 258 (pre ++ rev (PyStr.lstrip (rev b)))
          = rev (PyStr.lstrip (rev b))) as ->.
  { unfold pre. cbn [app list_ascii_of_string].
    change 258%nat with (S 257).
    cbn [sub_phasor]. unfold matches_phasor. cbn [starts_with list_ascii_of_string Ascii.eqb Bool.eqb].
    rewrite Hd. cbn [andb]. cbn [sub_phasor].
    now apply sub_phasor_without_P. }
  f_equal. apply strip_rstrip.
Qed.

Lemma process_name_drops_prefix_witness :
  _process_name "PHASOR CH 1:VA  " = "VA".
Proof.
  apply (process_name_drops_prefix "1" "VA  "); reflexivity.
Defined.
